(** * The iterative migration engine of python-upgrader-bot

    A shallow embedding of [src/app_py_version/migration_executor.py]
    (class [MigrationExecutor]) and of the [_run] methods of the three
    tools in [src/app_py_version/ai_tools/], followed by the properties
    of the convergence loop, the fallback chain and the code extractors.

    Conventions of the embedding.
    - A Python [str] is a [string]: the sequence of bytes of its UTF-8
      encoding.  Substring tests, equality, concatenation and splitting
      agree with Python on such sequences.  Whitespace ([str.strip], the
      class [\s]) and letter case ([str.lower], [re.IGNORECASE]) are the
      ASCII ones.
    - What the interpreter and its libraries provide ([compile],
      [json.loads], [str] of an error dictionary, the three tools seen
      from the executor, the agent) is a [Variable] of the section that
      uses it.  The regular expressions of the executor are written out
      and matched by a backtracking matcher.
    - The working directory is a store from paths to file data, listed in
      the order of [rglob]; the effects of a round (tool runs, file
      writes) are recorded in an event log.
    - Listing the directory and writing a file that was just read do not
      fail, and the tools return (see [Tools]): the handlers of
      [_attempt_compilation], [_execute_iteration_with_agent] and
      [_apply_fallback_tools] for such failures, the status [error] and
      the [error] key of a round have no counterpart here.  A file that
      cannot be read is part of the model.  Time stamps and log messages
      are left out.  A step of the agent is a pair, as LangChain makes
      them. *)

From Stdlib Require Import String Ascii List Bool Arith ZArith Lia DecimalString.
Import ListNotations.
Open Scope list_scope.
Open Scope string_scope.

(** ** Python text primitives *)

Module Text.

Definition chr (n : nat) : string := String (ascii_of_nat n) EmptyString.

Definition nl : string := chr 10.
Definition tab : string := chr 9.
Definition cr : string := chr 13.
Definition dq : string := chr 34.
Definition bs : string := chr 92.

(** [bytes] builds a string from the byte values of its encoding. *)
Definition bytes (l : list nat) : string :=
  fold_right (fun n s => String (ascii_of_nat n) s) EmptyString l.

(** [s.startswith(p)]. *)
Fixpoint startswith (p s : string) : bool :=
  match p, s with
  | EmptyString, _ => true
  | String a p', String b s' => if Ascii.eqb a b then startswith p' s' else false
  | String _ _, EmptyString => false
  end.

(** [sub in s]. *)
Fixpoint contains (sub s : string) : bool :=
  if startswith sub s then true
  else match s with
       | EmptyString => false
       | String _ s' => contains sub s'
       end.

(** [any(p in s for p in ps)]. *)
Definition contains_any (ps : list string) (s : string) : bool :=
  existsb (fun p => contains p s) ps.

(** Python truth value of a string. *)
Definition truthy (s : string) : bool :=
  match s with EmptyString => false | String _ _ => true end.

Definition is_space (c : ascii) : bool :=
  let n := nat_of_ascii c in
  (((9 <=? n) && (n <=? 13)) || ((28 <=? n) && (n <=? 32)))%nat.

Fixpoint lstrip (s : string) : string :=
  match s with
  | String c s' => if is_space c then lstrip s' else s
  | EmptyString => EmptyString
  end.

Fixpoint rstrip (s : string) : string :=
  match s with
  | EmptyString => EmptyString
  | String c s' =>
      match rstrip s' with
      | EmptyString => if is_space c then EmptyString else String c EmptyString
      | r => String c r
      end
  end.

(** [s.strip()]. *)
Definition strip (s : string) : string := rstrip (lstrip s).

Definition lower_ascii (c : ascii) : ascii :=
  let n := nat_of_ascii c in
  if ((65 <=? n) && (n <=? 90))%nat then ascii_of_nat (n + 32) else c.

(** [s.lower()]. *)
Fixpoint lower (s : string) : string :=
  match s with
  | EmptyString => EmptyString
  | String c s' => String (lower_ascii c) (lower s')
  end.

(** [s.split('\n')]: never empty, one more piece than newlines. *)
Fixpoint split_lines (s : string) : list string :=
  match s with
  | EmptyString => [EmptyString]
  | String c s' =>
      if Ascii.eqb c (ascii_of_nat 10) then EmptyString :: split_lines s'
      else match split_lines s' with
           | l :: ls => String c l :: ls
           | [] => [String c EmptyString]
           end
  end.

(** ['\n'.join(ls)]. *)
Fixpoint join_lines (ls : list string) : string :=
  match ls with
  | [] => EmptyString
  | [l] => l
  | l :: ls' => l ++ nl ++ join_lines ls'
  end.

Fixpoint drop (n : nat) (s : string) : string :=
  match n, s with
  | S n', String _ s' => drop n' s'
  | _, _ => s
  end.

(** [s[:n]]. *)
Fixpoint take (n : nat) (s : string) : string :=
  match n, s with
  | S n', String c s' => String c (take n' s')
  | _, _ => EmptyString
  end.

(** [s.replace(old, new)] for a non-empty [old]: occurrences are
    replaced from left to right, without overlap.  The fuel is the
    length of [s]. *)
Fixpoint replace_fuel (fuel : nat) (old new s : string) : string :=
  match fuel with
  | 0 => s
  | S fuel' =>
      match s with
      | EmptyString => EmptyString
      | String c s' =>
          if startswith old s
          then new ++ replace_fuel (fuel' - (String.length old - 1)) old new
                                   (drop (String.length old) s)
          else String c (replace_fuel fuel' old new s')
      end
  end.

Definition replace (old new s : string) : string :=
  replace_fuel (String.length s) old new s.

End Text.

(** ** The fragment of [re] the executor uses

    Patterns are written as syntax trees; [search] is a backtracking
    matcher with the priorities of [re]: a greedy star tries one more
    iteration first, a lazy star tries to stop first, an alternation
    tries its left branch first, and the leftmost start position wins.
    All patterns are searched with [re.DOTALL]. *)

Module Regex.
Import Text.

Inductive regex : Type :=
| Lit (s : string)                 (* literal characters *)
| AnyChar                          (* .  *)
| NoneOf (cs : string)             (* [^cs] *)
| Space                            (* \s *)
| Cat (r1 r2 : regex)
| Alt (r1 r2 : regex)              (* r1|r2 *)
| Star (greedy : bool) (r : regex) (* r* and r*? *)
| Group (r : regex)                (* the capture group *)
| NotPreceded (c : ascii).         (* (?<!c) *)

Record mstate : Type := MState
  { prev : option ascii;      (* the character before the position *)
    rest : string;            (* the text from the position on *)
    cap : option string }.    (* what the group captured so far *)

Definition char_eq (ic : bool) (a b : ascii) : bool :=
  if ic then Ascii.eqb (lower_ascii a) (lower_ascii b) else Ascii.eqb a b.

Fixpoint eat (ic : bool) (l : string) (st : mstate) : option mstate :=
  match l with
  | EmptyString => Some st
  | String a l' =>
      match rest st with
      | String b s' =>
          if char_eq ic a b then eat ic l' (MState (Some b) s' (cap st))
          else None
      | EmptyString => None
      end
  end.

Fixpoint mem (c : ascii) (cs : string) : bool :=
  match cs with
  | EmptyString => false
  | String a cs' => Ascii.eqb a c || mem c cs'
  end.

Definition one (p : ascii -> bool) (st : mstate) : option mstate :=
  match rest st with
  | String b s' => if p b then Some (MState (Some b) s' (cap st)) else None
  | EmptyString => None
  end.

Section Matcher.
Context {A : Type}.
Variable ic : bool.

Definition orelse (x y : option A) : option A :=
  match x with Some _ => x | None => y end.

(** The iterations of a star: [body] matches one more iteration, which
    has to consume a character; [n] bounds their number by the length of
    the text. *)
Fixpoint star_loop (greedy : bool)
  (body : (mstate -> option A) -> mstate -> option A)
  (k : mstate -> option A) (n : nat) (st0 : mstate) {struct n} : option A :=
  match n with
  | 0 => k st0
  | S n' =>
      let again :=
        body (fun st1 =>
                if (String.length (rest st1) <? String.length (rest st0))%nat
                then star_loop greedy body k n' st1 else None) st0 in
      if greedy then orelse again (k st0) else orelse (k st0) again
  end.

Fixpoint run (r : regex) (k : mstate -> option A) (st : mstate) {struct r}
  : option A :=
  match r with
  | Lit l => match eat ic l st with Some st' => k st' | None => None end
  | AnyChar => match one (fun _ => true) st with Some st' => k st' | None => None end
  | NoneOf cs =>
      match one (fun b => negb (mem b cs)) st with Some st' => k st' | None => None end
  | Space => match one is_space st with Some st' => k st' | None => None end
  | Cat r1 r2 => run r1 (run r2 k) st
  | Alt r1 r2 => orelse (run r1 k st) (run r2 k st)
  | Star greedy r1 => star_loop greedy (run r1) k (S (String.length (rest st))) st
  | Group r1 =>
      run r1 (fun st1 =>
                k (MState (prev st1) (rest st1)
                     (Some (take (String.length (rest st) - String.length (rest st1))
                              (rest st))))) st
  | NotPreceded c =>
      match prev st with
      | Some b => if Ascii.eqb b c then None else k st
      | None => k st
      end
  end.
End Matcher.

Fixpoint search_from (ic : bool) (r : regex) (p : option ascii) (s : string)
  : option (option string) :=
  match run ic r (fun st => Some (cap st)) (MState p s None) with
  | Some c => Some c
  | None =>
      match s with
      | EmptyString => None
      | String c s' => search_from ic r (Some c) s'
      end
  end.

(** [re.search(r, s, re.DOTALL [| re.IGNORECASE])], then [.group(1)];
    [None] when there is no match. *)
Definition search (ic : bool) (r : regex) (s : string) : option string :=
  match search_from ic r None s with
  | Some (Some g) => Some g
  | _ => None
  end.

Fixpoint cat (rs : list regex) : regex :=
  match rs with
  | [] => Lit EmptyString
  | [r] => r
  | r :: rs' => Cat r (cat rs')
  end.

End Regex.

Import Text Regex.

(** ** The syntax oracle

    [compile(code, filename, 'exec')] either succeeds, raises
    [SyntaxError] (with its [lineno] and its text) or raises another
    exception (with its text). *)

Inductive CompileOutcome : Type :=
| Compiled
| SyntaxError (lineno : option nat) (msg : string)
| OtherException (msg : string).

(** ** Extraction of code from tool and agent output *)

Definition fenced (opening closing : string) : regex :=
  cat [Lit opening; Group (Star false AnyChar); Lit closing].

(** The pattern: three backquotes, python, newline, a lazy group, newline,
    three backquotes. *)
Definition fence_python : regex := fenced ("```python" ++ nl) (nl ++ "```").

(** The same without the language tag. *)
Definition fence_plain : regex := fenced ("```" ++ nl) (nl ++ "```").

(** A label, optional whitespace, then the tagged fence. *)
Definition labelled (label : string) : regex :=
  cat [Lit label; Star true Space; fence_python].

(** A cue, any text (lazily), then the tagged fence. *)
Definition following (cue : string) : regex :=
  cat [Lit cue; Star false AnyChar; fence_python].

(** The body of a JSON string: characters other than the quote and the
    backslash, or a backslash followed by any character, repeated. *)
Definition json_body : regex :=
  Star true (Alt (NoneOf (dq ++ bs)) (Cat (Lit bs) AnyChar)).

(** The key of the action payload, with its quotes and its colon. *)
Definition action_key : string := dq ++ "action_input" ++ dq ++ ":".

Definition action_input_key : regex :=
  cat [Lit action_key; Star true Space; Lit dq].

Definition json_patterns : list regex :=
  [ (* the key, a body, and a closing quote not preceded by a backslash *)
    cat [action_input_key; Group json_body; NotPreceded (ascii_of_nat 92); Lit dq];
    (* the key, non-quotes interleaved with escaped characters, a quote *)
    cat [action_input_key;
         Group (Cat (Star true (NoneOf dq))
                    (Star true (cat [Lit bs; AnyChar; Star true (NoneOf dq)])));
         Lit dq];
    (* the Final Answer action, no closing brace, the key, a body, a quote *)
    cat [Lit (dq ++ "action" ++ dq ++ ":"); Star true Space;
         Lit (dq ++ "Final Answer" ++ dq); Star true (NoneOf "}");
         action_input_key; Group json_body; Lit dq] ].

Definition code_patterns : list regex :=
  [ fence_python;
    fence_plain;
    fenced ("```python" ++ nl) "```";
    fenced ("```" ++ nl) "```" ].

Definition patterns : list regex :=
  [ fence_python;
    fence_plain;
    labelled "FIXED CODE:";
    labelled "RESULT:";
    labelled "CORRECTED VERSION:";
    labelled "MIGRATED CODE:";
    following "Final Answer";
    following "Here's the corrected version";
    following "Here's the final code";
    following "Here's the corrected Python 3 code" ].

Definition tool_output_patterns : list regex :=
  [ (* Observation:, whitespace, any text lazily, the tagged fence *)
    cat [Lit "Observation:"; Star true Space; Star false AnyChar; fence_python] ].

(** The tagged fence with optional whitespace around the lazy group. *)
Definition permissive_pattern : regex :=
  cat [Lit "```python"; Star true Space; Group (Star false AnyChar);
       Star true Space; Lit "```"].

Definition start_indicators : list string :=
  ["#!/usr/bin/env python"; "def "; "class "; "import "; "from "].

Definition code_keywords : list string :=
  ["if "; "else:"; "elif "; "for "; "while "; "try:"; "except"; "finally:";
   "with "; "return"; "yield"; "pass"; "break"; "continue"].

(** Star, dash, the check mark, the wrench, the warning sign, hash. *)
Definition prose_marks : list string :=
  ["*"; "-"; bytes [226; 156; 133]; bytes [240; 159; 148; 167];
   bytes [226; 154; 160; 239; 184; 143]; "#"].

(** The first result of [f] over [l], as a [for] loop that returns from
    inside its body. *)
Fixpoint first_some {A B : Type} (f : A -> option B) (l : list A) : option B :=
  match l with
  | [] => None
  | a :: l' => match f a with Some b => Some b | None => first_some f l' end
  end.

(** The line scan of [_extract_code_from_result]. *)
Fixpoint scan_code_section (in_code_section : bool) (lines : list string)
  : list string :=
  match lines with
  | [] => []
  | line :: lines' =>
      if startswith "```python" (strip line) then scan_code_section true lines'
      else if (strip line =? "```") && in_code_section then []
      else if in_code_section then line :: scan_code_section true lines'
      else scan_code_section in_code_section lines'
  end.

Definition _extract_code_from_result (result : string) : option string :=
  match search false fence_python result with
  | Some code => Some code
  | None =>
      match scan_code_section false (split_lines result) with
      | [] => None
      | code_lines => Some (join_lines code_lines)
      end
  end.

(** The heuristic line scan of [_extract_code_from_agent_output]. *)
Fixpoint scan_python_like (in_code : bool) (lines : list string) : list string :=
  match lines with
  | [] => []
  | line :: lines' =>
      let stripped_line := strip line in
      if contains_any start_indicators line
      then line :: scan_python_like true lines'
      else if in_code then
        if (stripped_line =? "") || startswith "    " line || startswith tab line
           || startswith "#" stripped_line
           || contains_any code_keywords stripped_line
        then line :: scan_python_like in_code lines'
        else if truthy stripped_line
                && negb (contains_any prose_marks stripped_line)
        then line :: scan_python_like in_code lines'
        else []
      else scan_python_like in_code lines'
  end.

Section Extractors.

Variable py_compile : string -> string -> CompileOutcome.

(** [json.loads]: the decoded string, or [None] when it raises. *)
Variable json_loads : string -> option string.

Definition _validate_python_code (code : string) : bool :=
  match py_compile "<string>" code with
  | Compiled => true
  | SyntaxError _ _ => false
  | OtherException _ => false
  end.

(** [code = m.group(1).strip()], then
    [if code and self._validate_python_code(code): return code]. *)
Definition accept_stripped (group1 : string) : option string :=
  let code := strip group1 in
  if truthy code && _validate_python_code code then Some code else None.

Definition try_patterns (ic : bool) (ps : list regex) (text : string)
  : option string :=
  first_some (fun p => match search ic p text with
                       | Some g => accept_stripped g
                       | None => None
                       end) ps.

Definition decode_json_content (json_content : string) : string :=
  match json_loads (dq ++ json_content ++ dq) with
  | Some decoded_content => decoded_content
  | None =>
      replace (bs ++ "r") cr
        (replace (bs ++ "t") tab
           (replace (bs ++ bs) bs
              (replace (bs ++ dq) dq
                 (replace (bs ++ "n") nl json_content))))
  end.

Definition from_action_input (agent_output : string) : option string :=
  first_some (fun p => match search false p agent_output with
                       | Some json_content =>
                           try_patterns false code_patterns
                             (decode_json_content json_content)
                       | None => None
                       end) json_patterns.

Definition from_heuristic (agent_output : string) : option string :=
  match scan_python_like false (split_lines agent_output) with
  | [] => None
  | code_lines =>
      let code := join_lines code_lines in
      if _validate_python_code code then Some code else None
  end.

Definition from_permissive (agent_output : string) : option string :=
  if contains "```python" (lower agent_output) then
    match search true permissive_pattern agent_output with
    | Some g =>
        let potential_code := strip g in
        if _validate_python_code potential_code then Some potential_code
        else None
    | None => None
    end
  else None.

Definition _extract_code_from_agent_output (agent_output : string)
  : option string :=
  match from_action_input agent_output with
  | Some code => Some code
  | None =>
  match try_patterns true patterns agent_output with
  | Some code => Some code
  | None =>
  match try_patterns true tool_output_patterns agent_output with
  | Some code => Some code
  | None =>
  match from_heuristic agent_output with
  | Some code => Some code
  | None => from_permissive agent_output
  end end end end.

End Extractors.

(** ** Data of the executor *)

Inductive Tool : Type := PyUpgradeTool | Python2To3Tool | ModernizeTool.

(** The [name] attribute of each tool class. *)
Definition tool_name (t : Tool) : string :=
  match t with
  | PyUpgradeTool => "pyupgrade"
  | Python2To3Tool => "python2to3"
  | ModernizeTool => "modernize"
  end.

(** [self.tools], in the order of [__init__]. *)
Definition tools : list Tool := [PyUpgradeTool; Python2To3Tool; ModernizeTool].

(** [self.tools[i]]. *)
Definition self_tools (i : nat) : Tool := nth i tools PyUpgradeTool.

(** What reading a file gives: its text, or the exception of [open] or
    [read] (a file that does not decode as UTF-8, for instance). *)
Inductive FileData : Type :=
| Text (code : string)
| Unreadable (why : string).

(** The working directory: the [*.py] files in the order of [rglob],
    each path relative to the directory. *)
Definition Tree : Type := list (string * FileData).

Definition rglob (t : Tree) : list string := map fst t.

Fixpoint read (t : Tree) (py_file : string) : FileData :=
  match t with
  | [] => Unreadable "No such file or directory"
  | (p, d) :: t' => if p =? py_file then d else read t' py_file
  end.

(** [open(py_file, 'w')] then [f.write(code)]: the whole content is
    replaced. *)
Definition write (py_file code : string) (t : Tree) : Tree :=
  map (fun e => if fst e =? py_file then (fst e, Text code) else e) t.

(** [py_file.name]: the last component of the path. *)
Fixpoint base_name (py_file : string) : string :=
  match py_file with
  | EmptyString => EmptyString
  | String c s' =>
      if contains "/" py_file
      then base_name s'
      else py_file
  end.

(** The effects of a fixing pass. *)
Inductive Event : Type :=
| ToolRun (t : Tool) (code : string)          (* [tool.run(code)] *)
| FileWrite (py_file : string) (code : string).

Record World : Type := MkWorld { fs : Tree; log : list Event }.

(** One entry of the [errors] list of [_attempt_compilation]. *)
Inductive ErrorInfo : Type :=
| syntax_error (file : string) (line : option nat) (error : string)
| compilation_error (file : string) (error : string).

Definition error_file (e : ErrorInfo) : string :=
  match e with syntax_error f _ _ => f | compilation_error f _ => f end.

Definition error_text (e : ErrorInfo) : string :=
  match e with syntax_error _ _ m => m | compilation_error _ m => m end.

Record CompilationResult : Type := MkCompilation
  { status : string; errors : list ErrorInfo }.

(** An entry of [tools_used]: the dictionaries of the agent path have the
    keys tool, file and status, those of the manual path the keys tool
    and files_modified. *)
Inductive ToolUse : Type :=
| file_entry (tool file status : string)
| tool_entry (tool : string) (files_modified : nat).

(** A step of the agent as [invoke] reports it: the [tool] attribute of
    the action when it has one, [str(action)] and [str(observation)]. *)
Record AgentAction : Type := MkAction
  { action_tool : option string; action_str : string; observation_str : string }.

(** An entry of [agent_steps]. *)
Record AgentStep : Type := MkStep
  { step_tool : string; step_file : string; step_action : string;
    step_observation : string }.

(** The dictionary returned by [agent_executor.invoke]: the keys
    [output] and [intermediate_steps] may be absent. *)
Record AgentResult : Type := MkAgentResult
  { output : option string; intermediate_steps : option (list AgentAction) }.

Inductive AgentReply : Type :=
| Returned (result : AgentResult)
| Raised (msg : string).

(** The record of one round; the two time stamps and the [error] key are
    left out. *)
Record IterationResult : Type := MkIteration
  { iteration : nat;
    compilation_status : string;
    compilation_attempts : nat;
    errors_found : list ErrorInfo;
    fixes_applied : nat;
    agent_steps : list AgentStep;
    tools_used : list ToolUse }.

(** One more compilation attempt, with its status. *)
Definition attempted (s : string) (r : IterationResult) : IterationResult :=
  MkIteration (iteration r) s (S (compilation_attempts r)) (errors_found r)
    (fixes_applied r) (agent_steps r) (tools_used r).

Definition with_errors (es : list ErrorInfo) (r : IterationResult) : IterationResult :=
  MkIteration (iteration r) (compilation_status r) (compilation_attempts r) es
    (fixes_applied r) (agent_steps r) (tools_used r).

Definition with_fixes (n : nat) (r : IterationResult) : IterationResult :=
  MkIteration (iteration r) (compilation_status r) (compilation_attempts r)
    (errors_found r) n (agent_steps r) (tools_used r).

Definition add_steps (ss : list AgentStep) (r : IterationResult) : IterationResult :=
  MkIteration (iteration r) (compilation_status r) (compilation_attempts r)
    (errors_found r) (fixes_applied r) (agent_steps r ++ ss)%list (tools_used r).

Definition add_tool_use (u : ToolUse) (r : IterationResult) : IterationResult :=
  MkIteration (iteration r) (compilation_status r) (compilation_attempts r)
    (errors_found r) (fixes_applied r) (agent_steps r) (tools_used r ++ [u])%list.

(** The dictionary returned by [execute_migration], without the paths and
    the time stamps. *)
Record Results : Type := MkResults
  { iterations : list IterationResult;
    final_status : string;
    results_successful_fixes : list ToolUse;
    unresolved_issues : list ErrorInfo;
    total_compilation_attempts : nat;
    agent_available : bool }.

(** The substrings that make [_apply_fallback_tools] try [Python2To3Tool]. *)
Definition python2_markers : list string :=
  ["print "; "raw_input"; "urllib2"; "ConfigParser"; "cPickle"; "except "; ", e:"].

(** [s.endswith(suffix)]. *)
Definition endswith (suffix s : string) : bool :=
  (String.length suffix <=? String.length s)%nat
  && (drop (String.length s - String.length suffix) s =? suffix).

Definition str_nat (n : nat) : string := NilZero.string_of_uint (Nat.to_uint n).

(** [str] of a line number, which may be [None]. *)
Definition str_line (line : option nat) : string :=
  match line with Some n => str_nat n | None => "None" end.

(** The numbered list of errors in the prompt of a file. *)
Fixpoint numbered_errors (i : nat) (file_errors : list ErrorInfo) : string :=
  match file_errors with
  | [] => EmptyString
  | e :: es =>
      str_nat i ++ ". " ++ error_text e ++ nl
      ++ match e with
         | syntax_error _ line _ => "   Line: " ++ str_line line ++ nl
         | compilation_error _ _ => EmptyString
         end
      ++ numbered_errors (S i) es
  end.

(** [PromptLibrary.get_migration_executor_agent_prompt_for_file]. *)
Definition _create_agent_prompt_for_file
  (py_file code : string) (errors : list ErrorInfo) (iteration : nat) : string :=
  let file_errors :=
    filter (fun e => endswith (base_name py_file) (error_file e)) errors in
  "You are a Python migration expert. Fix the Python code in file '"
  ++ base_name py_file ++ "' to resolve compilation errors." ++ nl ++ nl
  ++ "CURRENT CODE:" ++ nl ++ "```python" ++ nl ++ code ++ nl ++ "```" ++ nl ++ nl
  ++ "SPECIFIC ERRORS FOR THIS FILE:" ++ nl
  ++ match file_errors with
     | [] => "No specific errors found for this file, but it may need general migration fixes." ++ nl
     | _ => numbered_errors 1 file_errors
     end
  ++ nl ++ "AVAILABLE TOOLS:" ++ nl
  ++ "- pyupgrade: Modernize Python code syntax (f-strings, type hints, etc.)" ++ nl
  ++ "- python2to3: Convert Python 2 code to Python 3 syntax" ++ nl
  ++ "- modernize: Add compatibility imports and patterns" ++ nl ++ nl
  ++ "INSTRUCTIONS:" ++ nl
  ++ "1. Analyze the code and errors carefully" ++ nl
  ++ "2. Use the appropriate tools to fix the issues" ++ nl
  ++ "3. Focus on making the code compile successfully" ++ nl
  ++ "4. Return the final fixed code" ++ nl ++ nl
  ++ "Fix the code using the available tools and provide the corrected version." ++ nl.

(** The two effects on the world. *)
Definition write_file (py_file code : string) (w : World) : World :=
  MkWorld (write py_file code (fs w)) (log w ++ [FileWrite py_file code])%list.

Definition logged (e : Event) (w : World) : World :=
  MkWorld (fs w) (log w ++ [e])%list.

(** ** The executor *)

Section Executor.

(** [compile(code, filename, 'exec')], given the file name first. *)
Variable py_compile : string -> string -> CompileOutcome.

Variable json_loads : string -> option string.

(** [tool.run(code)] of the three tools: a string in every case. *)
Variable tool_run : Tool -> string -> string.

(** [str(error)] of an entry of the error list. *)
Variable str_error : ErrorInfo -> string.

(** The agent: [invoke] takes the prompt, changes the agent (its
    conversation memory) and returns a dictionary or raises. *)
Variable AgentSt : Type.
Variable agent_invoke : AgentSt -> string -> AgentSt * AgentReply.

(** [initialize_agent] on the model of the manager: [None] when the
    construction raises. *)
Variable LLMManager : Type.
Variable initialize_agent : LLMManager -> option AgentSt.

Local Abbreviation _validate_python_code := (_validate_python_code py_compile).
Local Abbreviation _extract_code_from_agent_output :=
  (_extract_code_from_agent_output py_compile json_loads).

Record Self : Type := MkSelf
  { max_iterations : nat;
    llm_manager : option LLMManager;
    agent_executor : option AgentSt;
    migration_issues : list ErrorInfo;
    successful_fixes : list ToolUse }.

Definition _initialize_agent (self : Self) : Self :=
  match agent_executor self with
  | Some _ => self
  | None =>
      match llm_manager self with
      | None => self
      | Some manager =>
          MkSelf (max_iterations self) (llm_manager self) (initialize_agent manager)
            (migration_issues self) (successful_fixes self)
      end
  end.

(** The check of one file in [_attempt_compilation]. *)
Definition check_file (entry : string * FileData) : list ErrorInfo :=
  match snd entry with
  | Unreadable why => [compilation_error (fst entry) why]
  | Text code =>
      match py_compile (fst entry) code with
      | Compiled => []
      | SyntaxError lineno msg => [syntax_error (fst entry) lineno msg]
      | OtherException msg => [compilation_error (fst entry) msg]
      end
  end.

Definition _attempt_compilation (working_dir : Tree) : CompilationResult :=
  match working_dir with
  | [] => MkCompilation "no_python_files" []
  | _ =>
      match flat_map check_file working_dir with
      | [] => MkCompilation "success" []
      | errors => MkCompilation "failed" errors
      end
  end.

Definition run_tool (t : Tool) (code : string) (w : World) : string * World :=
  (tool_run t code, logged (ToolRun t code) w).

(** The acceptance test of the chain:
    [if modified_code and modified_code != current_code:]
    [if self._validate_python_code(modified_code):]. *)
Definition chain_accepts (current_code : string) (modified_code : option string)
  : option string :=
  match modified_code with
  | Some m =>
      if truthy m && negb (m =? current_code) then
        if _validate_python_code m then Some m else None
      else None
  | None => None
  end.

(** One tool of [_apply_fallback_tools], on the pair
    [(current_code, code_modified)]. *)
Definition apply_tool (t : Tool) (st : string * bool) (w : World)
  : (string * bool) * World :=
  let '(result, w1) := run_tool t (fst st) w in
  match chain_accepts (fst st) (_extract_code_from_result result) with
  | Some modified_code => ((modified_code, true), w1)
  | None => (st, w1)
  end.

Definition _apply_fallback_tools (py_file original_code : string) (w : World)
  : bool * World :=
  let st0 := (original_code, false) in
  let '(st1, w1) :=
    if contains_any python2_markers original_code
    then apply_tool (self_tools 1) st0 w
    else (st0, w) in
  let '(st2, w2) := apply_tool (self_tools 0) st1 w1 in
  let '(st3, w3) := apply_tool (self_tools 2) st2 w2 in
  if snd st3 then (true, write_file py_file (fst st3) w3) else (false, w3).

(** The state of the loop over the files in
    [_execute_with_langchain_agent]. *)
Record AgentPass : Type := MkPass
  { pass_fixes : nat;
    pass_result : IterationResult;
    pass_agent : AgentSt;
    pass_world : World }.

(** [if self._apply_fallback_tools(py_file, original_code):] with its
    body, [label] being the tool name of the entry. *)
Definition fallback_for (label py_file original_code : string) (st : AgentPass)
  : AgentPass :=
  let '(fixed, w) := _apply_fallback_tools py_file original_code (pass_world st) in
  if fixed
  then MkPass (S (pass_fixes st))
         (add_tool_use (file_entry label (base_name py_file) "success") (pass_result st))
         (pass_agent st) w
  else MkPass (pass_fixes st) (pass_result st) (pass_agent st) w.

(** The entries of [agent_steps] for the steps of one reply. *)
Definition steps_of (py_file : string) (steps : option (list AgentAction))
  : list AgentStep :=
  match steps with
  | None => []
  | Some l =>
      map (fun a => MkStep (match action_tool a with Some t => t | None => "unknown" end)
                      (base_name py_file) (action_str a)
                      (take 200 (observation_str a))) l
  end.

(** The body of the loop over the files. *)
Definition agent_file (errors : list ErrorInfo) (iteration : nat)
  (st : AgentPass) (py_file : string) : AgentPass :=
  match read (fs (pass_world st)) py_file with
  | Unreadable _ => st
  | Text original_code =>
      let agent_prompt :=
        _create_agent_prompt_for_file py_file original_code errors iteration in
      let '(agent, reply) := agent_invoke (pass_agent st) agent_prompt in
      let st := MkPass (pass_fixes st) (pass_result st) agent (pass_world st) in
      match reply with
      | Raised _ => fallback_for "fallback_tools" py_file original_code st
      | Returned result =>
          match output result with
          | None => fallback_for "fallback_no_output" py_file original_code st
          | Some agent_output =>
              match _extract_code_from_agent_output agent_output with
              | Some modified_code =>
                  if truthy modified_code && negb (modified_code =? original_code)
                  then
                    if _validate_python_code modified_code
                    then MkPass (S (pass_fixes st))
                           (add_steps (steps_of py_file (intermediate_steps result))
                              (pass_result st))
                           agent
                           (write_file py_file modified_code (pass_world st))
                    else st
                  else if truthy modified_code then st
                  else fallback_for "fallback_after_agent" py_file original_code st
              | None => fallback_for "fallback_after_agent" py_file original_code st
              end
          end
      end
  end.

Definition _execute_with_langchain_agent (errors : list ErrorInfo) (iteration : nat)
  (iteration_result : IterationResult) (agent : AgentSt) (w : World) : AgentPass :=
  let python_files := rglob (fs w) in
  fold_left (agent_file errors iteration) python_files
    (MkPass 0 iteration_result agent w).

(** The rule-based choice of tools in [_execute_manual_fallback]. *)
Definition tool_sequence (errors : list ErrorInfo) : list Tool :=
  ((if existsb (fun error => contains "print" (str_error error)
                             || contains "raw_input" (str_error error)) errors
    then [self_tools 1] else [])
   ++ [self_tools 0]
   ++ (if existsb (fun error => contains "import" (str_error error)) errors
       then [self_tools 2] else []))%list.

(** The body of the loop over the files for one tool, on the pair
    [(files_modified, world)]. *)
Definition manual_file (tool : Tool) (st : nat * World) (py_file : string)
  : nat * World :=
  match read (fs (snd st)) py_file with
  | Unreadable _ => st
  | Text original_code =>
      let '(result, w) := run_tool tool original_code (snd st) in
      match _extract_code_from_result result with
      | Some modified_code =>
          if truthy modified_code && negb (modified_code =? original_code)
          then (S (fst st), write_file py_file modified_code w)
          else (fst st, w)
      | None => (fst st, w)
      end
  end.

(** The body of the loop over the tools, on
    [(fixes_applied, iteration_result, world)]. *)
Definition manual_tool (st : nat * IterationResult * World) (tool : Tool)
  : nat * IterationResult * World :=
  let '(fixes_applied, iteration_result, w) := st in
  let python_files := rglob (fs w) in
  let '(files_modified, w') := fold_left (manual_file tool) python_files (0, w) in
  if (0 <? files_modified)%nat
  then (fixes_applied + files_modified,
        add_tool_use (tool_entry (tool_name tool) files_modified) iteration_result,
        w')
  else (fixes_applied, iteration_result, w').

Definition _execute_manual_fallback (errors : list ErrorInfo)
  (iteration_result : IterationResult) (w : World) : nat * IterationResult * World :=
  fold_left manual_tool (tool_sequence errors) (0, iteration_result, w).

Definition with_agent (agent : AgentSt) (self : Self) : Self :=
  MkSelf (max_iterations self) (llm_manager self) (Some agent)
    (migration_issues self) (successful_fixes self).

(** [self.successful_fixes.extend(iteration_result["tools_used"])]. *)
Definition extend_fixes (r : IterationResult) (self : Self) : Self :=
  MkSelf (max_iterations self) (llm_manager self) (agent_executor self)
    (migration_issues self) (successful_fixes self ++ tools_used r)%list.

(** The fixing step of a round: the agent when there is one, the manual
    orchestration otherwise. *)
Definition apply_fixes (errors : list ErrorInfo) (iteration : nat)
  (iteration_result : IterationResult) (self : Self) (w : World)
  : nat * IterationResult * Self * World :=
  match agent_executor self with
  | Some agent =>
      let p := _execute_with_langchain_agent errors iteration iteration_result agent w in
      (pass_fixes p, pass_result p, with_agent (pass_agent p) self, pass_world p)
  | None =>
      let '(fixes_applied, iteration_result, w') :=
        _execute_manual_fallback errors iteration_result w in
      (fixes_applied, iteration_result, self, w')
  end.

Definition _execute_iteration_with_agent (iteration : nat) (self : Self) (w : World)
  : IterationResult * Self * World :=
  let iteration_result := MkIteration iteration "unknown" 0 [] 0 [] [] in
  let compilation_result := _attempt_compilation (fs w) in
  let iteration_result := attempted (status compilation_result) iteration_result in
  if status compilation_result =? "success" then (iteration_result, self, w)
  else
    let iteration_result := with_errors (errors compilation_result) iteration_result in
    match errors compilation_result with
    | [] => (iteration_result, self, w)
    | _ =>
        let '(fixes_applied, iteration_result, self, w) :=
          apply_fixes (errors compilation_result) iteration iteration_result self w in
        let iteration_result := with_fixes fixes_applied iteration_result in
        if (0 <? fixes_applied)%nat then
          let final_compilation := _attempt_compilation (fs w) in
          let iteration_result := attempted (status final_compilation) iteration_result in
          if status final_compilation =? "success"
          then (iteration_result, extend_fixes iteration_result self, w)
          else if (List.length (errors final_compilation)
                   <? List.length (errors compilation_result))%nat
          then (iteration_result, extend_fixes iteration_result self, w)
          else (iteration_result, self, w)
        else (iteration_result, self, w)
    end.

Definition record_iteration (r : IterationResult) (results : Results) : Results :=
  MkResults (iterations results ++ [r])%list (final_status results)
    (results_successful_fixes results) (unresolved_issues results)
    (total_compilation_attempts results + compilation_attempts r)
    (agent_available results).

Definition with_final_status (s : string) (results : Results) : Results :=
  MkResults (iterations results) s (results_successful_fixes results)
    (unresolved_issues results) (total_compilation_attempts results)
    (agent_available results).

(** The [for iteration in range(1, self.max_iterations + 1)] loop with
    its two [break]s and its [else]. *)
Fixpoint iterate (rounds : list nat) (results : Results) (self : Self) (w : World)
  : Results * Self * World :=
  match rounds with
  | [] => (with_final_status "max_iterations_reached" results, self, w)
  | iteration :: rounds' =>
      let '(iteration_result, self, w) :=
        _execute_iteration_with_agent iteration self w in
      let results := record_iteration iteration_result results in
      if compilation_status iteration_result =? "success"
      then (with_final_status "success" results, self, w)
      else if (fixes_applied iteration_result =? 0)%nat
      then (results, self, w)
      else iterate rounds' results self w
  end.

(** What [_finalize_migrated_files] leaves: the copy of the working
    directory and the first line of the status file. *)
Definition _finalize_migrated_files (working_dir : Tree) (status : string)
  : Tree * string :=
  (working_dir, "Migration Status: " ++ status).

(** What a call of [execute_migration] leaves behind. *)
Record Outcome : Type := MkOutcome
  { results : Results;
    executor : Self;
    working_dir : Tree;
    final_migrated_code : Tree;
    migration_status : string;
    trace : list Event }.

Definition execute_migration (self : Self) (source_dir : Tree) : Outcome :=
  let self := _initialize_agent self in
  let w := MkWorld source_dir [] in
  let results :=
    MkResults [] "unknown" [] [] 0
      (match agent_executor self with Some _ => true | None => false end) in
  let '(results, self, w) := iterate (seq 1 (max_iterations self)) results self w in
  let results :=
    MkResults (iterations results) (final_status results) (successful_fixes self)
      (migration_issues self) (total_compilation_attempts results)
      (agent_available results) in
  let '(final_dir, status_line) :=
    _finalize_migrated_files (fs w) (final_status results) in
  MkOutcome results self (fs w) final_dir status_line (log w).

End Executor.

Arguments MkSelf {AgentSt LLMManager}.
Arguments max_iterations {AgentSt LLMManager}.
Arguments llm_manager {AgentSt LLMManager}.
Arguments agent_executor {AgentSt LLMManager}.
Arguments migration_issues {AgentSt LLMManager}.
Arguments successful_fixes {AgentSt LLMManager}.
Arguments MkPass {AgentSt}.
Arguments pass_fixes {AgentSt}.
Arguments pass_result {AgentSt}.
Arguments pass_agent {AgentSt}.
Arguments pass_world {AgentSt}.
Arguments MkOutcome {AgentSt LLMManager}.
Arguments results {AgentSt LLMManager}.
Arguments executor {AgentSt LLMManager}.
Arguments working_dir {AgentSt LLMManager}.
Arguments final_migrated_code {AgentSt LLMManager}.
Arguments migration_status {AgentSt LLMManager}.
Arguments trace {AgentSt LLMManager}.
Arguments execute_migration py_compile json_loads tool_run str_error {AgentSt}
  agent_invoke {LLMManager} initialize_agent self source_dir.
Arguments _initialize_agent {AgentSt LLMManager}.
Arguments fallback_for py_compile tool_run {AgentSt}.
Arguments agent_file py_compile json_loads tool_run {AgentSt}.
Arguments _execute_with_langchain_agent py_compile json_loads tool_run {AgentSt}.
Arguments with_agent {AgentSt LLMManager}.
Arguments extend_fixes {AgentSt LLMManager}.
Arguments apply_fixes py_compile json_loads tool_run str_error {AgentSt}
  agent_invoke {LLMManager}.
Arguments _execute_iteration_with_agent py_compile json_loads tool_run str_error
  {AgentSt} agent_invoke {LLMManager}.
Arguments iterate py_compile json_loads tool_run str_error {AgentSt} agent_invoke
  {LLMManager}.


(** ** The three tools

    The [_run] method of each tool class.  The processes, the temporary
    files, the parser and [lib2to3] are variables whose results may be an
    exception; the passes that rewrite text with regular expressions are
    variables too.  An exception is a value of a class derived from
    [Exception], with its text [str(e)].  In the messages the pictograph
    that opens a line of the source is left out. *)

Module Tools.

Inductive ExnKind : Type :=
| TimeoutExpired | FileNotFoundError | ImportError | SyntaxErrorRaised | OtherError.

Record Exn : Type := MkExn { kind : ExnKind; str_e : string }.

Inductive Result (A : Type) : Type :=
| Return (a : A)
| Raise (e : Exn).

Arguments Return {A} a.
Arguments Raise {A} e.

Definition bind {A B : Type} (x : Result A) (f : A -> Result B) : Result B :=
  match x with
  | Return a => f a
  | Raise e => Raise e
  end.

Notation "x <- c ;; k" := (bind c (fun x => k))
  (at level 61, c at next level, right associativity).

(** [try: body except Exception as e: handler(e)]. *)
Definition try_except {A : Type} (body : Result A) (handler : Exn -> Result A)
  : Result A :=
  match body with
  | Return a => Return a
  | Raise e => handler e
  end.

(** [try: body except K as e: handler(e)] for the classes [ks]. *)
Definition is_kind (ks : list ExnKind) (e : Exn) : bool :=
  existsb (fun k => match k, kind e with
                    | TimeoutExpired, TimeoutExpired => true
                    | FileNotFoundError, FileNotFoundError => true
                    | ImportError, ImportError => true
                    | SyntaxErrorRaised, SyntaxErrorRaised => true
                    | OtherError, OtherError => true
                    | _, _ => false
                    end) ks.

Definition try_only {A : Type} (ks : list ExnKind) (body : Result A)
  (handler : Exn -> Result A) : Result A :=
  match body with
  | Return a => Return a
  | Raise e => if is_kind ks e then handler e else Raise e
  end.

(** [try: body finally: cleanup]: an exception of the cleanup replaces
    the outcome of the body. *)
Definition try_finally {A : Type} (body : Result A) (cleanup : Result unit)
  : Result A :=
  match cleanup with
  | Return _ => body
  | Raise e => Raise e
  end.

(** What [subprocess.run(..., capture_output=True)] returns. *)
Record Completed : Type := MkCompleted
  { returncode : Z; stdout : string; stderr : string }.

(** [sep.join(l)]. *)
Fixpoint join_with (sep : string) (l : list string) : string :=
  match l with
  | [] => EmptyString
  | [x] => x
  | x :: l' => x ++ sep ++ join_with sep l'
  end.

(** [s or default]. *)
Definition or_default (s default : string) : string :=
  if truthy s then s else default.

Definition invalid_input : string :=
  "Error: Invalid input. Please provide Python code as a string.".

Definition empty_code : string := "Error: Empty code provided.".

Section Backends.

(** [shutil.which(cmd) is not None]. *)
Variable which : string -> bool.

(** [subprocess.run(cmd, capture_output=True, timeout=...)]. *)
Variable subprocess_run : list string -> Result Completed.

(** No command can be started: the binary is not there. *)
Definition no_binary : Prop :=
  forall cmd, exists e, subprocess_run cmd = Raise e /\ kind e = FileNotFoundError.

(** The command [cmd] runs into its timeout. *)
Definition times_out (cmd : list string) : Prop :=
  exists e, subprocess_run cmd = Raise e /\ kind e = TimeoutExpired.

(** Writing the code to a new temporary file: its path. *)
Variable write_temp : string -> Result string.

(** Reading a file back. *)
Variable read_temp : string -> Result string.

(** [if os.path.exists(p): os.unlink(p)]. *)
Variable remove_temp : string -> Result unit.

(** [ast.parse(code)]. *)
Variable ast_parse : string -> Result unit.

(** *** PyUpgradeTool *)

(** The two substitutions of [_pattern_based_fallback]: the text after
    both and the entries appended to [changes_made]. *)
Variable modernize_patterns : string -> string * list string.

Variable target_version : string.

Definition _check_pyupgrade_available : Result bool :=
  if which "pyupgrade" then Return true
  else
    try_only [TimeoutExpired; FileNotFoundError]
      (result <- subprocess_run ["python"; "-m"; "pyupgrade"; "--help"] ;;
       Return (returncode result =? 0)%Z)
      (fun _ => Return false).

Definition version_mapping : list (string * list string) :=
  [("3.6", ["--py36-plus"]); ("3.7", ["--py37-plus"]); ("3.8", ["--py38-plus"]);
   ("3.9", ["--py39-plus"]); ("3.10", ["--py310-plus"]); ("3.11", ["--py311-plus"]);
   ("3.12", ["--py312-plus"])].

Fixpoint lookup (k : string) (m : list (string * list string)) : option (list string) :=
  match m with
  | [] => None
  | (k', v) :: m' => if k' =? k then Some v else lookup k m'
  end.

Definition _get_pyupgrade_args : list string :=
  ((if which "pyupgrade" then ["pyupgrade"] else ["python"; "-m"; "pyupgrade"])
   ++ match lookup target_version version_mapping with
      | Some flags => flags
      | None => ["--py311-plus"]
      end)%list.

(** The triple [(updated_code, was_changed, error_message)]. *)
Definition _run_pyupgrade_on_code (code : string) : Result (string * bool * string) :=
  try_except
    (try_only [TimeoutExpired]
       (temp_file_path <- write_temp code ;;
        try_finally
          (let cmd := (_get_pyupgrade_args ++ [temp_file_path])%list in
           result <- subprocess_run cmd ;;
           updated_code <- read_temp temp_file_path ;;
           let was_changed := negb (updated_code =? code) in
           if (returncode result =? 0)%Z then Return (updated_code, was_changed, "")
           else if (returncode result =? 1)%Z then Return (updated_code, true, "")
           else
             let error_msg := or_default (stderr result) "Unknown pyupgrade error" in
             Return (code, false, "pyupgrade error: " ++ error_msg))
          (remove_temp temp_file_path))
       (fun _ => Return (code, false, "pyupgrade command timed out")))
    (fun e => Return (code, false, "Error running pyupgrade: " ++ str_e e)).

Definition fence (code : string) : list string := ["```python"; code; "```"].

Definition _pattern_based_fallback (code : string) : string :=
  let '(updated_code, changes_made) := modernize_patterns code in
  match changes_made with
  | _ :: _ =>
      "Fallback Modernization Applied" ++ nl ++ nl ++ "Changes made:" ++ nl
      ++ join_with nl (map (fun change => "- " ++ change) changes_made)
      ++ nl ++ nl ++ "Updated Code:" ++ nl ++ join_lines (fence updated_code)
  | [] =>
      "Fallback Analysis Complete - No changes needed" ++ nl ++ nl
      ++ "The code appears to be using modern Python patterns." ++ nl ++ nl
      ++ "Original code:" ++ nl ++ join_lines (fence code)
  end.

Definition pyupgrade_run_body (code : string) : Result string :=
  if negb (truthy code) then Return invalid_input
  else
    let code := strip code in
    if negb (truthy code) then Return empty_code
    else
      match ast_parse code with
      | Raise e =>
          if is_kind [SyntaxErrorRaised] e
          then Return ("Error: Invalid Python syntax: " ++ str_e e)
          else Raise e
      | Return _ =>
          available <- _check_pyupgrade_available ;;
          if negb available then Return (_pattern_based_fallback code)
          else
            r <- _run_pyupgrade_on_code code ;;
            let '(updated_code, was_changed, error_msg) := r in
            if truthy error_msg then Return ("Error: " ++ error_msg)
            else if was_changed then
              Return (join_lines
                        (["PyUpgrade Modernization Complete"; "";
                          ("Target Version: Python " ++ target_version)%string; "";
                          "Modernized Code:"] ++ fence updated_code
                         ++ [""; "Code has been successfully modernized using pyupgrade tool."])%list)
            else
              Return (join_lines
                        (["PyUpgrade Analysis Complete - No changes needed"; "";
                          ("Target Version: Python " ++ target_version)%string; "";
                          ("The code is already using modern Python " ++ target_version
                           ++ " syntax patterns.")%string; "";
                          "Original code:"] ++ fence code)%list)
      end.

(** [PyUpgradeTool._run]. *)
Definition pyupgrade_run (code : string) : Result string :=
  try_except (pyupgrade_run_body code)
    (fun e => Return ("Error during code modernization: " ++ str_e e)).

(** *** Python2To3Tool *)

(** [_detect_python2_patterns]: the names of the patterns found. *)
Variable detect_python2 : string -> list string.

(** The imports of [lib2to3] and the construction of its
    [RefactoringTool]. *)
Variable lib2to3_tool : Result unit.

(** [rt.refactor_string(code, '<string>')], [None] included. *)
Variable refactor_string : string -> Result (option string).

(** [_pattern_based_migration]: regular-expression substitutions, with
    the list of the changes made. *)
Variable _pattern_based_migration : string -> string * list string.

Definition _use_lib2to3 (code : string) : Result (string * bool * string) :=
  try_except
    (try_only [ImportError]
       (_ <- lib2to3_tool ;;
        try_except
          (new_code <- refactor_string code ;;
           match new_code with
           | None => Return (code, false, "")
           | Some migrated => Return (migrated, negb (migrated =? code), "")
           end)
          (fun e => Return (code, false, "lib2to3 refactoring failed: " ++ str_e e)))
       (fun _ => Return (code, false, "lib2to3 not available")))
    (fun e => Return (code, false, "lib2to3 error: " ++ str_e e)).

Definition after_migration : list string :=
  ["IMPORTANT: After migration, please:";
   "1. Test your code thoroughly";
   "2. Check for any remaining compatibility issues";
   "3. Update your shebang line to use python3";
   "4. Update your requirements.txt for Python 3 compatible packages"].

(** [f"{i+1}. {change}" for i, change in enumerate(changes_made)]. *)
Fixpoint numbered (i : nat) (changes_made : list string) : list string :=
  match changes_made with
  | [] => []
  | change :: l => (str_nat (S i) ++ ". " ++ change) :: numbered (S i) l
  end.

(** The reply built from [_pattern_based_migration]. *)
Definition python2to3_pattern_reply (python2_patterns : list string) (code : string)
  : string :=
  let '(migrated_code, changes_made) := _pattern_based_migration code in
  match changes_made with
  | _ :: _ =>
      join_lines
        (["Python 2 to 3 Migration Complete"; "";
          ("Issues Fixed: " ++ str_nat (List.length changes_made))%string;
          ("Python 2 Indicators Found: " ++ join_with ", " python2_patterns)%string; "";
          "Migrated Code:"] ++ fence migrated_code
         ++ [""; "Migration Changes Applied:"; "";
             join_lines (numbered 0 changes_made); ""]
         ++ after_migration)%list
  | [] =>
      join_lines
        (["Python 2 to 3 Migration Analysis Complete"; "";
          ("No automatic fixes could be applied, but Python 2 patterns were detected: "
           ++ join_with ", " python2_patterns)%string; "";
          "Original code:"] ++ fence code
         ++ [""; "Manual review may be needed for complete migration."])%list
  end.

Definition python2to3_run_body (code : string) : Result string :=
  if negb (truthy code) then Return invalid_input
  else
    let code := strip code in
    if negb (truthy code) then Return empty_code
    else
      let python2_patterns := detect_python2 code in
      match python2_patterns with
      | [] =>
          Return (join_lines
                    (["Python 2 to 3 Migration Analysis"; "";
                      "The provided code appears to already be Python 3 compatible.";
                      "No Python 2 specific patterns detected."; "";
                      "Original code:"] ++ fence code
                     ++ [""; "No migration needed - code is already Python 3 compatible!"])%list)
      | _ :: _ =>
          r <- _use_lib2to3 code ;;
          let '(migrated_code, was_changed, error_msg) := r in
          if negb was_changed || truthy error_msg
          then Return (python2to3_pattern_reply python2_patterns code)
          else
            Return (join_lines
                      (["Python 2 to 3 Migration Complete (using lib2to3)"; "";
                        ("Python 2 Indicators Found: "
                         ++ join_with ", " python2_patterns)%string; "";
                        "Migrated Code:"] ++ fence migrated_code
                       ++ [""; "Code has been successfully migrated using the lib2to3 refactoring tool.";
                           ""] ++ after_migration)%list)
      end.

(** [Python2To3Tool._run]. *)
Definition python2to3_run (code : string) : Result string :=
  try_except (python2to3_run_body code)
    (fun e => Return ("Error during migration: " ++ str_e e)).

(** *** ModernizeTool *)

(** [_detect_compatibility_issues]: the names of the issues found. *)
Variable _detect_compatibility_issues : string -> list string.

(** [_pattern_based_modernization]: the text with the [__future__]
    import and the rewritten print statements, and the changes made. *)
Variable _pattern_based_modernization : string -> string * list string.

Definition help_succeeds (cmd : list string) : Result bool :=
  try_only [TimeoutExpired; FileNotFoundError]
    (result <- subprocess_run cmd ;; Return (returncode result =? 0)%Z)
    (fun _ => Return false).

Definition _check_modernize_available : Result bool :=
  direct <- help_succeeds ["python-modernize"; "--help"] ;;
  if direct then Return true
  else help_succeeds ["python"; "-m"; "libmodernize"; "--help"].

Definition _run_modernize_on_code (code : string) : Result (string * bool * string) :=
  try_except
    (try_only [TimeoutExpired]
       (temp_file_path <- write_temp code ;;
        try_finally
          (let cmd :=
             if which "python-modernize"
             then ["python-modernize"; "--print"; "--no-diffs"; temp_file_path]
             else ["python"; "-m"; "libmodernize"; "--print"; "--no-diffs"; temp_file_path] in
           result <- subprocess_run cmd ;;
           if (returncode result =? 0)%Z then
             let updated_code := stdout result in
             if truthy (strip updated_code)
             then Return (updated_code, negb (updated_code =? code), "")
             else
               updated_code <- read_temp temp_file_path ;;
               Return (updated_code, negb (updated_code =? code), "")
           else
             let error_msg := or_default (stderr result) "Unknown modernize error" in
             Return (code, false, "modernize error: " ++ error_msg))
          (remove_temp temp_file_path))
       (fun _ => Return (code, false, "modernize command timed out")))
    (fun e => Return (code, false, "Error running modernize: " ++ str_e e)).

Definition dashed (changes_made : list string) : string :=
  join_with nl (map (fun change => "- " ++ change) changes_made).

(** The reply built from [_pattern_based_modernization] after an error of
    the command. *)
Definition modernize_after_error_reply (compatibility_issues : list string)
  (code : string) : string :=
  let '(updated_code, changes_made) := _pattern_based_modernization code in
  match changes_made with
  | _ :: _ =>
      join_lines
        (["Python 2/3 Compatibility Applied (Pattern-based)"; "";
          ("Compatibility Issues Detected: "
           ++ join_with ", " compatibility_issues)%string; "";
          "Modernized Code:"] ++ fence updated_code
         ++ [""; "Changes Applied:"; dashed changes_made; "";
             "Code is now compatible with both Python 2.7+ and Python 3.x"])%list
  | [] =>
      join_lines
        (["Python 2/3 Compatibility Analysis Complete"; "";
          "No automatic fixes could be applied."; "";
          "Original code:"] ++ fence code
         ++ [""; "Code appears to already be compatible with both Python versions."])%list
  end.

(** The reply built from [_pattern_based_modernization] when the command
    is not available. *)
Definition modernize_fallback_reply (compatibility_issues : list string)
  (code : string) : string :=
  let '(updated_code, changes_made) := _pattern_based_modernization code in
  match changes_made with
  | _ :: _ =>
      join_lines
        (["Python 2/3 Compatibility Applied (Pattern-based Fallback)"; "";
          ("Compatibility Issues Detected: "
           ++ join_with ", " compatibility_issues)%string; "";
          "Modernized Code:"] ++ fence updated_code
         ++ [""; "Changes Applied:"; dashed changes_made; "";
             "Code should now be more compatible with both Python 2.7+ and Python 3.x";
             "For best results, install python-modernize: pip install modernize"])%list
  | [] =>
      join_lines
        (["Python 2/3 Compatibility Analysis Complete"; "";
          "Original code:"] ++ fence code
         ++ [""; "Code appears to already be compatible or no automatic fixes available.";
             "For comprehensive modernization, install python-modernize: pip install modernize"])%list
  end.

Definition modernize_run_body (code : string) : Result string :=
  if negb (truthy code) then Return invalid_input
  else
    let code := strip code in
    if negb (truthy code) then Return empty_code
    else
      let compatibility_issues := _detect_compatibility_issues code in
      available <- _check_modernize_available ;;
      if available then
        r <- _run_modernize_on_code code ;;
        let '(updated_code, was_changed, error_msg) := r in
        if truthy error_msg
        then Return (modernize_after_error_reply compatibility_issues code)
        else if was_changed then
          Return (join_lines
                    (["Python 2/3 Compatibility Applied (using python-modernize)"; "";
                      ("Compatibility Issues Detected: "
                       ++ join_with ", " compatibility_issues)%string; "";
                      "Modernized Code:"] ++ fence updated_code
                     ++ [""; "Code has been successfully modernized using the python-modernize tool.";
                         "Code is now compatible with both Python 2.7+ and Python 3.x"])%list)
        else
          Return (join_lines
                    (["Python 2/3 Compatibility Analysis Complete"; "";
                      "No changes needed - code is already compatible."; "";
                      "Original code:"] ++ fence code
                     ++ [""; "Code is already compatible with both Python 2.7+ and Python 3.x"])%list)
      else Return (modernize_fallback_reply compatibility_issues code).

(** [ModernizeTool._run]. *)
Definition modernize_run (code : string) : Result string :=
  try_except (modernize_run_body code)
    (fun e => Return ("Error during modernization: " ++ str_e e)).

(** [tool.run(code)] as the executor calls it. *)
Definition run (t : Tool) (code : string) : Result string :=
  match t with
  | PyUpgradeTool => pyupgrade_run code
  | Python2To3Tool => python2to3_run code
  | ModernizeTool => modernize_run code
  end.

End Backends.

End Tools.

(** ** A concrete environment for the examples

    The verdicts of CPython 3.11 on the snippets the examples use, a
    machine on which neither [pyupgrade], [python-modernize] nor
    [lib2to3] is installed, and the rewriting passes of the tools on those
    snippets. *)

Module Sample.

Definition print_stmt : string := "print 'a'".
Definition print_call : string := "print('a')".
Definition exec_stmt : string := "exec 'x=1'".
Definition bad_def : string := "def f(:".
Definition future_print : string := "from __future__ import print_function".

(** A print statement and an exec statement, and the same text once the
    print statement is rewritten. *)
Definition two_statements : string := print_stmt ++ nl ++ exec_stmt.
Definition half_migrated : string := print_call ++ nl ++ exec_stmt.

Definition missing_parentheses (what filename : string) (line : nat) : CompileOutcome :=
  SyntaxError (Some line)
    ("Missing parentheses in call to '" ++ what ++ "'. Did you mean " ++ what
     ++ "(...)? (" ++ filename ++ ", line " ++ str_nat line ++ ")").

(** [compile] on the snippets of the examples; any other text is taken to
    be rejected. *)
Definition compile (filename code : string) : CompileOutcome :=
  if (code =? print_call) || (code =? "x = 1") || (code =? "")
     || (code =? future_print ++ nl ++ nl ++ print_call)
  then Compiled
  else if (code =? print_stmt) || (code =? print_stmt ++ nl ++ exec_stmt)
  then missing_parentheses "print" filename 1
  else if code =? print_call ++ nl ++ exec_stmt
  then missing_parentheses "exec" filename 2
  else if code =? future_print ++ nl ++ nl ++ print_call ++ nl ++ exec_stmt
  then missing_parentheses "exec" filename 4
  else SyntaxError (Some 1) ("invalid syntax (" ++ filename ++ ", line 1)").

(** [json.loads] is not reached by the examples. *)
Definition json_loads (s : string) : option string := None.

(** [str] of an error dictionary, the message always in double quotes. *)
Definition str_error (e : ErrorInfo) : string :=
  match e with
  | syntax_error f l m =>
      "{'file': '" ++ f ++ "', 'line': " ++ str_line l ++ ", 'error': " ++ dq ++ m ++ dq
      ++ ", 'type': 'syntax_error'}"
  | compilation_error f m =>
      "{'file': '" ++ f ++ "', 'error': " ++ dq ++ m ++ dq ++ ", 'type': 'compilation_error'}"
  end.

Definition not_found : Tools.Exn :=
  Tools.MkExn Tools.FileNotFoundError "[Errno 2] No such file or directory".

Definition ast_parse (code : string) : Tools.Result unit :=
  match compile "<unknown>" code with
  | Compiled => Tools.Return tt
  | SyntaxError _ m => Tools.Raise (Tools.MkExn Tools.SyntaxErrorRaised m)
  | OtherException m => Tools.Raise (Tools.MkExn Tools.OtherError m)
  end.

(** The print statement of the examples is the one Python 2 pattern. *)
Definition detect_python2 (code : string) : list string :=
  if contains print_stmt code then ["print_statement"] else [].

Definition pattern_based_migration (code : string) : string * list string :=
  if contains print_stmt code
  then (replace print_stmt print_call code,
        ["Converted print statement to print() function"])
  else (code, []).

Definition detect_compatibility_issues (code : string) : list string :=
  if contains print_stmt code then ["print_statement"] else [].

(** The import is inserted as a line of its own, which ends in a newline. *)
Definition pattern_based_modernization (code : string) : string * list string :=
  if contains print_stmt code
  then (future_print ++ nl ++ nl ++ replace print_stmt print_call code,
        ["Added from __future__ import print_function";
         "Converted print statements to print() function"])
  else (code, []).

(** No [.format] call and no [%] formatting in the examples. *)
Definition unchanged (code : string) : string * list string := (code, []).

(** The [_run] methods on this machine. *)
Definition run_here (t : Tool) (code : string) : Tools.Result string :=
  Tools.run (fun _ => false) (fun _ => Tools.Raise not_found)
    (fun _ => Tools.Raise not_found) (fun _ => Tools.Raise not_found)
    (fun _ => Tools.Raise not_found) ast_parse unchanged "3.11"
    detect_python2
    (Tools.Raise (Tools.MkExn Tools.ImportError "No module named 'lib2to3'"))
    (fun _ => Tools.Raise not_found) pattern_based_migration
    detect_compatibility_issues pattern_based_modernization t code.

(** [tool.run(code)] on this machine. *)
Definition tool_run (t : Tool) (code : string) : string :=
  match run_here t code with
  | Tools.Return s => s
  | Tools.Raise e => Tools.str_e e
  end.

(** An agent whose [invoke] raises on every call. *)
Definition failing_agent (st : unit) (prompt : string) : unit * AgentReply :=
  (tt, Raised "connection refused").

(** An executor as [__init__] leaves it, with or without a manager. *)
Definition executor (n : nat) (manager : option unit) : Self unit unit :=
  MkSelf n manager None [] [].

Definition migrate (n : nat) (manager : option unit) (source_dir : Tree) : Outcome unit unit :=
  execute_migration compile json_loads tool_run str_error failing_agent
    (fun _ => Some tt) (executor n manager) source_dir.

End Sample.

(** ** Notions used by the statements *)

(** [t] is what is left of [s] after some of its characters. *)
Definition is_suffix (t s : string) : Prop := exists p, s = p ++ t.

(** A character that only matches itself, whatever the case flag. *)
Definition caseless (c : ascii) : Prop :=
  forall ic b, char_eq ic c b = true -> b = c.

(** The regular expression cannot match without reading the character. *)
Fixpoint demands_char (c : ascii) (r : regex) : bool :=
  match r with
  | Lit l => mem c l
  | Cat r1 r2 => demands_char c r1 || demands_char c r2
  | Alt r1 r2 => demands_char c r1 && demands_char c r2
  | Group r1 => demands_char c r1
  | _ => false
  end.

(** The regular expression cannot match without reading the text. *)
Fixpoint demands_text (lit : string) (r : regex) : bool :=
  match r with
  | Lit l => contains lit l
  | Cat r1 r2 => demands_text lit r1 || demands_text lit r2
  | Alt r1 r2 => demands_text lit r1 && demands_text lit r2
  | Group r1 => demands_text lit r1
  | _ => false
  end.

(** Text without code: no backquote, no action payload, and no line with
    one of the indicators that start the heuristic scan. *)
Definition plain_prose (agent_output : string) : Prop :=
  mem "`"%char agent_output = false
  /\ contains action_key agent_output = false
  /\ Forall (fun line => contains_any start_indicators line = false)
       (split_lines agent_output).

(** The file writes of a log, replayed on a tree. *)
Fixpoint replay (evs : list Event) (t : Tree) : Tree :=
  match evs with
  | [] => t
  | FileWrite py_file code :: evs' => replay evs' (write py_file code t)
  | ToolRun _ _ :: evs' => replay evs' t
  end.

(** The tool invocations of a log, in order. *)
Fixpoint tool_runs (evs : list Event) : list (Tool * string) :=
  match evs with
  | [] => []
  | ToolRun t code :: evs' => (t, code) :: tool_runs evs'
  | FileWrite _ _ :: evs' => tool_runs evs'
  end.

(** The texts written by a log, in order. *)
Fixpoint written (evs : list Event) : list string :=
  match evs with
  | [] => []
  | FileWrite _ code :: evs' => code :: written evs'
  | ToolRun _ _ :: evs' => written evs'
  end.

(** [w'] is [w] after the events [evs]. *)
Definition after (w : World) (evs : list Event) (w' : World) : Prop :=
  log w' = (log w ++ evs)%list /\ fs w' = replay evs (fs w).

(** [grows P w w']: [w'] is [w] after some events that satisfy [P]. *)
Definition grows (P : list Event -> Prop) (w w' : World) : Prop :=
  exists evs, after w evs w' /\ P evs.

(** [P] holds of the empty log and of concatenations. *)
Definition log_closed (P : list Event -> Prop) : Prop :=
  P [] /\ forall a b, P a -> P b -> P (a ++ b)%list.

(** Every file of the tree is readable and compiles. *)
Definition all_pass (py_compile : string -> string -> CompileOutcome) (t : Tree) : Prop :=
  forall py_file d, In (py_file, d) t ->
    exists code, d = Text code /\ py_compile py_file code = Compiled.

(** An agent whose [invoke] raises whatever it is asked. *)
Definition always_raises {A : Type} (invoke : A -> string -> A * AgentReply) : Prop :=
  forall st prompt, exists msg, snd (invoke st prompt) = Raised msg.

(** The tool-usage trace of a run: the [tools_used] of its rounds. *)
Definition usage_trace {A L : Type} (o : Outcome A L) : list (list ToolUse) :=
  map tools_used (iterations (results o)).

Section Reference.

Variable py_compile : string -> string -> CompileOutcome.
Variable json_loads : string -> option string.
Variable tool_run : Tool -> string -> string.

(** The text the chain carries on after tool [t] ran on [current_code]. *)
Definition accumulated (t : Tool) (current_code : string) : string :=
  match chain_accepts py_compile current_code
          (_extract_code_from_result (tool_run t current_code)) with
  | Some modified_code => modified_code
  | None => current_code
  end.

(** Whether the chain accepts the output of tool [t] on [current_code]. *)
Definition accepted (t : Tool) (current_code : string) : bool :=
  match chain_accepts py_compile current_code
          (_extract_code_from_result (tool_run t current_code)) with
  | Some _ => true
  | None => false
  end.

(** The texts written by a log all pass the validity check. *)
Definition valid_writes (evs : list Event) : Prop :=
  Forall (fun code => _validate_python_code py_compile code = true) (written evs).

(** The outcome of tool [t] on [code] is a no-op: the text extracted from
    its result is [code] itself. *)
Definition no_op (t : Tool) (code : string) : Prop :=
  _extract_code_from_result (tool_run t code) = Some code.

(** A fixing pass that hands every readable file to the fallback chain
    and records each rewritten file under the name [fallback_tools]. *)
Definition chain_file (st : nat * IterationResult * World) (py_file : string)
  : nat * IterationResult * World :=
  let '(fixes, r, w) := st in
  match read (fs w) py_file with
  | Unreadable _ => st
  | Text original_code =>
      let '(fixed, w') :=
        _apply_fallback_tools py_compile tool_run py_file original_code w in
      if fixed
      then (S fixes,
            add_tool_use (file_entry "fallback_tools" (base_name py_file) "success") r,
            w')
      else (fixes, r, w')
  end.

Definition chain_pass (r : IterationResult) (w : World) : nat * IterationResult * World :=
  fold_left chain_file (rglob (fs w)) (0, r, w).

(** The stripped groups of the patterns of [ps] that match [text]. *)
Definition stripped_groups (ic : bool) (ps : list regex) (text : string) : list string :=
  flat_map (fun p => match search ic p text with
                     | Some g => [strip g]
                     | None => []
                     end) ps.

(** Every text a strategy of [_extract_code_from_agent_output] recovers
    from [agent_output], in the order of the strategies. *)
Definition candidates (agent_output : string) : list string :=
  (flat_map (fun p => match search false p agent_output with
                      | Some json_content =>
                          stripped_groups false code_patterns
                            (decode_json_content json_loads json_content)
                      | None => []
                      end) json_patterns
   ++ stripped_groups true patterns agent_output
   ++ stripped_groups true tool_output_patterns agent_output
   ++ match scan_python_like false (split_lines agent_output) with
      | [] => []
      | code_lines => [join_lines code_lines]
      end
   ++ (if contains "```python" (lower agent_output)
       then match search true permissive_pattern agent_output with
            | Some g => [strip g]
            | None => []
            end
       else []))%list.

End Reference.

(** ** The claims that fail as they are worded *)

(** C2 as worded: the chain runs the three tools on every text. *)
Definition chain_runs_all_three : Prop :=
  forall py_compile tool_run py_file original_code t,
    map fst (tool_runs (log (snd (_apply_fallback_tools py_compile tool_run py_file
                                     original_code (MkWorld t [])))))
    = [Python2To3Tool; PyUpgradeTool; ModernizeTool].

(** C3 as worded: both extractors return validated text only. *)
Definition extractors_validate : Prop :=
  forall py_compile json_loads text code,
    (_extract_code_from_agent_output py_compile json_loads text = Some code ->
     _validate_python_code py_compile code = true)
    /\ (_extract_code_from_result text = Some code ->
        _validate_python_code py_compile code = true).

(** C5 as worded: an agent that always raises changes neither the final
    status nor the tool-usage trace of a run without agent. *)
Definition failing_agent_changes_nothing : Prop :=
  forall py_compile json_loads tool_run str_error
         (A : Type) (invoke : A -> string -> A * AgentReply) (agent : A)
         (n : nat) (source_dir : Tree),
    always_raises invoke ->
    let with_agent :=
      execute_migration py_compile json_loads tool_run str_error invoke
        (fun _ => Some agent) (MkSelf n (Some tt) None [] []) source_dir in
    let without_agent :=
      execute_migration py_compile json_loads tool_run str_error invoke
        (fun _ : unit => Some agent) (MkSelf n None None [] []) source_dir in
    final_status (results with_agent) = final_status (results without_agent)
    /\ usage_trace with_agent = usage_trace without_agent.

(** C7 as worded: when the round numbered [max_iterations] has run and
    has not ended in success, the final status is the exhausted one. *)
Definition last_round_means_exhausted : Prop :=
  forall py_compile json_loads tool_run str_error
         (A : Type) (invoke : A -> string -> A * AgentReply)
         (L : Type) (initialize_agent : L -> option A)
         (self : Self A L) (source_dir : Tree),
    let o :=
      execute_migration py_compile json_loads tool_run str_error invoke
        initialize_agent self source_dir in
    forall r, In r (iterations (results o)) ->
      iteration r = max_iterations self ->
      compilation_status r <> "success" ->
      final_status (results o) = "max_iterations_reached".

(** ** Notions used by the further properties *)

(** The file passes the check of [_attempt_compilation]: it can be read
    and [compile] accepts its text under its own name. *)
Definition passes (py_compile : string -> string -> CompileOutcome)
  (entry : string * FileData) : bool :=
  match snd entry with
  | Text code =>
      match py_compile (fst entry) code with
      | Compiled => true
      | _ => false
      end
  | Unreadable _ => false
  end.

(** Every write of the log replaces, by a text that is not empty, a file
    that reads as text when the write happens. *)
Fixpoint rewrites (t : Tree) (evs : list Event) : Prop :=
  match evs with
  | [] => True
  | ToolRun _ _ :: evs' => rewrites t evs'
  | FileWrite py_file code :: evs' =>
      (exists old, read t py_file = Text old) /\ code <> ""
      /\ rewrites (write py_file code t) evs'
  end.

(** [w'] is [w] after [n] such writes. *)
Definition fixing (w : World) (n : nat) (w' : World) : Prop :=
  exists evs, after w evs w' /\ rewrites (fs w) evs /\ List.length (written evs) = n.

(** A round that neither ends the loop in success nor stops it for want
    of a fix. *)
Definition progressing (r : IterationResult) : Prop :=
  compilation_status r <> "success" /\ fixes_applied r <> 0.

(** The number of files an entry of [tools_used] stands for. *)
Definition files_of (u : ToolUse) : nat :=
  match u with
  | file_entry _ _ _ => 1
  | tool_entry _ files_modified => files_modified
  end.

(** [r'] is the record [r] with more agent steps and with more entries
    of [tools_used], which stand for [n] files. *)
Definition records (r : IterationResult) (n : nat) (r' : IterationResult) : Prop :=
  iteration r' = iteration r
  /\ compilation_status r' = compilation_status r
  /\ compilation_attempts r' = compilation_attempts r
  /\ errors_found r' = errors_found r
  /\ fixes_applied r' = fixes_applied r
  /\ (exists ss, agent_steps r' = agent_steps r ++ ss)%list
  /\ exists us, tools_used r' = (tools_used r ++ us)%list
                /\ list_sum (map files_of us) = n.

(** What the record of a round says about itself: one check, or two
    when fixes were applied; fixes only when the check found errors; and
    entries of [tools_used] for no more files than were fixed. *)
Definition coherent (r : IterationResult) : Prop :=
  compilation_attempts r = (if (fixes_applied r =? 0)%nat then 1 else 2)
  /\ (fixes_applied r <> 0 -> errors_found r <> [])
  /\ list_sum (map files_of (tools_used r)) <= fixes_applied r.

(** The file could be read. *)
Definition is_text (d : FileData) : bool :=
  match d with Text _ => true | Unreadable _ => false end.

(** The files of the listing that can be read. *)
Definition readable (t : Tree) : list string :=
  filter (fun py_file => is_text (read t py_file)) (rglob t).

(** *** Tools that have nothing to change *)

Section UnchangedDefs.

Import Tools.

Variable which : string -> bool.
Variable subprocess_run : list string -> Result Completed.
Variable ast_parse : string -> Result unit.
Variable modernize_patterns : string -> string * list string.
Variable detect_python2 : string -> list string.
Variable _pattern_based_modernization : string -> string * list string.

(** Tool [t] has nothing to change in [code]: [Python2To3Tool] detects
    no Python 2 pattern; the command of [PyUpgradeTool] or of
    [ModernizeTool] is not available and the pattern-based pass that
    stands in for it makes no change (for [PyUpgradeTool], on a text
    that parses). *)
Definition nothing_to_change (t : Tool) (code : string) : Prop :=
  match t with
  | PyUpgradeTool =>
      ast_parse code = Return tt
      /\ _check_pyupgrade_available which subprocess_run = Return false
      /\ snd (modernize_patterns code) = []
  | Python2To3Tool => detect_python2 code = []
  | ModernizeTool =>
      _check_modernize_available subprocess_run = Return false
      /\ snd (_pattern_based_modernization code) = []
  end.

End UnchangedDefs.

(** *** Further inputs for the examples *)

Module Cases.

(** A file that ends in a newline, as files do. *)
Definition with_newline : string := "x = 1" ++ nl.

(** A file that cannot be decoded. *)
Definition undecodable : FileData :=
  Unreadable "'utf-8' codec can't decode byte 0xff in position 0: invalid start byte".

(** A machine on which starting a process is refused. *)
Definition denied : Tools.Exn :=
  Tools.MkExn Tools.OtherError "[Errno 13] Permission denied: 'python-modernize'".

Definition run_denied (t : Tool) (code : string) : Tools.Result string :=
  Tools.run (fun _ => false) (fun _ => Tools.Raise denied)
    (fun _ => Tools.Raise denied) (fun _ => Tools.Raise denied)
    (fun _ => Tools.Raise denied) Sample.ast_parse Sample.unchanged "3.11"
    Sample.detect_python2
    (Tools.Raise (Tools.MkExn Tools.ImportError "No module named 'lib2to3'"))
    (fun _ => Tools.Raise denied) Sample.pattern_based_migration
    Sample.detect_compatibility_issues Sample.pattern_based_modernization t code.

(** An agent that answers without output. *)
Definition silent_agent (st : unit) (prompt : string) : unit * AgentReply :=
  (tt, Returned (MkAgentResult None None)).

End Cases.

(** * Properties *)

(** ** Logs and trees *)

Lemma replay_app : forall evs1 evs2 t,
  replay (evs1 ++ evs2) t = replay evs2 (replay evs1 t).
Proof.
  induction evs1 as [|e evs1 IH]; intros evs2 t; simpl.
  - reflexivity.
  - destruct e; apply IH.
Qed.

Lemma tool_runs_app : forall evs1 evs2,
  tool_runs (evs1 ++ evs2) = (tool_runs evs1 ++ tool_runs evs2)%list.
Proof.
  induction evs1 as [|e evs1 IH]; intros evs2; simpl.
  - reflexivity.
  - destruct e; simpl; rewrite IH; reflexivity.
Qed.

Lemma written_app : forall evs1 evs2,
  written (evs1 ++ evs2) = (written evs1 ++ written evs2)%list.
Proof.
  induction evs1 as [|e evs1 IH]; intros evs2; simpl.
  - reflexivity.
  - destruct e; simpl; rewrite IH; reflexivity.
Qed.

Lemma after_refl : forall w, after w [] w.
Proof.
  intros w; split; simpl.
  - now rewrite app_nil_r.
  - reflexivity.
Qed.

Lemma after_trans : forall w1 evs1 w2 evs2 w3,
  after w1 evs1 w2 -> after w2 evs2 w3 -> after w1 (evs1 ++ evs2) w3.
Proof.
  intros w1 evs1 w2 evs2 w3 [L1 F1] [L2 F2]; split.
  - rewrite L2, L1, app_assoc; reflexivity.
  - rewrite F2, F1, replay_app; reflexivity.
Qed.

Lemma after_logged : forall t code w, after w [ToolRun t code] (logged (ToolRun t code) w).
Proof. intros; split; reflexivity. Qed.

Lemma after_write_file : forall py_file code w,
  after w [FileWrite py_file code] (write_file py_file code w).
Proof. intros; split; reflexivity. Qed.

Lemma write_nil : forall py_file code, write py_file code [] = [].
Proof. reflexivity. Qed.

Lemma replay_nil : forall evs, replay evs [] = [].
Proof.
  induction evs as [|e evs IH]; simpl; [reflexivity|].
  destruct e; simpl; exact IH.
Qed.

Lemma grows_refl : forall P w, log_closed P -> grows P w w.
Proof.
  intros P w [Hnil _]; exists []; split; [apply after_refl | exact Hnil].
Qed.

Lemma grows_trans : forall P w1 w2 w3,
  log_closed P -> grows P w1 w2 -> grows P w2 w3 -> grows P w1 w3.
Proof.
  intros P w1 w2 w3 [_ Happ] [e1 [A1 P1]] [e2 [A2 P2]].
  exists (e1 ++ e2)%list; split; [eapply after_trans; eassumption | now apply Happ].
Qed.

Lemma grows_weaken : forall (P Q : list Event -> Prop) w w',
  (forall evs, P evs -> Q evs) -> grows P w w' -> grows Q w w'.
Proof.
  intros P Q w w' H [evs [A HP]]; exists evs; split; [exact A | now apply H].
Qed.

Lemma grows_fold : forall (S X : Type) (W : S -> World) (f : S -> X -> S) P,
  log_closed P ->
  (forall st x, grows P (W st) (W (f st x))) ->
  forall l st, grows P (W st) (W (fold_left f l st)).
Proof.
  intros S X W f P HP Hstep l; induction l as [|x l IH]; intros st; simpl.
  - now apply grows_refl.
  - eapply grows_trans; [exact HP | apply Hstep | apply IH].
Qed.

Lemma any_log_closed : log_closed (fun _ => True).
Proof. split; trivial. Qed.

Section ExecutorFacts.

Variable py_compile : string -> string -> CompileOutcome.
Variable json_loads : string -> option string.
Variable tool_run : Tool -> string -> string.
Variable str_error : ErrorInfo -> string.
Variable AgentSt : Type.
Variable agent_invoke : AgentSt -> string -> AgentSt * AgentReply.
Variable LLMManager : Type.
Variable initialize_agent : LLMManager -> option AgentSt.

Local Abbreviation valid := (_validate_python_code py_compile).
Local Abbreviation chain := (_apply_fallback_tools py_compile tool_run).
Local Abbreviation carried := (accumulated py_compile tool_run).

Local Abbreviation sound := (valid_writes py_compile).
Local Abbreviation accepts := (accepted py_compile tool_run).

Lemma valid_writes_closed : log_closed sound.
Proof.
  split.
  - constructor.
  - intros a b Ha Hb; unfold valid_writes; rewrite written_app.
    apply Forall_app; split; assumption.
Qed.

Lemma chain_accepts_valid : forall current_code modified_code m,
  chain_accepts py_compile current_code modified_code = Some m ->
  valid m = true /\ m <> current_code /\ modified_code = Some m.
Proof.
  intros current_code [m'|] m H; simpl in H; [|discriminate].
  destruct (truthy m' && negb (m' =? current_code)) eqn:E; [|discriminate].
  destruct (valid m') eqn:V; [|discriminate].
  injection H as <-.
  apply andb_true_iff in E as [_ E].
  apply negb_true_iff, String.eqb_neq in E.
  repeat split; assumption.
Qed.

(** A text equal to the current one is never accepted. *)
Lemma chain_accepts_same : forall code,
  chain_accepts py_compile code (Some code) = None.
Proof.
  intros code; simpl. rewrite String.eqb_refl, andb_false_r. reflexivity.
Qed.

(** What one tool of the chain does to [(current_code, code_modified)]
    and to the world. *)
Lemma apply_tool_eq : forall t st w,
  apply_tool py_compile tool_run t st w =
  ((carried t (fst st), snd st || accepts t (fst st)),
   logged (ToolRun t (fst st)) w).
Proof.
  intros t [current_code code_modified] w.
  unfold apply_tool, accumulated, accepted, run_tool; simpl.
  destruct (chain_accepts py_compile current_code
              (_extract_code_from_result (tool_run t current_code))).
  - rewrite orb_true_r; reflexivity.
  - rewrite orb_false_r; reflexivity.
Qed.

(** The text the chain carries is valid as soon as a tool changed it. *)
Lemma apply_tool_keeps_valid : forall t st w,
  (snd st = true -> valid (fst st) = true) ->
  let st' := fst (apply_tool py_compile tool_run t st w) in
  snd st' = true -> valid (fst st') = true.
Proof.
  intros t st w Hst; rewrite apply_tool_eq; simpl.
  unfold accumulated, accepted.
  destruct (chain_accepts py_compile (fst st)
              (_extract_code_from_result (tool_run t (fst st)))) eqn:E.
  - intros _. now apply chain_accepts_valid in E.
  - rewrite orb_false_r. exact Hst.
Qed.

(** The chain, written out: the texts it carries, the log it leaves,
    and the single write at its end. *)
Lemma chain_eq : forall py_file original_code w,
  let guarded := contains_any python2_markers original_code in
  let c1 := if guarded then carried Python2To3Tool original_code else original_code in
  let c2 := carried PyUpgradeTool c1 in
  let c3 := carried ModernizeTool c2 in
  let w1 := if guarded then logged (ToolRun Python2To3Tool original_code) w else w in
  let w3 := logged (ToolRun ModernizeTool c2) (logged (ToolRun PyUpgradeTool c1) w1) in
  chain py_file original_code w =
  if (guarded && accepts Python2To3Tool original_code)
     || accepts PyUpgradeTool c1 || accepts ModernizeTool c2
  then (true, write_file py_file c3 w3)
  else (false, w3).
Proof.
  intros py_file original_code w; unfold _apply_fallback_tools.
  destruct (contains_any python2_markers original_code); simpl;
    rewrite ?apply_tool_eq; simpl; rewrite ?apply_tool_eq; simpl;
    rewrite ?apply_tool_eq; simpl; reflexivity.
Qed.

(** The text the chain writes passed the validity check. *)
Lemma carried_valid : forall t code,
  accepts t code = true -> valid (carried t code) = true.
Proof.
  intros t code; unfold accepted, accumulated.
  destruct (chain_accepts py_compile code
              (_extract_code_from_result (tool_run t code))) eqn:E; [|discriminate].
  intros _; now apply chain_accepts_valid in E.
Qed.

Lemma carried_same : forall t code,
  accepts t code = false -> carried t code = code.
Proof.
  intros t code; unfold accepted, accumulated.
  destruct (chain_accepts py_compile code
              (_extract_code_from_result (tool_run t code))); [discriminate|reflexivity].
Qed.

Lemma chain_grows : forall py_file original_code w,
  grows sound w (snd (chain py_file original_code w)).
Proof.
  intros py_file original_code w; rewrite chain_eq.
  set (g := contains_any python2_markers original_code).
  set (c1 := if g then carried Python2To3Tool original_code else original_code).
  set (c2 := carried PyUpgradeTool c1).
  set (c3 := carried ModernizeTool c2).
  set (w1 := if g then logged (ToolRun Python2To3Tool original_code) w else w).
  assert (G1 : grows sound w w1).
  { unfold w1; destruct g.
    - exists [ToolRun Python2To3Tool original_code]; split;
        [apply after_logged | constructor].
    - apply grows_refl, valid_writes_closed. }
  assert (G3 : grows sound w
                 (logged (ToolRun ModernizeTool c2) (logged (ToolRun PyUpgradeTool c1) w1))).
  { eapply grows_trans; [apply valid_writes_closed | exact G1 |].
    exists [ToolRun PyUpgradeTool c1; ToolRun ModernizeTool c2]; split.
    - split; simpl; [rewrite <- app_assoc|]; reflexivity.
    - constructor. }
  destruct ((g && accepts Python2To3Tool original_code)
            || accepts PyUpgradeTool c1 || accepts ModernizeTool c2) eqn:F; simpl.
  - eapply grows_trans; [apply valid_writes_closed | exact G3 |].
    exists [FileWrite py_file c3]; split; [apply after_write_file|].
    constructor; [|constructor].
    destruct (accepts ModernizeTool c2) eqn:A3.
    { now apply carried_valid. }
    unfold c3; rewrite (carried_same _ _ A3).
    destruct (accepts PyUpgradeTool c1) eqn:A2.
    { now apply carried_valid. }
    unfold c2; rewrite (carried_same _ _ A2).
    rewrite !orb_false_r in F. apply andb_true_iff in F as [Hg A1].
    unfold c1; rewrite Hg. now apply carried_valid.
  - exact G3.
Qed.

Local Abbreviation fallback := (fallback_for py_compile tool_run).
Local Abbreviation per_file :=
  (agent_file py_compile json_loads tool_run agent_invoke).
Local Abbreviation agent_round :=
  (_execute_with_langchain_agent py_compile json_loads tool_run agent_invoke).
Local Abbreviation manual_round := (_execute_manual_fallback tool_run str_error).
Local Abbreviation fixes :=
  (apply_fixes py_compile json_loads tool_run str_error agent_invoke (LLMManager := LLMManager)).
Local Abbreviation round :=
  (_execute_iteration_with_agent py_compile json_loads tool_run str_error agent_invoke
     (LLMManager := LLMManager)).
Local Abbreviation rounds_loop :=
  (iterate py_compile json_loads tool_run str_error agent_invoke (LLMManager := LLMManager)).
Local Abbreviation migration :=
  (execute_migration py_compile json_loads tool_run str_error agent_invoke initialize_agent).
Local Abbreviation attempt := (_attempt_compilation py_compile).

Lemma fallback_grows : forall label py_file original_code (st : AgentPass AgentSt),
  grows sound (pass_world st) (pass_world (fallback label py_file original_code st)).
Proof.
  intros label py_file original_code st; unfold fallback_for.
  pose proof (chain_grows py_file original_code (pass_world st)) as G.
  destruct (chain py_file original_code (pass_world st)) as [[|] w']; exact G.
Qed.

(** On the agent path every text written passed the validity check. *)
Lemma agent_file_grows : forall errors iteration (st : AgentPass AgentSt) py_file,
  grows sound (pass_world st) (pass_world (per_file errors iteration st py_file)).
Proof.
  intros errors iteration st py_file; unfold agent_file.
  destruct (read (fs (pass_world st)) py_file) as [original_code|why];
    [|apply grows_refl, valid_writes_closed].
  destruct (agent_invoke (pass_agent st) _) as [agent [result|msg]];
    [|apply (fallback_grows _ _ _ (MkPass _ _ agent _))].
  destruct (output result) as [agent_output|];
    [|apply (fallback_grows _ _ _ (MkPass _ _ agent _))].
  destruct (_extract_code_from_agent_output py_compile json_loads agent_output)
    as [modified_code|];
    [|apply (fallback_grows _ _ _ (MkPass _ _ agent _))].
  destruct (truthy modified_code && negb (modified_code =? original_code)).
  - destruct (valid modified_code) eqn:V; simpl.
    + exists [FileWrite py_file modified_code]; split; [apply after_write_file|].
      constructor; [exact V | constructor].
    + apply grows_refl, valid_writes_closed.
  - destruct (truthy modified_code); simpl.
    + apply grows_refl, valid_writes_closed.
    + apply (fallback_grows _ _ _ (MkPass _ _ agent _)).
Qed.

Lemma agent_round_grows : forall errors iteration r agent w,
  grows sound w (pass_world (agent_round errors iteration r agent w)).
Proof.
  intros errors iteration r agent w; unfold _execute_with_langchain_agent.
  apply (grows_fold _ _ pass_world _ _ valid_writes_closed
           (agent_file_grows errors iteration) _ (MkPass 0 r agent w)).
Qed.

Lemma manual_file_grows : forall tool st py_file,
  grows (fun _ => True) (snd st) (snd (manual_file tool_run tool st py_file)).
Proof.
  intros tool [n w] py_file; unfold manual_file, run_tool; simpl.
  destruct (read (fs w) py_file) as [original_code|why];
    [|apply grows_refl, any_log_closed].
  assert (G : grows (fun _ => True) w (logged (ToolRun tool original_code) w))
    by (eexists; split; [apply after_logged | trivial]).
  destruct (_extract_code_from_result (tool_run tool original_code)) as [m|]; [|exact G].
  destruct (truthy m && negb (m =? original_code)); simpl; [|exact G].
  eapply grows_trans; [apply any_log_closed | exact G |].
  eexists; split; [apply after_write_file | trivial].
Qed.

Lemma manual_tool_grows : forall st tool,
  grows (fun _ => True) (snd st) (snd (manual_tool tool_run st tool)).
Proof.
  intros [[n r] w] tool; unfold manual_tool; simpl.
  pose proof (grows_fold _ _ snd _ _ any_log_closed (manual_file_grows tool)
                (rglob (fs w)) (0, w)) as G; simpl in G.
  destruct (fold_left (manual_file tool_run tool) (rglob (fs w)) (0, w)) as [k w'].
  destruct (0 <? k)%nat; exact G.
Qed.

Lemma manual_round_grows : forall errors r w,
  grows (fun _ => True) w (snd (manual_round errors r w)).
Proof.
  intros errors r w; unfold _execute_manual_fallback.
  apply (grows_fold _ _ snd _ _ any_log_closed manual_tool_grows _ (0, r, w)).
Qed.

Lemma fixes_grows : forall errors iteration r self w,
  grows (fun _ => True) w (snd (fixes errors iteration r self w)).
Proof.
  intros errors iteration r self w; unfold apply_fixes.
  destruct (agent_executor self) as [agent|]; simpl.
  - eapply grows_weaken; [|apply agent_round_grows]; trivial.
  - pose proof (manual_round_grows errors r w) as G.
    destruct (manual_round errors r w) as [[n r'] w']; exact G.
Qed.

Lemma round_grows : forall iteration self w,
  grows (fun _ => True) w (snd (round iteration self w)).
Proof.
  intros iteration self w; unfold _execute_iteration_with_agent.
  destruct (status (attempt (fs w)) =? "success");
    [apply grows_refl, any_log_closed|].
  destruct (errors (attempt (fs w))) as [|e es] eqn:E;
    [apply grows_refl, any_log_closed|].
  pose proof (fixes_grows (e :: es) iteration
                (with_errors (e :: es)
                   (attempted (status (attempt (fs w)))
                      (MkIteration iteration "unknown" 0 [] 0 [] []))) self w) as G.
  destruct (fixes _ _ _ _ _) as [[[n r] self'] w'].
  simpl in G.
  destruct (0 <? n)%nat; [|exact G].
  destruct (status (attempt (fs w')) =? "success"); [exact G|].
  destruct (_ <? _)%nat; exact G.
Qed.

Lemma rounds_loop_grows : forall rounds results self w,
  grows (fun _ => True) w (snd (rounds_loop rounds results self w)).
Proof.
  induction rounds as [|i rounds IH]; intros results self w; simpl.
  - apply grows_refl, any_log_closed.
  - pose proof (round_grows i self w) as G.
    destruct (round i self w) as [[r self'] w']; simpl in G.
    destruct (compilation_status r =? "success"); [exact G|].
    destruct (fixes_applied r =? 0)%nat; [exact G|].
    eapply grows_trans; [apply any_log_closed | exact G | apply IH].
Qed.

(** ** The rounds *)

Lemma initialize_keeps_budget : forall self : Self AgentSt LLMManager,
  max_iterations (_initialize_agent initialize_agent self) = max_iterations self.
Proof.
  intros self; unfold _initialize_agent.
  destruct (agent_executor self); [reflexivity|].
  destruct (llm_manager self); reflexivity.
Qed.

Lemma check_all_pass : forall t,
  all_pass py_compile t -> flat_map (check_file py_compile) t = [].
Proof.
  induction t as [|[py_file d] t IH]; intros H; simpl; [reflexivity|].
  destruct (H py_file d (or_introl eq_refl)) as [code [-> C]].
  unfold check_file; simpl. rewrite C; simpl.
  apply IH. intros f d' Hin. apply (H f d'). now right.
Qed.

Lemma attempt_all_pass : forall t,
  t <> [] -> all_pass py_compile t -> attempt t = MkCompilation "success" [].
Proof.
  intros t Hne H; unfold _attempt_compilation.
  destruct t as [|e t]; [contradiction|].
  now rewrite (check_all_pass _ H).
Qed.

(** A round on a tree that compiles: nothing but the check. *)
Lemma round_on_valid_tree : forall iteration self w,
  fs w <> [] -> all_pass py_compile (fs w) ->
  round iteration self w = (MkIteration iteration "success" 1 [] 0 [] [], self, w).
Proof.
  intros iteration self w Hne H; unfold _execute_iteration_with_agent.
  rewrite (attempt_all_pass _ Hne H); reflexivity.
Qed.

(** A round on an empty tree. *)
Lemma round_on_empty_tree : forall iteration self l,
  round iteration self (MkWorld [] l)
  = (MkIteration iteration "no_python_files" 1 [] 0 [] [], self, MkWorld [] l).
Proof. reflexivity. Qed.

(** The records a loop adds, and what it means that none of them stopped
    the loop. *)
Lemma rounds_loop_exhausted : forall rounds results self w,
  exists new,
    iterations (fst (fst (rounds_loop rounds results self w)))
    = (iterations results ++ new)%list
    /\ (Forall (fun r => compilation_status r <> "success" /\ fixes_applied r <> 0) new ->
        final_status (fst (fst (rounds_loop rounds results self w)))
        = "max_iterations_reached"
        /\ List.length new = List.length rounds).
Proof.
  induction rounds as [|i rounds IH]; intros results self w; simpl.
  - exists []; split; [now rewrite app_nil_r | intros _; split; reflexivity].
  - destruct (round i self w) as [[r self'] w'].
    destruct (compilation_status r =? "success") eqn:S; simpl.
    + exists [r]; split; [reflexivity|].
      intros F; inversion F as [|? ? [Hs _] _]; subst.
      apply String.eqb_eq in S; contradiction.
    + destruct (fixes_applied r =? 0)%nat eqn:Z; simpl.
      * exists [r]; split; [reflexivity|].
        intros F; inversion F as [|? ? [_ Hf] _]; subst.
        apply Nat.eqb_eq in Z; contradiction.
      * destruct (IH (record_iteration r results) self' w') as [new [E K]].
        exists (r :: new); split.
        { rewrite E; simpl; now rewrite <- app_assoc. }
        intros F; inversion F as [|? ? _ F']; subst.
        destruct (K F') as [K1 K2]; split; [exact K1 | simpl; now rewrite K2].
Qed.

(** A round without success and without fix ends the loop: its record is
    the last one, and the final status is left as it was. *)
Lemma no_progress_stops : forall i rounds results self w r self' w',
  round i self w = (r, self', w') ->
  compilation_status r <> "success" -> fixes_applied r = 0 ->
  rounds_loop (i :: rounds) results self w = (record_iteration r results, self', w').
Proof.
  intros i rounds results self w r self' w' R S F; simpl. rewrite R.
  apply String.eqb_neq in S. rewrite S, F. reflexivity.
Qed.

(** The working directory of a run is the source directory with the
    writes of its log replayed, and the final directory is its copy. *)
Lemma migration_replays : forall self source_dir,
  working_dir (migration self source_dir)
  = replay (trace (migration self source_dir)) source_dir
  /\ final_migrated_code (migration self source_dir)
     = working_dir (migration self source_dir).
Proof.
  intros self source_dir; unfold execute_migration.
  pose proof (rounds_loop_grows
                (seq 1 (max_iterations (_initialize_agent initialize_agent self)))
                (MkResults [] "unknown" [] [] 0
                   match agent_executor (_initialize_agent initialize_agent self) with
                   | Some _ => true
                   | None => false
                   end)
                (_initialize_agent initialize_agent self)
                (MkWorld source_dir [])) as [evs [[L F] _]].
  destruct (rounds_loop _ _ _ _) as [[res self'] w']; simpl in *.
  rewrite L, F; split; reflexivity.
Qed.

(** C10.  On a working directory without source files the syntax check
    of a round answers [no_python_files], not [success], and a run over
    such a directory never ends with the final status [success],
    whatever the round budget and the agent. *)
Theorem C10_empty_tree_never_succeeds : forall self : Self AgentSt LLMManager,
  attempt [] = MkCompilation "no_python_files" []
  /\ final_status (results (migration self [])) <> "success".
Proof.
  intros self; split; [reflexivity|].
  unfold execute_migration.
  destruct (max_iterations (_initialize_agent initialize_agent self)) as [|n]; simpl.
  - discriminate.
  - discriminate.
Qed.

(** C6 (amended).  When the source directory is not empty, every file of
    it passes the syntax check and the round budget is at least one, the
    run ends in its first round with the final status [success]: one
    round is recorded, with one compilation attempt and no fix, no tool
    runs, no file is written, the agent is not called, and the final
    directory is the source directory. *)
Theorem C6_valid_tree_succeeds_at_once :
  forall (self : Self AgentSt LLMManager) (source_dir : Tree),
  source_dir <> [] -> 1 <= max_iterations self -> all_pass py_compile source_dir ->
  final_status (results (migration self source_dir)) = "success"
  /\ iterations (results (migration self source_dir))
     = [MkIteration 1 "success" 1 [] 0 [] []]
  /\ trace (migration self source_dir) = []
  /\ final_migrated_code (migration self source_dir) = source_dir
  /\ executor (migration self source_dir) = _initialize_agent initialize_agent self.
Proof.
  intros self source_dir Hne Hmax Hall; unfold execute_migration.
  rewrite initialize_keeps_budget.
  destruct (max_iterations self) as [|n] eqn:M; [lia|].
  simpl seq; simpl iterate.
  rewrite round_on_valid_tree by assumption; simpl.
  repeat split.
Qed.

(** C7 (amended).  When no round of the run ended in [success] and every
    round applied at least one fix, the loop ran [max_iterations] rounds
    and the final status is [max_iterations_reached]; the final directory
    is the working directory as the rounds left it, that is the source
    directory with every write of the run applied in order. *)
Theorem C7_exhausted_run_keeps_its_writes :
  forall (self : Self AgentSt LLMManager) (source_dir : Tree),
  Forall (fun r => compilation_status r <> "success" /\ fixes_applied r <> 0)
    (iterations (results (migration self source_dir))) ->
  final_status (results (migration self source_dir)) = "max_iterations_reached"
  /\ List.length (iterations (results (migration self source_dir))) = max_iterations self
  /\ final_migrated_code (migration self source_dir)
     = replay (trace (migration self source_dir)) source_dir.
Proof.
  intros self source_dir.
  destruct (migration_replays self source_dir) as [R1 R2].
  rewrite R2, R1. clear R1 R2.
  unfold execute_migration.
  destruct (rounds_loop_exhausted
              (seq 1 (max_iterations (_initialize_agent initialize_agent self)))
              (MkResults [] "unknown" [] [] 0
                 match agent_executor (_initialize_agent initialize_agent self) with
                 | Some _ => true
                 | None => false
                 end)
              (_initialize_agent initialize_agent self)
              (MkWorld source_dir [])) as [new [E K]].
  destruct (rounds_loop _ _ _ _) as [[res self'] w']; simpl in *.
  intros F. rewrite E in F. destruct (K F) as [K1 K2].
  rewrite E, K1, K2, length_seq, initialize_keeps_budget.
  repeat split.
Qed.

(** ** The fallback chain *)


(** ** An agent that always raises *)

Lemma failing_agent_file : always_raises agent_invoke ->
  forall errors iteration (st : AgentPass AgentSt) py_file,
  let p := per_file errors iteration st py_file in
  (pass_fixes p, pass_result p, pass_world p)
  = chain_file py_compile tool_run (pass_fixes st, pass_result st, pass_world st) py_file.
Proof.
  intros H errors iteration st py_file; unfold agent_file, chain_file.
  destruct (read (fs (pass_world st)) py_file) as [original_code|why]; [|reflexivity].
  destruct (H (pass_agent st)
              (_create_agent_prompt_for_file py_file original_code errors iteration))
    as [msg Hm].
  destruct (agent_invoke (pass_agent st) _) as [agent reply]; simpl in Hm; subst reply.
  unfold fallback_for; simpl.
  destruct (chain py_file original_code (pass_world st)) as [[|] w']; reflexivity.
Qed.

Lemma failing_agent_files : always_raises agent_invoke ->
  forall errors iteration l (st : AgentPass AgentSt),
  let p := fold_left (per_file errors iteration) l st in
  (pass_fixes p, pass_result p, pass_world p)
  = fold_left (chain_file py_compile tool_run) l
      (pass_fixes st, pass_result st, pass_world st).
Proof.
  intros H errors iteration l; induction l as [|f l IH]; intros st; simpl.
  - reflexivity.
  - rewrite IH. f_equal. apply (failing_agent_file H).
Qed.

(** C5 (amended).  When the agent raises on every call, the fixing pass
    of a round is the fallback chain applied to every readable file: the
    number of fixes, the record of the round (one [fallback_tools] entry
    for each file the chain rewrote, no agent step) and the working
    directory with its log are those of [chain_pass]. *)
Theorem C5_failing_agent_is_the_chain : always_raises agent_invoke ->
  forall errors iteration r agent w,
  let p := agent_round errors iteration r agent w in
  (pass_fixes p, pass_result p, pass_world p) = chain_pass py_compile tool_run r w.
Proof.
  intros H errors iteration r agent w; unfold _execute_with_langchain_agent, chain_pass.
  apply (failing_agent_files H errors iteration (rglob (fs w)) (MkPass 0 r agent w)).
Qed.

(** ** Outcomes that change nothing *)

Local Abbreviation unchanged_by := (no_op tool_run).

Lemma no_op_not_accepted : forall t code,
  unchanged_by t code -> accepts t code = false /\ carried t code = code.
Proof.
  intros t code H; unfold accepted, accumulated; rewrite H, chain_accepts_same.
  split; reflexivity.
Qed.

Lemma manual_file_no_op : forall tool st py_file code,
  read (fs (snd st)) py_file = Text code -> unchanged_by tool code ->
  manual_file tool_run tool st py_file = (fst st, logged (ToolRun tool code) (snd st)).
Proof.
  intros tool [n w] py_file code R H; unfold manual_file, run_tool; simpl in *.
  rewrite R, H, String.eqb_refl, andb_false_r; reflexivity.
Qed.

Lemma manual_files_no_op : forall tool t,
  (forall py_file code, read t py_file = Text code -> unchanged_by tool code) ->
  forall l n w, fs w = t ->
  let out := fold_left (manual_file tool_run tool) l (n, w) in
  fst out = n /\ fs (snd out) = t /\ written (log (snd out)) = written (log w).
Proof.
  intros tool t H l; induction l as [|f l IH]; intros n w F; simpl.
  - repeat split; exact F.
  - destruct (read t f) as [code|why] eqn:R.
    + rewrite (manual_file_no_op tool (n, w) f code) by (simpl; try rewrite F; eauto).
      simpl. destruct (IH n (logged (ToolRun tool code) w) F) as [I1 [I2 I3]].
      repeat split; [exact I1 | exact I2 |].
      rewrite I3; simpl; rewrite written_app; simpl; apply app_nil_r.
    + replace (manual_file tool_run tool (n, w) f) with (n, w)
        by (unfold manual_file; simpl; rewrite F, R; reflexivity).
      apply IH, F.
Qed.

(** C8.  A tool outcome whose text equals the input text is never
    written and never counted, on each fixing path.  In the chain such an
    outcome leaves the carried text and the modified flag as they were,
    and a chain of such outcomes writes nothing and reports no fix.  In
    the manual fallback such an outcome leaves the file and the count of
    modified files as they were, and a tool with only such outcomes adds
    nothing to [fixes_applied] nor to [tools_used].  On the agent path a
    text equal to the original leaves the count, the record and the
    working directory as they were when it is not empty, and hands the
    file to the chain when it is. *)
Theorem C8_no_op_is_neither_written_nor_counted :
  (forall t st w, unchanged_by t (fst st) ->
     apply_tool py_compile tool_run t st w = (st, logged (ToolRun t (fst st)) w))
  /\ (forall py_file code w, (forall t, unchanged_by t code) ->
        fst (chain py_file code w) = false
        /\ fs (snd (chain py_file code w)) = fs w
        /\ written (log (snd (chain py_file code w))) = written (log w))
  /\ (forall tool st py_file code,
        read (fs (snd st)) py_file = Text code -> unchanged_by tool code ->
        manual_file tool_run tool st py_file
        = (fst st, logged (ToolRun tool code) (snd st)))
  /\ (forall tool n r w,
        (forall py_file code, read (fs w) py_file = Text code -> unchanged_by tool code) ->
        let out := manual_tool tool_run (n, r, w) tool in
        fst out = (n, r) /\ fs (snd out) = fs w
        /\ written (log (snd out)) = written (log w))
  /\ (forall errors iteration (st : AgentPass AgentSt) py_file code agent result agent_output,
        read (fs (pass_world st)) py_file = Text code ->
        agent_invoke (pass_agent st)
          (_create_agent_prompt_for_file py_file code errors iteration)
        = (agent, Returned result) ->
        output result = Some agent_output ->
        _extract_code_from_agent_output py_compile json_loads agent_output = Some code ->
        per_file errors iteration st py_file
        = if truthy code
          then MkPass (pass_fixes st) (pass_result st) agent (pass_world st)
          else fallback "fallback_after_agent" py_file code
                 (MkPass (pass_fixes st) (pass_result st) agent (pass_world st))).
Proof.
  split; [|split; [|split; [|split]]].
  - intros t [c m] w H; rewrite apply_tool_eq; simpl in *.
    destruct (no_op_not_accepted t c H) as [-> ->].
    now rewrite orb_false_r.
  - intros py_file code w H; rewrite chain_eq.
    destruct (contains_any python2_markers code).
    + destruct (no_op_not_accepted _ _ (H Python2To3Tool)) as [A1 ->].
      destruct (no_op_not_accepted _ _ (H PyUpgradeTool)) as [A2 ->].
      destruct (no_op_not_accepted _ _ (H ModernizeTool)) as [A3 ->].
      rewrite A1, A2, A3; simpl; repeat split.
      rewrite !written_app; simpl; now rewrite !app_nil_r.
    + destruct (no_op_not_accepted _ _ (H PyUpgradeTool)) as [A2 ->].
      destruct (no_op_not_accepted _ _ (H ModernizeTool)) as [A3 ->].
      rewrite A2, A3; simpl; repeat split.
      rewrite !written_app; simpl; now rewrite !app_nil_r.
  - exact manual_file_no_op.
  - intros tool n r w H; unfold manual_tool.
    destruct (manual_files_no_op tool (fs w) H (rglob (fs w)) 0 w eq_refl)
      as [I1 [I2 I3]].
    destruct (fold_left (manual_file tool_run tool) (rglob (fs w)) (0, w)) as [k w'].
    simpl in *; subst k; simpl. repeat split; assumption.
  - intros errors iteration st py_file code agent result agent_output R I O E.
    unfold agent_file. rewrite R, I, O, E, String.eqb_refl, andb_false_r; reflexivity.
Qed.

(** X1.  On the agent path, fallback chain included, every text written
    to a file passed the validity check: the working directory after the
    pass is the one before it with the writes of the events replayed, and
    each text written is accepted by [_validate_python_code]. *)
Theorem X1_agent_path_writes_valid_text : forall errors iteration r agent w,
  exists evs,
    after w evs (pass_world (agent_round errors iteration r agent w))
    /\ Forall (fun code => valid code = true) (written evs).
Proof.
  intros errors iteration r agent w.
  destruct (agent_round_grows errors iteration r agent w) as [evs [A V]].
  exists evs; split; [exact A | exact V].
Qed.

End ExecutorFacts.

(** ** What a pattern needs to match *)

Lemma is_suffix_refl : forall s, is_suffix s s.
Proof. intros s; exists ""; reflexivity. Qed.

Lemma is_suffix_trans : forall a b c, is_suffix a b -> is_suffix b c -> is_suffix a c.
Proof.
  intros a b c [p ->] [q ->]; exists (q ++ p).
  induction q as [|x q IH]; simpl; [reflexivity | now rewrite IH].
Qed.

Lemma is_suffix_tail : forall b s, is_suffix s (String b s).
Proof. intros b s; exists (String b ""); reflexivity. Qed.

Lemma eat_suffix : forall ic l st st',
  eat ic l st = Some st' -> is_suffix (rest st') (rest st).
Proof.
  intros ic l; induction l as [|a l IH]; intros st st' H; simpl in H.
  - injection H as <-; apply is_suffix_refl.
  - destruct st as [p r c]; simpl in *. destruct r as [|b r]; [discriminate|].
    destruct (char_eq ic a b); [|discriminate].
    apply IH in H; simpl in H.
    eapply is_suffix_trans; [exact H | apply is_suffix_tail].
Qed.

Lemma one_suffix : forall p st st',
  one p st = Some st' -> is_suffix (rest st') (rest st).
Proof.
  intros p [pr r c] st'; unfold one; simpl.
  destruct r as [|b r]; [discriminate|].
  destruct (p b); [|discriminate].
  intros H; injection H as <-; simpl; apply is_suffix_tail.
Qed.

Lemma star_loop_reaches : forall (A : Type) greedy
    (body : (mstate -> option A) -> mstate -> option A) (k : mstate -> option A),
  (forall k' st x, body k' st = Some x ->
     exists st', is_suffix (rest st') (rest st) /\ k' st' = Some x) ->
  forall n st x, star_loop greedy body k n st = Some x ->
    exists st', is_suffix (rest st') (rest st) /\ k st' = Some x.
Proof.
  intros A greedy body k Hbody n; induction n as [|n IHn]; intros st x H; simpl in H.
  - exists st; split; [apply is_suffix_refl | exact H].
  - assert (Again : forall y,
              body (fun st1 =>
                      if (String.length (rest st1) <? String.length (rest st))%nat
                      then star_loop greedy body k n st1 else None) st = Some y ->
              exists st', is_suffix (rest st') (rest st) /\ k st' = Some y).
    { intros y Hy. apply Hbody in Hy as [st1 [S1 Hy]].
      destruct (_ <? _)%nat; [|discriminate].
      apply IHn in Hy as [st2 [S2 Hy]].
      exists st2; split; [eapply is_suffix_trans; eassumption | exact Hy]. }
    unfold orelse in H. destruct greedy.
    + destruct (body _ st) as [a|].
      * injection H as <-. exact (Again a eq_refl).
      * exists st; split; [apply is_suffix_refl | exact H].
    + destruct (k st) eqn:E.
      * exists st; split; [apply is_suffix_refl | now rewrite E].
      * now apply Again in H.
Qed.

Lemma run_reaches : forall (A : Type) ic r (k : mstate -> option A) st x,
  run ic r k st = Some x ->
  exists st', is_suffix (rest st') (rest st) /\ k st' = Some x.
Proof.
  intros A ic r; induction r as [l| |cs| |r1 IH1 r2 IH2|r1 IH1 r2 IH2|g r1 IH1|r1 IH1|c];
    intros k st x H.
  - simpl in H. destruct (eat ic l st) as [st'|] eqn:E; [|discriminate].
    exists st'; split; [now apply eat_suffix in E | exact H].
  - simpl in H. destruct (one (fun _ => true) st) as [st'|] eqn:E; [|discriminate].
    exists st'; split; [now apply one_suffix in E | exact H].
  - simpl in H. destruct (one _ st) as [st'|] eqn:E; [|discriminate].
    exists st'; split; [now apply one_suffix in E | exact H].
  - simpl in H. destruct (one is_space st) as [st'|] eqn:E; [|discriminate].
    exists st'; split; [now apply one_suffix in E | exact H].
  - simpl in H. apply IH1 in H as [st1 [S1 H]]. apply IH2 in H as [st2 [S2 H]].
    exists st2; split; [eapply is_suffix_trans; eassumption | exact H].
  - simpl in H. unfold orelse in H. destruct (run ic r1 k st) eqn:E.
    + rewrite H in E. now apply IH1 in E.
    + now apply IH2 in H.
  - exact (star_loop_reaches A g (run ic r1) k IH1 _ st x H).
  - simpl in H. apply IH1 in H as [st1 [S1 H]].
    eexists; split; [|exact H]. exact S1.
  - simpl in H. destruct (prev st) as [b|].
    + destruct (Ascii.eqb b c); [discriminate|].
      exists st; split; [apply is_suffix_refl | exact H].
    + exists st; split; [apply is_suffix_refl | exact H].
Qed.

Lemma backquote_caseless : caseless "`"%char.
Proof.
  intros [] b; unfold char_eq.
  - destruct b as [[] [] [] [] [] [] [] []]; vm_compute; intros H;
      first [reflexivity | discriminate].
  - intros H; apply Ascii.eqb_eq in H; now subst.
Qed.

Lemma mem_suffix : forall c t s, is_suffix t s -> mem c t = true -> mem c s = true.
Proof.
  intros c t s [p ->] H; induction p as [|a p IH]; simpl; [exact H|].
  rewrite IH; apply orb_true_r.
Qed.

Lemma eat_mem : forall c, caseless c -> forall ic l st st',
  eat ic l st = Some st' -> mem c l = true -> mem c (rest st) = true.
Proof.
  intros c Hc ic l; induction l as [|a l IH]; intros st st' H M; simpl in *;
    [discriminate|].
  destruct st as [p r cp]; simpl in *. destruct r as [|b r]; [discriminate|].
  destruct (char_eq ic a b) eqn:E; [|discriminate].
  apply orb_true_iff in M as [M|M].
  - apply Ascii.eqb_eq in M; subst a. apply Hc in E; subst b.
    simpl; now rewrite Ascii.eqb_refl.
  - pose proof (IH _ _ H M) as K; simpl in K. simpl; rewrite K; apply orb_true_r.
Qed.

Lemma demands_char_sound : forall c, caseless c ->
  forall (A : Type) ic r (k : mstate -> option A) st x,
  demands_char c r = true -> run ic r k st = Some x -> mem c (rest st) = true.
Proof.
  intros c Hc A ic r;
    induction r as [l| |cs| |r1 IH1 r2 IH2|r1 IH1 r2 IH2|g r1 IH1|r1 IH1|c'];
    intros k st x D H; simpl in D, H; try discriminate.
  - destruct (eat ic l st) as [st'|] eqn:E; [|discriminate].
    eapply eat_mem; eassumption.
  - apply orb_true_iff in D as [D|D].
    + eapply IH1; eassumption.
    + apply run_reaches in H as [st1 [S1 H]].
      eapply mem_suffix; [exact S1 | eapply IH2; eassumption].
  - apply andb_true_iff in D as [D1 D2]. unfold orelse in H.
    destruct (run ic r1 k st) eqn:E.
    + eapply IH1; eassumption.
    + eapply IH2; eassumption.
  - eapply IH1; eassumption.
Qed.

Lemma search_from_demands : forall c, caseless c -> forall ic r p s g,
  demands_char c r = true -> search_from ic r p s = Some g -> mem c s = true.
Proof.
  intros c Hc ic r p s; revert p; induction s as [|a s IH]; intros p g D H; simpl in H.
  - destruct (run ic r _ _) eqn:E; [|discriminate].
    apply (demands_char_sound c Hc _ _ _ _ _ _ D) in E. exact E.
  - destruct (run ic r _ _) eqn:E.
    + apply (demands_char_sound c Hc _ _ _ _ _ _ D) in E. exact E.
    + apply IH in H; [|exact D]. simpl; rewrite H; apply orb_true_r.
Qed.

Lemma search_demands : forall c, caseless c -> forall ic r s,
  demands_char c r = true -> mem c s = false -> search ic r s = None.
Proof.
  intros c Hc ic r s D M; unfold search.
  destruct (search_from ic r None s) as [g|] eqn:E; [|reflexivity].
  apply (search_from_demands c Hc _ _ _ _ _ D) in E. congruence.
Qed.

Lemma startswith_trans : forall a b c,
  startswith a b = true -> startswith b c = true -> startswith a c = true.
Proof.
  induction a as [|x a IH]; intros b c H1 H2; [reflexivity|].
  destruct b as [|y b]; [discriminate|]. destruct c as [|z c]; [discriminate|].
  simpl in *. destruct (Ascii.eqb x y) eqn:E1; [|discriminate].
  destruct (Ascii.eqb y z) eqn:E2; [|discriminate].
  apply Ascii.eqb_eq in E1, E2; subst. rewrite Ascii.eqb_refl. eapply IH; eassumption.
Qed.

Lemma contains_unfold : forall lit s,
  contains lit s = if startswith lit s then true
                   else match s with
                        | EmptyString => false
                        | String _ s' => contains lit s'
                        end.
Proof. intros lit [|a s]; reflexivity. Qed.

Lemma startswith_contains : forall lit l s,
  startswith l s = true -> contains lit l = true -> contains lit s = true.
Proof.
  intros lit l; induction l as [|a l IH]; intros s P C;
    rewrite contains_unfold in C; rewrite contains_unfold.
  - destruct (startswith lit "") eqn:E; [|discriminate].
    now rewrite (startswith_trans _ _ _ E P).
  - destruct (startswith lit (String a l)) eqn:E.
    + now rewrite (startswith_trans _ _ _ E P).
    + destruct s as [|b s]; [discriminate|]. simpl in P.
      destruct (Ascii.eqb a b); [|discriminate].
      rewrite (IH _ P C). now destruct (startswith lit (String b s)).
Qed.

Lemma contains_suffix : forall lit t s,
  is_suffix t s -> contains lit t = true -> contains lit s = true.
Proof.
  intros lit t s [p ->] H; induction p as [|a p IH]; simpl append; [exact H|].
  rewrite contains_unfold, IH. now destruct (startswith lit _).
Qed.

Lemma eat_startswith : forall l st st',
  eat false l st = Some st' -> startswith l (rest st) = true.
Proof.
  induction l as [|a l IH]; intros st st' H; [reflexivity|]. simpl in H.
  destruct st as [p r c]; simpl in *. destruct r as [|b r]; [discriminate|].
  unfold char_eq in H. destruct (Ascii.eqb a b); [|discriminate].
  apply IH in H; exact H.
Qed.

Lemma demands_text_sound : forall lit (A : Type) r (k : mstate -> option A) st x,
  demands_text lit r = true -> run false r k st = Some x ->
  contains lit (rest st) = true.
Proof.
  intros lit A r;
    induction r as [l| |cs| |r1 IH1 r2 IH2|r1 IH1 r2 IH2|g r1 IH1|r1 IH1|c'];
    intros k st x D H; simpl in D; try discriminate.
  - simpl in H. destruct (eat false l st) as [st'|] eqn:E; [|discriminate].
    apply eat_startswith in E. eapply startswith_contains; eassumption.
  - simpl in H. apply orb_true_iff in D as [D|D].
    + eapply IH1; eassumption.
    + apply run_reaches in H as [st1 [S1 H]].
      eapply contains_suffix; [exact S1 | eapply IH2; eassumption].
  - simpl in H. apply andb_true_iff in D as [D1 D2]. unfold orelse in H.
    destruct (run false r1 k st) eqn:E.
    + eapply IH1; eassumption.
    + eapply IH2; eassumption.
  - simpl in H. eapply IH1; eassumption.
Qed.

Lemma search_from_demands_text : forall lit r p s g,
  demands_text lit r = true -> search_from false r p s = Some g ->
  contains lit s = true.
Proof.
  intros lit r p s; revert p; induction s as [|a s IH]; intros p g D H; simpl in H.
  - destruct (run false r _ _) eqn:E; [|discriminate].
    apply (demands_text_sound lit _ _ _ _ _ D) in E. exact E.
  - destruct (run false r _ _) eqn:E.
    + apply (demands_text_sound lit _ _ _ _ _ D) in E. exact E.
    + apply IH in H; [|exact D].
      rewrite contains_unfold, H. now destruct (startswith lit _).
Qed.

Lemma search_demands_text : forall lit r s,
  demands_text lit r = true -> contains lit s = false -> search false r s = None.
Proof.
  intros lit r s D M; unfold search.
  destruct (search_from false r None s) as [g|] eqn:E; [|reflexivity].
  apply (search_from_demands_text lit _ _ _ _ D) in E. congruence.
Qed.

Lemma scan_without_indicator : forall lines,
  Forall (fun line => contains_any start_indicators line = false) lines ->
  scan_python_like false lines = [].
Proof.
  induction 1 as [|line lines H _ IH]; [reflexivity|].
  cbn [scan_python_like]. rewrite H. exact IH.
Qed.

Lemma stripped_groups_demands : forall ic ps text,
  forallb (demands_char "`"%char) ps = true -> mem "`"%char text = false ->
  stripped_groups ic ps text = [].
Proof.
  intros ic ps text; induction ps as [|p ps IH]; intros D M; [reflexivity|].
  simpl in D; apply andb_true_iff in D as [D1 D2].
  unfold stripped_groups; simpl.
  rewrite (search_demands _ backquote_caseless ic p text D1 M); simpl.
  apply (IH D2 M).
Qed.

Lemma prose_has_no_candidate : forall json_loads agent_output,
  plain_prose agent_output -> candidates json_loads agent_output = [].
Proof.
  intros json_loads agent_output [B [K L]]; unfold candidates.
  rewrite (stripped_groups_demands true patterns agent_output eq_refl B).
  rewrite (stripped_groups_demands true tool_output_patterns agent_output eq_refl B).
  rewrite (scan_without_indicator _ L).
  rewrite (search_demands _ backquote_caseless true permissive_pattern agent_output
             eq_refl B).
  assert (J : forall ps, forallb (demands_text action_key) ps = true ->
     flat_map (fun p => match search false p agent_output with
                      | Some json_content =>
                          stripped_groups false code_patterns
                            (decode_json_content json_loads json_content)
                      | None => []
                      end) ps = []).
  { induction ps as [|p ps IH]; intros D; [reflexivity|].
    simpl in D; apply andb_true_iff in D as [D1 D2]. simpl.
    rewrite (search_demands_text action_key p agent_output D1 K); simpl.
    apply (IH D2). }
  rewrite (J json_patterns eq_refl).
  destruct (contains "```python" (lower agent_output)); reflexivity.
Qed.

(** ** The extractors *)

Lemma first_some_in : forall (A B : Type) (f : A -> option B) l b,
  first_some f l = Some b -> exists a, In a l /\ f a = Some b.
Proof.
  intros A B f l b; induction l as [|a l IH]; simpl; [discriminate|].
  destruct (f a) eqn:E.
  - intros H; injection H as <-. exists a; split; [now left | exact E].
  - intros H; destruct (IH H) as [a' [Hin Ha]]. exists a'; split; [now right | exact Ha].
Qed.

Lemma first_some_none : forall (A B : Type) (f : A -> option B) l,
  (forall a, In a l -> f a = None) -> first_some f l = None.
Proof.
  intros A B f l; induction l as [|a l IH]; simpl; intros H; [reflexivity|].
  rewrite (H a (or_introl eq_refl)). apply IH. intros a' Hin; apply H; now right.
Qed.

Section ExtractorFacts.

Variable py_compile : string -> string -> CompileOutcome.
Variable json_loads : string -> option string.

Local Abbreviation valid := (_validate_python_code py_compile).
Local Abbreviation extract := (_extract_code_from_agent_output py_compile json_loads).

Lemma accept_stripped_valid : forall g code,
  accept_stripped py_compile g = Some code -> code = strip g /\ valid code = true.
Proof.
  intros g code; unfold accept_stripped.
  destruct (truthy (strip g) && valid (strip g)) eqn:E; [|discriminate].
  intros H; injection H as <-.
  apply andb_true_iff in E as [_ E]; split; [reflexivity | exact E].
Qed.

Lemma accept_stripped_invalid : forall g,
  valid (strip g) = false -> accept_stripped py_compile g = None.
Proof.
  intros g H; unfold accept_stripped; rewrite H, andb_false_r; reflexivity.
Qed.

Lemma try_patterns_valid : forall ic ps text code,
  try_patterns py_compile ic ps text = Some code ->
  valid code = true /\ In code (stripped_groups ic ps text).
Proof.
  intros ic ps text code H; unfold try_patterns in H.
  apply first_some_in in H as [p [Hin Hp]].
  destruct (search ic p text) as [g|] eqn:S; [|discriminate].
  apply accept_stripped_valid in Hp as [-> V]; split; [exact V|].
  unfold stripped_groups; apply in_flat_map.
  exists p; split; [exact Hin | rewrite S; now left].
Qed.

Lemma try_patterns_none : forall ic ps text,
  (forall code, In code (stripped_groups ic ps text) -> valid code = false) ->
  try_patterns py_compile ic ps text = None.
Proof.
  intros ic ps text H; unfold try_patterns.
  apply first_some_none; intros p Hin.
  destruct (search ic p text) as [g|] eqn:S; [|reflexivity].
  apply accept_stripped_invalid, H.
  unfold stripped_groups; apply in_flat_map.
  exists p; split; [exact Hin | rewrite S; now left].
Qed.

(** C3 (amended).  The extractor of agent output returns a text only
    after that text passed the validity check, and the text is one that
    one of its strategies recovered; when the check rejects every text
    the strategies recover, the extractor returns [None]; so it does,
    whatever the check, on prose without backquote, without action
    payload and without a line that looks like the start of code. *)
Theorem C3_agent_output_extractor_validates : forall agent_output,
  (forall code, extract agent_output = Some code ->
     valid code = true /\ In code (candidates json_loads agent_output))
  /\ ((forall code, In code (candidates json_loads agent_output) -> valid code = false) ->
      extract agent_output = None)
  /\ (plain_prose agent_output -> extract agent_output = None).
Proof.
  intros agent_output.
  assert (Main :
    (forall code, extract agent_output = Some code ->
       valid code = true /\ In code (candidates json_loads agent_output))
    /\ ((forall code, In code (candidates json_loads agent_output) -> valid code = false) ->
        extract agent_output = None)).
  2: { destruct Main as [M1 M2]; split; [exact M1 | split; [exact M2|]].
       intros P; apply M2; rewrite (prose_has_no_candidate json_loads _ P).
       intros code Hin; destruct Hin. }
  unfold _extract_code_from_agent_output, candidates; split.
  - intros code.
    destruct (from_action_input py_compile json_loads agent_output) as [c|] eqn:S1.
    { intros H; injection H as <-. unfold from_action_input in S1.
      apply first_some_in in S1 as [p [Hin Hp]].
      destruct (search false p agent_output) as [json_content|] eqn:S; [|discriminate].
      apply try_patterns_valid in Hp as [V Hc]; split; [exact V|].
      apply in_or_app; left. apply in_flat_map.
      exists p; split; [exact Hin | now rewrite S]. }
    destruct (try_patterns py_compile true patterns agent_output) as [c|] eqn:S2.
    { intros H; injection H as <-.
      apply try_patterns_valid in S2 as [V Hc]; split; [exact V|].
      apply in_or_app; right; apply in_or_app; now left. }
    destruct (try_patterns py_compile true tool_output_patterns agent_output)
      as [c|] eqn:S3.
    { intros H; injection H as <-.
      apply try_patterns_valid in S3 as [V Hc]; split; [exact V|].
      apply in_or_app; right; apply in_or_app; right; apply in_or_app; now left. }
    destruct (from_heuristic py_compile agent_output) as [c|] eqn:S4.
    { intros H; injection H as <-. unfold from_heuristic in S4.
      destruct (scan_python_like false (split_lines agent_output)) as [|l ls];
        [discriminate|].
      destruct (valid (join_lines (l :: ls))) eqn:V; [|discriminate].
      injection S4 as <-; split; [exact V|].
      do 3 (apply in_or_app; right). apply in_or_app; left; now left. }
    unfold from_permissive.
    destruct (contains "```python" (lower agent_output)); [|discriminate].
    destruct (search true permissive_pattern agent_output) as [g|]; [|discriminate].
    destruct (valid (strip g)) eqn:V; [|discriminate].
    intros H; injection H as <-; split; [exact V|].
    do 4 (apply in_or_app; right). now left.
  - intros H.
    assert (S1 : from_action_input py_compile json_loads agent_output = None).
    { unfold from_action_input; apply first_some_none; intros p Hin.
      destruct (search false p agent_output) as [json_content|] eqn:S; [|reflexivity].
      apply try_patterns_none; intros code Hc; apply H.
      apply in_or_app; left. apply in_flat_map.
      exists p; split; [exact Hin | now rewrite S]. }
    assert (S2 : try_patterns py_compile true patterns agent_output = None).
    { apply try_patterns_none; intros code Hc; apply H.
      apply in_or_app; right; apply in_or_app; now left. }
    assert (S3 : try_patterns py_compile true tool_output_patterns agent_output = None).
    { apply try_patterns_none; intros code Hc; apply H.
      apply in_or_app; right; apply in_or_app; right; apply in_or_app; now left. }
    rewrite S1, S2, S3.
    assert (S4 : from_heuristic py_compile agent_output = None).
    { unfold from_heuristic.
      destruct (scan_python_like false (split_lines agent_output)) as [|l ls] eqn:L;
        [reflexivity|].
      rewrite H; [reflexivity|].
      do 3 (apply in_or_app; right). apply in_or_app; left. now left. }
    rewrite S4. unfold from_permissive.
    destruct (contains "```python" (lower agent_output)) eqn:C; [|reflexivity].
    destruct (search true permissive_pattern agent_output) as [g|] eqn:G; [|reflexivity].
    rewrite H; [reflexivity|].
    do 4 (apply in_or_app; right). now left.
Qed.

End ExtractorFacts.

(** ** The tools *)

Lemma strip_truthy : forall code, truthy (strip code) = true -> truthy code = true.
Proof. intros [|c code]; [discriminate | reflexivity]. Qed.

Section ToolFacts.

Import Tools.

Variable which : string -> bool.
Variable subprocess_run : list string -> Result Completed.
Variable write_temp : string -> Result string.
Variable read_temp : string -> Result string.
Variable remove_temp : string -> Result unit.
Variable ast_parse : string -> Result unit.
Variable modernize_patterns : string -> string * list string.
Variable target_version : string.
Variable detect_python2 : string -> list string.
Variable lib2to3_tool : Result unit.
Variable refactor_string : string -> Result (option string).
Variable _pattern_based_migration : string -> string * list string.
Variable _detect_compatibility_issues : string -> list string.
Variable _pattern_based_modernization : string -> string * list string.

Local Abbreviation tool_run :=
  (run which subprocess_run write_temp read_temp remove_temp ast_parse
     modernize_patterns target_version detect_python2 lib2to3_tool refactor_string
     _pattern_based_migration _detect_compatibility_issues
     _pattern_based_modernization).

Lemma guarded_returns : forall (body : Result string) (handler : Exn -> string),
  exists report, try_except body (fun e => Return (handler e)) = Return report.
Proof.
  intros [report|e] handler; simpl; eexists; reflexivity.
Qed.

Lemma help_fails_without_binary : no_binary subprocess_run ->
  forall cmd, help_succeeds subprocess_run cmd = Return false.
Proof.
  intros H cmd; unfold help_succeeds.
  destruct (H cmd) as [e [-> K]]; simpl.
  unfold is_kind; simpl. rewrite K; reflexivity.
Qed.

Lemma pyupgrade_unavailable : which "pyupgrade" = false -> no_binary subprocess_run ->
  _check_pyupgrade_available which subprocess_run = Return false.
Proof.
  intros W H; unfold _check_pyupgrade_available; rewrite W.
  apply (help_fails_without_binary H).
Qed.

Lemma modernize_unavailable : no_binary subprocess_run ->
  _check_modernize_available subprocess_run = Return false.
Proof.
  intros H; unfold _check_modernize_available.
  rewrite (help_fails_without_binary H); simpl.
  apply (help_fails_without_binary H).
Qed.


End ToolFacts.

(** ** The claims on the concrete environment *)

Section Examples.

Import Sample.

(** C1.  Without agent the manual fallback writes what [Python2To3Tool]
    returns for a file with a print statement and an exec statement,
    although that text does not pass the validity check; handed to the
    chain (an agent that raises), the same text is refused and nothing is
    written. *)
Theorem C1_manual_fallback_writes_unchecked_text :
  written (trace (migrate 5 None [("a.py", Text two_statements)])) = [half_migrated]
  /\ _validate_python_code compile half_migrated = false
  /\ final_migrated_code (migrate 5 None [("a.py", Text two_statements)])
     = [("a.py", Text half_migrated)]
  /\ written (trace (migrate 5 (Some tt) [("a.py", Text two_statements)])) = [].
Proof. vm_compute; repeat split. Qed.

(** C4.  A round that applies no fix ends the run, and no other round is
    run, but the final status stays [unknown]. *)
Theorem C4_no_progress_leaves_status_unknown :
  results (migrate 5 None [("a.py", Text bad_def)])
  = MkResults
      [MkIteration 1 "failed" 1
         [syntax_error "a.py" (Some 1) "invalid syntax (a.py, line 1)"] 0 [] []]
      "unknown" [] [] 1 false.
Proof. vm_compute; reflexivity. Qed.


(** C3, as worded, fails: the extractor of tool results returns the fenced
    text of a result as it is, valid or not. *)
Lemma C3_counterexample :
  _extract_code_from_result (tool_run Python2To3Tool two_statements) = Some half_migrated
  /\ _validate_python_code compile half_migrated = false
  /\ ~ extractors_validate.
Proof.
  split; [vm_compute; reflexivity|]. split; [vm_compute; reflexivity|].
  intros H.
  destruct (H compile json_loads (tool_run Python2To3Tool two_statements) half_migrated)
    as [_ H2].
  assert (E : _extract_code_from_result (tool_run Python2To3Tool two_statements)
              = Some half_migrated) by (vm_compute; reflexivity).
  specialize (H2 E). vm_compute in H2; discriminate.
Qed.

Lemma failing_agent_raises : always_raises failing_agent.
Proof. intros st prompt; exists "connection refused"; reflexivity. Qed.

(** C5, as worded, fails: with an agent that raises the rounds record
    the files the chain rewrote, without agent they record the tools of
    the manual fallback. *)
Lemma C5_counterexample :
  usage_trace (migrate 5 (Some tt) [("a.py", Text print_stmt)])
  = [[file_entry "fallback_tools" "a.py" "success"]]
  /\ usage_trace (migrate 5 None [("a.py", Text print_stmt)])
     = [[tool_entry "python2to3" 1]]
  /\ ~ failing_agent_changes_nothing.
Proof.
  split; [vm_compute; reflexivity|]. split; [vm_compute; reflexivity|].
  intros H.
  destruct (H compile json_loads tool_run str_error unit failing_agent tt 5
              [("a.py", Text print_stmt)] failing_agent_raises) as [_ H2].
  vm_compute in H2; discriminate.
Qed.

(** C6, as worded, fails on the empty directory, whose run ends with the
    status [unknown], and on a budget of no round, whose run ends with
    [max_iterations_reached] before any check. *)
Lemma C6_counterexample :
  (all_pass compile []
   /\ final_status (results (migrate 5 None [])) = "unknown")
  /\ (all_pass compile [("a.py", Text "x = 1")]
      /\ final_status (results (migrate 0 None [("a.py", Text "x = 1")]))
         = "max_iterations_reached").
Proof.
  split; split.
  - intros f d [].
  - vm_compute; reflexivity.
  - intros f d [E|[]]; injection E as <- <-. exists "x = 1"; split; reflexivity.
  - vm_compute; reflexivity.
Qed.

(** C7, as worded, fails: the last round of the budget ran and did not
    end in success, and the final status is [unknown] because that round
    applied no fix. *)
Lemma C7_counterexample :
  map iteration (iterations (results (migrate 1 None [("a.py", Text bad_def)]))) = [1]
  /\ final_status (results (migrate 1 None [("a.py", Text bad_def)])) = "unknown"
  /\ ~ last_round_means_exhausted.
Proof.
  split; [vm_compute; reflexivity|]. split; [vm_compute; reflexivity|].
  intros H.
  specialize (H compile json_loads tool_run str_error unit failing_agent unit
                (fun _ => Some tt) (executor 1 None) [("a.py", Text bad_def)]
                (MkIteration 1 "failed" 1
                   [syntax_error "a.py" (Some 1) "invalid syntax (a.py, line 1)"] 0 [] [])).
  vm_compute in H.
  assert (E : "unknown" = "max_iterations_reached").
  { apply H; [left; reflexivity | reflexivity | discriminate]. }
  discriminate.
Qed.

(** Instances of the theorems that have hypotheses. *)

Lemma C3_witness :
  _validate_python_code compile print_call = true
  /\ _extract_code_from_agent_output compile json_loads "I could not fix the file." = None.
Proof.
  split.
  - apply (proj1 (C3_agent_output_extractor_validates compile json_loads
                    ("Final Answer" ++ nl ++ "```python" ++ nl ++ print_call ++ nl ++ "```"))
             print_call).
    vm_compute; reflexivity.
  - apply (proj2 (proj2 (C3_agent_output_extractor_validates compile json_loads
                           "I could not fix the file."))).
    split; [reflexivity | split; [reflexivity | repeat constructor]].
Defined.

Lemma C5_witness :
  (let p := _execute_with_langchain_agent compile json_loads tool_run failing_agent
              [] 1 (MkIteration 1 "failed" 1 [] 0 [] []) tt
              (MkWorld [("a.py", Text print_stmt)] []) in
   (pass_fixes p, pass_result p, pass_world p))
  = chain_pass compile tool_run (MkIteration 1 "failed" 1 [] 0 [] [])
      (MkWorld [("a.py", Text print_stmt)] []).
Proof.
  apply (C5_failing_agent_is_the_chain compile json_loads tool_run unit failing_agent
           failing_agent_raises).
Defined.

Lemma C6_witness :
  final_status (results (migrate 5 None [("a.py", Text "x = 1")])) = "success"
  /\ trace (migrate 5 None [("a.py", Text "x = 1")]) = [].
Proof.
  assert (P : all_pass compile [("a.py", Text "x = 1")]).
  { intros f d [E|[]]; injection E as <- <-. exists "x = 1"; split; reflexivity. }
  destruct (C6_valid_tree_succeeds_at_once compile json_loads tool_run str_error unit
              failing_agent unit (fun _ => Some tt) (executor 5 None)
              [("a.py", Text "x = 1")])
    as [S [_ [T _]]].
  - discriminate.
  - simpl; lia.
  - exact P.
  - split; [exact S | exact T].
Defined.

Lemma C7_witness :
  final_status (results (migrate 1 None [("a.py", Text two_statements)]))
  = "max_iterations_reached"
  /\ final_migrated_code (migrate 1 None [("a.py", Text two_statements)])
     = replay (trace (migrate 1 None [("a.py", Text two_statements)]))
         [("a.py", Text two_statements)].
Proof.
  destruct (C7_exhausted_run_keeps_its_writes compile json_loads tool_run str_error unit
              failing_agent unit (fun _ => Some tt) (executor 1 None)
              [("a.py", Text two_statements)])
    as [S [_ R]].
  - vm_compute. repeat constructor; discriminate.
  - split; [exact S | exact R].
Defined.

Lemma C8_witness :
  manual_file tool_run PyUpgradeTool (0, MkWorld [("a.py", Text "x = 1")] []) "a.py"
  = (0, logged (ToolRun PyUpgradeTool "x = 1") (MkWorld [("a.py", Text "x = 1")] [])).
Proof.
  apply (proj1 (proj2 (proj2 (C8_no_op_is_neither_written_nor_counted compile json_loads
                                tool_run unit failing_agent)))
           PyUpgradeTool (0, MkWorld [("a.py", Text "x = 1")] []) "a.py" "x = 1").
  - reflexivity.
  - vm_compute; reflexivity.
Defined.


End Examples.

(** * Further properties *)

(** ** Counted writes *)

Lemma rewrites_app : forall a b t,
  rewrites t (a ++ b)%list <-> rewrites t a /\ rewrites (replay a t) b.
Proof.
  induction a as [|e a IH]; intros b t; simpl.
  - tauto.
  - destruct e as [tool code|py_file code].
    + apply IH.
    + rewrite IH; tauto.
Qed.

Lemma fixing_refl : forall w, fixing w 0 w.
Proof. intros w; exists []; repeat split; apply after_refl. Qed.

Lemma fixing_trans : forall w1 n w2 m w3,
  fixing w1 n w2 -> fixing w2 m w3 -> fixing w1 (n + m) w3.
Proof.
  intros w1 n w2 m w3 [e1 [A1 [R1 L1]]] [e2 [A2 [R2 L2]]].
  exists (e1 ++ e2)%list; split; [eapply after_trans; eassumption|]; split.
  - apply rewrites_app; split; [exact R1|].
    destruct A1 as [_ F1]; rewrite <- F1; exact R2.
  - rewrite written_app, length_app; lia.
Qed.

Lemma fixing_logged : forall t code w, fixing w 0 (logged (ToolRun t code) w).
Proof.
  intros t code w; exists [ToolRun t code]; repeat split.
Qed.

Lemma fixing_write : forall py_file code old w,
  read (fs w) py_file = Text old -> code <> "" ->
  fixing w 1 (write_file py_file code w).
Proof.
  intros py_file code old w R N; exists [FileWrite py_file code]; split;
    [apply after_write_file|]; simpl; repeat split; eauto.
Qed.

Lemma counted_fold : forall (S X T : Type) (P : T -> nat -> T -> Prop)
    (W : S -> T) (N : S -> nat) (f : S -> X -> S),
  (forall t, P t 0 t) ->
  (forall a n b m c, P a n b -> P b m c -> P a (n + m) c) ->
  (forall st x, exists n, N (f st x) = N st + n /\ P (W st) n (W (f st x))) ->
  forall l st, exists n,
    N (fold_left f l st) = N st + n /\ P (W st) n (W (fold_left f l st)).
Proof.
  intros S X T P W N f Hrefl Htrans Hstep l; induction l as [|x l IH]; intros st; simpl.
  - exists 0; split; [lia | apply Hrefl].
  - destruct (Hstep st x) as [n [E1 F1]].
    destruct (IH (f st x)) as [m [E2 F2]].
    exists (n + m); split; [lia | eapply Htrans; eassumption].
Qed.

Lemma fixing_fold : forall (S X : Type) (W : S -> World) (N : S -> nat) (f : S -> X -> S),
  (forall st x, exists n, N (f st x) = N st + n /\ fixing (W st) n (W (f st x))) ->
  forall l st, exists n,
    N (fold_left f l st) = N st + n /\ fixing (W st) n (W (fold_left f l st)).
Proof.
  intros S X W N f; apply counted_fold; [apply fixing_refl | apply fixing_trans].
Qed.

Lemma truthy_nonempty : forall s, truthy s = true -> s <> "".
Proof. intros [|c s]; [discriminate | discriminate]. Qed.

Lemma replay_no_write : forall evs t, written evs = [] -> replay evs t = t.
Proof.
  induction evs as [|e evs IH]; intros t H; simpl; [reflexivity|].
  destruct e; simpl in H; [apply IH; exact H | discriminate].
Qed.

Lemma fixing_zero : forall w w', fixing w 0 w' -> fs w' = fs w.
Proof.
  intros w w' [evs [[_ F] [_ L]]].
  rewrite F; apply replay_no_write.
  destruct (written evs); [reflexivity | discriminate].
Qed.

Lemma rglob_write : forall py_file code t, rglob (write py_file code t) = rglob t.
Proof.
  intros py_file code t; unfold rglob, write; rewrite map_map.
  apply map_ext; intros [p d]; simpl; destruct (p =? py_file); reflexivity.
Qed.

Lemma rglob_replay : forall evs t, rglob (replay evs t) = rglob t.
Proof.
  induction evs as [|e evs IH]; intros t; simpl; [reflexivity|].
  destruct e; rewrite IH; [reflexivity | apply rglob_write].
Qed.

Lemma fixing_rglob : forall w n w', fixing w n w' -> rglob (fs w') = rglob (fs w).
Proof. intros w n w' [evs [[_ F] _]]; rewrite F; apply rglob_replay. Qed.

Section RoundFacts.

Variable py_compile : string -> string -> CompileOutcome.
Variable json_loads : string -> option string.
Variable tool_run : Tool -> string -> string.
Variable str_error : ErrorInfo -> string.
Variable AgentSt : Type.
Variable agent_invoke : AgentSt -> string -> AgentSt * AgentReply.
Variable LLMManager : Type.
Variable initialize_agent : LLMManager -> option AgentSt.

Local Abbreviation valid := (_validate_python_code py_compile).
Local Abbreviation chain := (_apply_fallback_tools py_compile tool_run).
Local Abbreviation carried := (accumulated py_compile tool_run).
Local Abbreviation accepts := (accepted py_compile tool_run).
Local Abbreviation fallback := (fallback_for py_compile tool_run).
Local Abbreviation per_file :=
  (agent_file py_compile json_loads tool_run agent_invoke).
Local Abbreviation agent_round :=
  (_execute_with_langchain_agent py_compile json_loads tool_run agent_invoke).
Local Abbreviation manual_round := (_execute_manual_fallback tool_run str_error).
Local Abbreviation fixes :=
  (apply_fixes py_compile json_loads tool_run str_error agent_invoke (LLMManager := LLMManager)).
Local Abbreviation round :=
  (_execute_iteration_with_agent py_compile json_loads tool_run str_error agent_invoke
     (LLMManager := LLMManager)).
Local Abbreviation rounds_loop :=
  (iterate py_compile json_loads tool_run str_error agent_invoke (LLMManager := LLMManager)).
Local Abbreviation migration :=
  (execute_migration py_compile json_loads tool_run str_error agent_invoke initialize_agent).
Local Abbreviation attempt := (_attempt_compilation py_compile).
Local Abbreviation ok := (passes py_compile).

(** *** The check *)

Lemma check_file_passes : forall entry,
  check_file py_compile entry = [] <-> ok entry = true.
Proof.
  intros [p d]; unfold check_file, passes; simpl.
  destruct d as [code|why]; [destruct (py_compile p code)|];
    split; intros H; try reflexivity; discriminate.
Qed.

Lemma check_file_names : forall entry,
  map error_file (check_file py_compile entry)
  = if ok entry then [] else [fst entry].
Proof.
  intros [p d]; unfold check_file, passes; simpl.
  destruct d as [code|why]; [destruct (py_compile p code)|]; reflexivity.
Qed.

Lemma check_names : forall t,
  map error_file (flat_map (check_file py_compile) t)
  = rglob (filter (fun e => negb (ok e)) t).
Proof.
  induction t as [|e t IH]; simpl; [reflexivity|].
  rewrite map_app, IH, check_file_names.
  destruct (ok e); reflexivity.
Qed.

Lemma all_pass_forallb : forall t, all_pass py_compile t <-> forallb ok t = true.
Proof.
  intros t; rewrite forallb_forall; unfold all_pass, passes; split.
  - intros H [p d] I; simpl. destruct (H p d I) as [code [-> C]]; rewrite C; reflexivity.
  - intros H p d I. specialize (H (p, d) I); simpl in H.
    destruct d as [code|why]; [|discriminate].
    exists code; split; [reflexivity|].
    destruct (py_compile p code); [reflexivity | discriminate | discriminate].
Qed.

Lemma check_empty_iff : forall t,
  flat_map (check_file py_compile) t = [] <-> all_pass py_compile t.
Proof.
  intros t; rewrite all_pass_forallb.
  induction t as [|e t IH]; simpl; [tauto|].
  rewrite andb_true_iff, <- IH, <- check_file_passes.
  split.
  - intros H; apply app_eq_nil in H; exact H.
  - intros [-> ->]; reflexivity.
Qed.

Lemma attempt_errors : forall t,
  errors (attempt t) = flat_map (check_file py_compile) t.
Proof.
  intros [|e t]; [reflexivity|].
  unfold _attempt_compilation.
  destruct (flat_map (check_file py_compile) (e :: t)); reflexivity.
Qed.

Lemma attempt_status : forall t,
  status (attempt t)
  = match t with
    | [] => "no_python_files"
    | _ => if forallb ok t then "success" else "failed"
    end.
Proof.
  intros [|e t]; [reflexivity|].
  unfold _attempt_compilation.
  destruct (flat_map (check_file py_compile) (e :: t)) eqn:E.
  - apply check_empty_iff, all_pass_forallb in E; rewrite E; reflexivity.
  - destruct (forallb ok (e :: t)) eqn:F; [|reflexivity].
    apply all_pass_forallb, check_empty_iff in F; congruence.
Qed.

Lemma attempt_success_iff : forall t,
  status (attempt t) = "success" <-> t <> [] /\ all_pass py_compile t.
Proof.
  intros t; rewrite attempt_status, all_pass_forallb.
  destruct t as [|e t].
  - split; [discriminate | intros [H _]; congruence].
  - destruct (forallb ok (e :: t)); split; try discriminate.
    + intros _; split; [discriminate | reflexivity].
    + reflexivity.
    + intros [_ H]; discriminate.
Qed.

(** X2.  The verdict of [_attempt_compilation]: the status is [success]
    exactly when the tree is not empty and every file of it can be read
    and compiles, [no_python_files] exactly when the tree is empty, and
    [failed] exactly when some file does not pass; the errors name the
    files that do not pass, one error a file, in the order of the
    listing. *)
Theorem X2_attempt_compilation_verdict : forall t,
  (status (attempt t) = "success" <-> t <> [] /\ all_pass py_compile t)
  /\ (status (attempt t) = "no_python_files" <-> t = [])
  /\ (status (attempt t) = "failed" <-> exists entry, In entry t /\ ok entry = false)
  /\ map error_file (errors (attempt t)) = rglob (filter (fun e => negb (ok e)) t).
Proof.
  intros t; split; [apply attempt_success_iff|]; split; [|split].
  - rewrite attempt_status; destruct t as [|e t]; [tauto|].
    destruct (forallb ok (e :: t)); split; discriminate.
  - rewrite attempt_status; destruct t as [|e t].
    + split; [discriminate | intros [x [[] _]]].
    + destruct (forallb ok (e :: t)) eqn:F; split; try discriminate.
      * intros [x [I N]]. rewrite forallb_forall in F. rewrite (F x I) in N; discriminate.
      * intros _. apply not_true_iff_false in F.
        destruct (existsb (fun x => negb (ok x)) (e :: t)) eqn:G.
        -- apply existsb_exists in G; destruct G as [x [I N]].
           exists x; split; [exact I|]. destruct (ok x); [discriminate | reflexivity].
        -- exfalso; apply F, forallb_forall; intros x I.
           destruct (ok x) eqn:O; [reflexivity|].
           assert (existsb (fun x => negb (ok x)) (e :: t) = true)
             by (apply existsb_exists; exists x; rewrite O; auto).
           congruence.
      * reflexivity.
  - rewrite attempt_errors; apply check_names.
Qed.

(** *** The fixing passes *)

Lemma chain_accepts_truthy : forall current_code modified_code m,
  chain_accepts py_compile current_code modified_code = Some m -> truthy m = true.
Proof.
  intros current_code [x|] m; unfold chain_accepts; [|discriminate].
  destruct (truthy x) eqn:T; simpl; [|discriminate].
  destruct (negb (x =? current_code)); simpl; [|discriminate].
  destruct (valid x); [|discriminate].
  intros H; injection H as <-; exact T.
Qed.

Lemma carried_truthy : forall t code,
  accepts t code = true -> truthy (carried t code) = true.
Proof.
  intros t code; unfold accepted, accumulated.
  destruct (chain_accepts py_compile code
              (_extract_code_from_result (tool_run t code))) eqn:E; [|discriminate].
  intros _; eapply chain_accepts_truthy; exact E.
Qed.

(** The chain on a file that reads as text. *)
Lemma chain_fixing : forall py_file original_code old w,
  read (fs w) py_file = Text old ->
  fixing w (if fst (chain py_file original_code w) then 1 else 0)
    (snd (chain py_file original_code w)).
Proof.
  intros py_file original_code old w R.
  rewrite chain_eq.
  set (guarded := contains_any python2_markers original_code).
  set (c1 := if guarded then carried Python2To3Tool original_code else original_code).
  set (c2 := carried PyUpgradeTool c1).
  set (c3 := carried ModernizeTool c2).
  set (w1 := if guarded then logged (ToolRun Python2To3Tool original_code) w else w).
  set (w3 := logged (ToolRun ModernizeTool c2) (logged (ToolRun PyUpgradeTool c1) w1)).
  assert (F1 : fixing w 0 w1)
    by (unfold w1; destruct guarded; [apply fixing_logged | apply fixing_refl]).
  assert (F3 : fixing w 0 w3).
  { change 0 with (0 + (0 + 0)).
    eapply fixing_trans; [exact F1|].
    eapply fixing_trans; apply fixing_logged. }
  destruct ((guarded && accepts Python2To3Tool original_code)
            || accepts PyUpgradeTool c1 || accepts ModernizeTool c2) eqn:C; simpl.
  - change 1 with (0 + 1).
    eapply fixing_trans; [exact F3|].
    assert (R3 : read (fs w3) py_file = Text old)
      by (unfold w3, w1; destruct guarded; exact R).
    apply (fixing_write _ _ _ _ R3).
    apply truthy_nonempty.
    unfold c3. destruct (accepts ModernizeTool c2) eqn:A3;
      [apply carried_truthy; exact A3|].
    rewrite (carried_same _ _ _ _ A3).
    unfold c2. destruct (accepts PyUpgradeTool c1) eqn:A2;
      [apply carried_truthy; exact A2|].
    rewrite (carried_same _ _ _ _ A2).
    rewrite orb_false_r, orb_false_r in C.
    apply andb_true_iff in C; destruct C as [G A1].
    unfold c1; rewrite G. apply carried_truthy; exact A1.
  - exact F3.
Qed.

Lemma fallback_fixing : forall label py_file original_code old (st : AgentPass AgentSt),
  read (fs (pass_world st)) py_file = Text old ->
  exists n,
    pass_fixes (fallback label py_file original_code st) = pass_fixes st + n
    /\ fixing (pass_world st) n (pass_world (fallback label py_file original_code st)).
Proof.
  intros label py_file original_code old st R; unfold fallback_for.
  pose proof (chain_fixing py_file original_code old (pass_world st) R) as F.
  destruct (chain py_file original_code (pass_world st)) as [[|] w']; simpl in *.
  - exists 1; split; [lia | exact F].
  - exists 0; split; [lia | exact F].
Qed.

Lemma agent_file_fixing : forall errors iteration (st : AgentPass AgentSt) py_file,
  exists n,
    pass_fixes (per_file errors iteration st py_file) = pass_fixes st + n
    /\ fixing (pass_world st) n (pass_world (per_file errors iteration st py_file)).
Proof.
  intros errors iteration st py_file; unfold agent_file.
  destruct (read (fs (pass_world st)) py_file) as [original_code|why] eqn:R;
    [|exists 0; split; [lia | apply fixing_refl]].
  destruct (agent_invoke (pass_agent st)
              (_create_agent_prompt_for_file py_file original_code errors iteration))
    as [agent reply].
  destruct reply as [result|msg];
    [|apply (fallback_fixing _ _ _ original_code (MkPass _ _ agent _)); exact R].
  destruct (output result) as [agent_output|];
    [|apply (fallback_fixing _ _ _ original_code (MkPass _ _ agent _)); exact R].
  destruct (_extract_code_from_agent_output py_compile json_loads agent_output)
    as [modified_code|];
    [|apply (fallback_fixing _ _ _ original_code (MkPass _ _ agent _)); exact R].
  destruct (truthy modified_code) eqn:T; simpl.
  - destruct (negb (modified_code =? original_code)); simpl.
    + destruct (valid modified_code); simpl.
      * exists 1; split; [lia|].
        apply (fixing_write _ _ original_code); [exact R | apply truthy_nonempty, T].
      * exists 0; split; [lia | apply fixing_refl].
    + exists 0; split; [lia | apply fixing_refl].
  - apply (fallback_fixing _ _ _ original_code (MkPass _ _ agent _)); exact R.
Qed.

Lemma agent_round_fixing : forall errors iteration r agent w,
  fixing w (pass_fixes (agent_round errors iteration r agent w))
    (pass_world (agent_round errors iteration r agent w)).
Proof.
  intros errors iteration r agent w; unfold _execute_with_langchain_agent.
  destruct (fixing_fold _ _ (@pass_world AgentSt) (@pass_fixes AgentSt) _
              (agent_file_fixing errors iteration) (rglob (fs w)) (MkPass 0 r agent w))
    as [n [E F]]; simpl in E, F.
  rewrite E; exact F.
Qed.

Lemma manual_file_fixing : forall tool st py_file,
  exists n,
    fst (manual_file tool_run tool st py_file) = fst st + n
    /\ fixing (snd st) n (snd (manual_file tool_run tool st py_file)).
Proof.
  intros tool [k w] py_file; unfold manual_file; simpl.
  destruct (read (fs w) py_file) as [original_code|why] eqn:R;
    [|exists 0; split; [simpl; lia | apply fixing_refl]].
  destruct (_extract_code_from_result (tool_run tool original_code)) as [modified_code|];
    [|exists 0; split; [simpl; lia | apply fixing_logged]].
  destruct (truthy modified_code) eqn:T; simpl;
    [|exists 0; split; [simpl; lia | apply fixing_logged]].
  destruct (negb (modified_code =? original_code)); simpl;
    [|exists 0; split; [simpl; lia | apply fixing_logged]].
  exists 1; split; [lia|].
  change 1 with (0 + 1); eapply fixing_trans; [apply fixing_logged|].
  apply (fixing_write _ _ original_code); [exact R | apply truthy_nonempty, T].
Qed.

Lemma manual_tool_fixing : forall st tool,
  exists n,
    fst (fst (manual_tool tool_run st tool)) = fst (fst st) + n
    /\ fixing (snd st) n (snd (manual_tool tool_run st tool)).
Proof.
  intros [[k r] w] tool; unfold manual_tool.
  destruct (fixing_fold _ _ (@snd nat World) (@fst nat World) _
              (manual_file_fixing tool) (rglob (fs w)) (0, w)) as [n [E F]].
  destruct (fold_left (manual_file tool_run tool) (rglob (fs w)) (0, w))
    as [files_modified w']; simpl in *; subst files_modified.
  exists n; destruct (0 <? n)%nat eqn:P; simpl; split; try exact F; try lia.
  apply Nat.ltb_ge in P; lia.
Qed.

Lemma manual_round_fixing : forall errors r w,
  fixing w (fst (fst (manual_round errors r w))) (snd (manual_round errors r w)).
Proof.
  intros errors r w; unfold _execute_manual_fallback.
  destruct (fixing_fold _ _ (@snd (nat * IterationResult) World)
              (fun st : nat * IterationResult * World => fst (fst st)) _
              manual_tool_fixing (tool_sequence str_error errors) (0, r, w))
    as [n [E F]]; simpl in E, F.
  rewrite E; exact F.
Qed.

Lemma fixes_fixing : forall errors iteration r self w,
  fixing w (fst (fst (fst (fixes errors iteration r self w))))
    (snd (fixes errors iteration r self w)).
Proof.
  intros errors iteration r self w; unfold apply_fixes.
  destruct (agent_executor self) as [agent|]; simpl.
  - apply agent_round_fixing.
  - pose proof (manual_round_fixing errors r w) as F.
    destruct (manual_round errors r w) as [[k r'] w']; exact F.
Qed.

(** *** The records of the passes *)

Lemma records_refl : forall r, records r 0 r.
Proof.
  intros r; repeat split; try reflexivity.
  - exists []; now rewrite app_nil_r.
  - exists []; split; [now rewrite app_nil_r | reflexivity].
Qed.

Lemma records_trans : forall a n b m c,
  records a n b -> records b m c -> records a (n + m) c.
Proof.
  intros a n b m c (I1 & S1 & A1 & E1 & F1 & [s1 G1] & [u1 [T1 L1]])
    (I2 & S2 & A2 & E2 & F2 & [s2 G2] & [u2 [T2 L2]]).
  repeat split; try congruence.
  - exists (s1 ++ s2)%list; rewrite G2, G1, app_assoc; reflexivity.
  - exists (u1 ++ u2)%list; split.
    + rewrite T2, T1, app_assoc; reflexivity.
    + rewrite map_app, list_sum_app; lia.
Qed.

Lemma records_tool_use : forall u r, records r (files_of u) (add_tool_use u r).
Proof.
  intros u r; repeat split; simpl.
  - exists []; now rewrite app_nil_r.
  - exists [u]; split; [reflexivity | simpl; lia].
Qed.

Lemma records_steps : forall ss r, records r 0 (add_steps ss r).
Proof.
  intros ss r; repeat split; simpl.
  - exists ss; reflexivity.
  - exists []; split; [now rewrite app_nil_r | reflexivity].
Qed.

(** A pass whose entries stand for at most as many files as it fixed. *)
Local Abbreviation records_upto :=
  (fun r n r' => exists k, k <= n /\ records r k r').

Lemma records_upto_refl : forall r, records_upto r 0 r.
Proof. intros r; exists 0; split; [lia | apply records_refl]. Qed.

Lemma records_upto_trans : forall a n b m c,
  records_upto a n b -> records_upto b m c -> records_upto a (n + m) c.
Proof.
  intros a n b m c [k1 [L1 R1]] [k2 [L2 R2]].
  exists (k1 + k2); split; [lia | eapply records_trans; eassumption].
Qed.

Lemma fallback_records : forall label py_file original_code (st : AgentPass AgentSt),
  exists n,
    pass_fixes (fallback label py_file original_code st) = pass_fixes st + n
    /\ records (pass_result st) n
         (pass_result (fallback label py_file original_code st)).
Proof.
  intros label py_file original_code st; unfold fallback_for.
  destruct (chain py_file original_code (pass_world st)) as [[|] w']; simpl.
  - exists 1; split; [lia|].
    exact (records_tool_use (file_entry label (base_name py_file) "success")
             (pass_result st)).
  - exists 0; split; [lia | apply records_refl].
Qed.

Lemma agent_file_records : forall errors iteration (st : AgentPass AgentSt) py_file,
  exists n,
    pass_fixes (per_file errors iteration st py_file) = pass_fixes st + n
    /\ records_upto (pass_result st) n
         (pass_result (per_file errors iteration st py_file)).
Proof.
  intros errors iteration st py_file; unfold agent_file.
  assert (Hfb : forall label original_code (agent : AgentSt),
    let st1 := MkPass (pass_fixes st) (pass_result st) agent (pass_world st) in
    exists n,
      pass_fixes (fallback label py_file original_code st1) = pass_fixes st + n
      /\ records_upto (pass_result st) n
           (pass_result (fallback label py_file original_code st1))).
  { intros label original_code agent st1.
    destruct (fallback_records label py_file original_code st1) as [n [E R]].
    exists n; split; [exact E|]. exists n; split; [lia | exact R]. }
  destruct (read (fs (pass_world st)) py_file) as [original_code|why];
    [|exists 0; split; [lia | apply records_upto_refl]].
  destruct (agent_invoke (pass_agent st)
              (_create_agent_prompt_for_file py_file original_code errors iteration))
    as [agent reply].
  destruct reply as [result|msg]; [|apply Hfb].
  destruct (output result) as [agent_output|]; [|apply Hfb].
  destruct (_extract_code_from_agent_output py_compile json_loads agent_output)
    as [modified_code|]; [|apply Hfb].
  destruct (truthy modified_code) eqn:T; simpl; [|apply Hfb].
  destruct (negb (modified_code =? original_code)); simpl;
    [|exists 0; split; [lia | apply records_upto_refl]].
  destruct (valid modified_code); simpl;
    [|exists 0; split; [lia | apply records_upto_refl]].
  exists 1; split; [lia|].
  exists 0; split; [lia | apply records_steps].
Qed.

Lemma agent_round_records : forall errors iteration r agent w,
  records_upto r (pass_fixes (agent_round errors iteration r agent w))
    (pass_result (agent_round errors iteration r agent w)).
Proof.
  intros errors iteration r agent w; unfold _execute_with_langchain_agent.
  destruct (counted_fold _ _ _ (fun r n r' => exists k, k <= n /\ records r k r')
              (@pass_result AgentSt) (@pass_fixes AgentSt) _
              records_upto_refl records_upto_trans
              (agent_file_records errors iteration) (rglob (fs w)) (MkPass 0 r agent w))
    as [n [E F]]; simpl in E, F.
  rewrite E; exact F.
Qed.

Lemma manual_tool_records : forall st tool,
  exists n,
    fst (fst (manual_tool tool_run st tool)) = fst (fst st) + n
    /\ records (snd (fst st)) n (snd (fst (manual_tool tool_run st tool))).
Proof.
  intros [[k r] w] tool; unfold manual_tool.
  destruct (fold_left (manual_file tool_run tool) (rglob (fs w)) (0, w))
    as [files_modified w'].
  destruct (0 <? files_modified)%nat eqn:P; simpl.
  - exists files_modified; split; [reflexivity|].
    exact (records_tool_use (tool_entry (tool_name tool) files_modified) r).
  - exists 0; split; [lia | apply records_refl].
Qed.

Lemma manual_round_records : forall errors r w,
  records r (fst (fst (manual_round errors r w))) (snd (fst (manual_round errors r w))).
Proof.
  intros errors r w; unfold _execute_manual_fallback.
  destruct (counted_fold _ _ _ records
              (fun st : nat * IterationResult * World => snd (fst st))
              (fun st : nat * IterationResult * World => fst (fst st)) _
              records_refl records_trans
              manual_tool_records (tool_sequence str_error errors) (0, r, w))
    as [n [E F]]; simpl in E, F.
  rewrite E; exact F.
Qed.

Lemma fixes_records : forall errors iteration r self w,
  let out := fixes errors iteration r self w in
  exists k, k <= fst (fst (fst out)) /\ records r k (snd (fst (fst out)))
            /\ (agent_executor self = None -> k = fst (fst (fst out))).
Proof.
  intros errors iteration r self w; unfold apply_fixes.
  destruct (agent_executor self) as [agent|]; simpl.
  - destruct (agent_round_records errors iteration r agent w) as [k [L R]].
    exists k; split; [exact L | split; [exact R | discriminate]].
  - pose proof (manual_round_records errors r w) as R.
    destruct (manual_round errors r w) as [[n r'] w']; simpl in *.
    exists n; split; [lia | split; [exact R | reflexivity]].
Qed.

Lemma fixes_self : forall errors iteration r self w,
  let self' := snd (fst (fixes errors iteration r self w)) in
  max_iterations self' = max_iterations self
  /\ llm_manager self' = llm_manager self
  /\ migration_issues self' = migration_issues self
  /\ successful_fixes self' = successful_fixes self
  /\ (agent_executor self' = None <-> agent_executor self = None).
Proof.
  intros errors iteration r self w; unfold apply_fixes.
  destruct (agent_executor self) as [agent|] eqn:A; simpl.
  - repeat split; try reflexivity; discriminate.
  - destruct (manual_round errors r w) as [[n r'] w']; simpl.
    repeat split; try reflexivity; auto.
Qed.

Lemma attempt_success_errors : forall t,
  status (attempt t) = "success" -> errors (attempt t) = [].
Proof.
  intros [|e t]; [reflexivity|]; unfold _attempt_compilation.
  destruct (flat_map (check_file py_compile) (e :: t)); [reflexivity | discriminate].
Qed.

(** *** A round *)

Lemma round_spec : forall i (self : Self AgentSt LLMManager) w,
  let out := round i self w in
  let r := fst (fst out) in
  let self' := snd (fst out) in
  let w' := snd out in
  iteration r = i
  /\ fixing w (fixes_applied r) w'
  /\ compilation_status r = status (attempt (fs w'))
  /\ errors_found r = errors (attempt (fs w))
  /\ compilation_attempts r = (if (fixes_applied r =? 0)%nat then 1 else 2)
  /\ (fixes_applied r <> 0 -> errors_found r <> [])
  /\ (exists k, k <= fixes_applied r
        /\ records (MkIteration i "unknown" 0 [] 0 [] []) k
             (MkIteration i "unknown" 0 [] 0 (agent_steps r) (tools_used r))
        /\ (agent_executor self = None -> k = fixes_applied r))
  /\ max_iterations self' = max_iterations self
  /\ llm_manager self' = llm_manager self
  /\ migration_issues self' = migration_issues self
  /\ (agent_executor self' = None <-> agent_executor self = None)
  /\ successful_fixes self'
     = (successful_fixes self
        ++ (if (0 <? fixes_applied r)%nat
               && (List.length (errors (attempt (fs w')))
                   <? List.length (errors_found r))%nat
            then tools_used r else []))%list.
Proof.
  intros i self w; unfold _execute_iteration_with_agent.
  set (r0 := MkIteration i "unknown" 0 [] 0 [] []).
  destruct (status (attempt (fs w)) =? "success") eqn:Hs; simpl.
  - apply String.eqb_eq in Hs.
    repeat split; try reflexivity; try tauto.
    + apply fixing_refl.
    + symmetry; apply attempt_success_errors; exact Hs.
    + exists 0; repeat split; try reflexivity; try lia.
      * exists []; reflexivity.
      * exists []; split; reflexivity.
    + now rewrite app_nil_r.
  - destruct (errors (attempt (fs w))) as [|e es] eqn:E; simpl.
    + repeat split; try reflexivity; try tauto.
      * apply fixing_refl.
      * exists 0; repeat split; try reflexivity; try lia.
        -- exists []; reflexivity.
        -- exists []; split; reflexivity.
      * now rewrite app_nil_r.
    + set (r1 := with_errors (e :: es) (attempted (status (attempt (fs w))) r0)).
      pose proof (fixes_fixing (e :: es) i r1 self w) as F.
      pose proof (fixes_records (e :: es) i r1 self w) as R.
      pose proof (fixes_self (e :: es) i r1 self w) as Sf.
      destruct (fixes (e :: es) i r1 self w) as [[[k r2] self2] w2]; simpl in F, R, Sf.
      destruct R as [k' [Lk [(I2 & S2 & A2 & E2 & F2 & [ss G2] & [us [T2 L2]]) Kn]]].
      simpl in I2, S2, A2, E2, F2, G2, T2.
      destruct Sf as (M & L & Is & Sx & Ag).
      assert (Rec : exists k0, k0 <= k
                /\ records r0 k0 (MkIteration i "unknown" 0 [] 0 (agent_steps r2) (tools_used r2))
                /\ (agent_executor self = None -> k0 = k)).
      { exists k'; repeat split; try reflexivity; try exact Lk; try exact Kn.
        - exists ss; exact G2.
        - exists us; split; [exact T2 | exact L2]. }
      assert (Ag1 : agent_executor self2 = None -> agent_executor self = None)
        by apply Ag.
      assert (Ag2 : agent_executor self = None -> agent_executor self2 = None)
        by apply Ag.
      destruct (0 <? k)%nat eqn:P; simpl.
      * assert (K0 : (k =? 0)%nat = false)
          by (apply Nat.eqb_neq; apply Nat.ltb_lt in P; lia).
        destruct (status (attempt (fs w2)) =? "success") eqn:Hs'; simpl.
        -- apply String.eqb_eq in Hs'.
           rewrite (attempt_success_errors _ Hs'), E2; simpl.
           repeat split; try assumption; try reflexivity; try (simpl; congruence).
           ++ rewrite K0, A2; reflexivity.
           ++ rewrite P, Sx; reflexivity.
        -- destruct (List.length (errors (attempt (fs w2))) <? S (List.length es))%nat
             eqn:Q; simpl; rewrite ?E2; simpl; rewrite ?Q;
             repeat split; try assumption; try reflexivity;
             try (simpl; congruence); try (rewrite K0, A2; reflexivity).
           ++ rewrite P, Sx; reflexivity.
           ++ rewrite P, Sx, app_nil_r; reflexivity.
      * apply Nat.ltb_ge in P. assert (k = 0) by lia; subst k.
        simpl; repeat split; try assumption; try reflexivity; try (simpl; congruence).
        all: try (rewrite S2; simpl; rewrite (fixing_zero _ _ F); reflexivity).
        all: try (rewrite A2; reflexivity).
        all: try (rewrite Sx, app_nil_r; reflexivity).
Qed.

(** *** The loop *)

Lemma last_cons_cons : forall (A : Type) (a : A) l d, l <> [] -> last (a :: l) d = last l d.
Proof. intros A a [|b l] d H; [congruence | reflexivity]. Qed.

Lemma rounds_loop_spec : forall rounds results (self : Self AgentSt LLMManager) w,
  let out := rounds_loop rounds results self w in
  let res' := fst (fst out) in
  let self' := snd (fst out) in
  let w' := snd out in
  exists new,
    iterations res' = (iterations results ++ new)%list
    /\ map iteration new = firstn (List.length new) rounds
    /\ total_compilation_attempts res'
       = total_compilation_attempts results + list_sum (map compilation_attempts new)
    /\ Forall coherent new
    /\ (agent_executor self = None ->
        Forall (fun r => list_sum (map files_of (tools_used r)) = fixes_applied r) new)
    /\ fixing w (list_sum (map fixes_applied new)) w'
    /\ (forall d, new <> [] ->
          compilation_status (last new d) = status (attempt (fs w')))
    /\ Forall progressing (removelast new)
    /\ ((new <> [] /\ (forall d, compilation_status (last new d) = "success")
         /\ final_status res' = "success")
        \/ (new <> []
            /\ (forall d, compilation_status (last new d) <> "success"
                          /\ fixes_applied (last new d) = 0)
            /\ final_status res' = final_status results)
        \/ (Forall progressing new /\ List.length new = List.length rounds
            /\ final_status res' = "max_iterations_reached"))
    /\ max_iterations self' = max_iterations self
    /\ llm_manager self' = llm_manager self
    /\ migration_issues self' = migration_issues self
    /\ (agent_executor self' = None <-> agent_executor self = None)
    /\ (exists credited,
          successful_fixes self'
          = (successful_fixes self ++ flat_map tools_used credited)%list
          /\ incl credited new
          /\ Forall (fun r => fixes_applied r <> 0) credited)
    /\ agent_available res' = agent_available results
    /\ unresolved_issues res' = unresolved_issues results
    /\ results_successful_fixes res' = results_successful_fixes results.
Proof.
  induction rounds as [|i rounds IH]; intros results self w.
  - exists []; cbn [iterate fst snd]; simpl iterations; simpl final_status;
      simpl total_compilation_attempts.
    split; [now rewrite app_nil_r|]. split; [reflexivity|].
    split; [simpl; lia|]. split; [constructor|].
    split; [intros _; constructor|].
    split; [apply fixing_refl|].
    split; [intros d N; congruence|].
    split; [constructor|].
    split; [right; right; repeat split; constructor|].
    split; [reflexivity|]. split; [reflexivity|]. split; [reflexivity|].
    split; [tauto|].
    split; [exists []; simpl; repeat split;
            [now rewrite app_nil_r | intros x [] | constructor]|].
    repeat split.
  - cbn [iterate].
    pose proof (round_spec i self w) as Hr.
    destruct (round i self w) as [[r self1] w1]; cbn [fst snd] in Hr.
    destruct Hr as (Hi & Hfix & Hstat & Herr & Hatt & Hne & [k [Hk [Hrec Hman]]]
                    & Hmax & Hllm & Hiss & Hag & Hsf).
    assert (Hco : coherent r).
    { split; [exact Hatt|]; split; [exact Hne|].
      destruct Hrec as (_ & _ & _ & _ & _ & _ & [us [T L]]); simpl in T.
      rewrite T, L; exact Hk. }
    assert (Hex : agent_executor self = None ->
                  list_sum (map files_of (tools_used r)) = fixes_applied r).
    { intros N. destruct Hrec as (_ & _ & _ & _ & _ & _ & [us [T L]]); simpl in T.
      rewrite T, L; apply Hman, N. }
    assert (Hcred : exists credited,
              successful_fixes self1
              = (successful_fixes self ++ flat_map tools_used credited)%list
              /\ incl credited [r]
              /\ Forall (fun r => fixes_applied r <> 0) credited).
    { destruct ((0 <? fixes_applied r)%nat
                && (List.length (errors (attempt (fs w1)))
                    <? List.length (errors_found r))%nat) eqn:C.
      - exists [r]; simpl; rewrite app_nil_r; repeat split;
          [exact Hsf | apply incl_refl |].
        constructor; [|constructor].
        apply andb_true_iff in C; destruct C as [C _].
        apply Nat.ltb_lt in C; lia.
      - exists []; simpl; repeat split; [exact Hsf | intros x [] | constructor]. }
    assert (Hone : list_sum (map fixes_applied [r]) = fixes_applied r)
      by (simpl; lia).
    destruct (compilation_status r =? "success") eqn:Hs.
    { apply String.eqb_eq in Hs.
      exists [r]; cbn [fst snd]; simpl iterations; simpl final_status;
        simpl total_compilation_attempts.
      split; [reflexivity|]. split; [simpl; congruence|].
      split; [simpl; lia|]. split; [constructor; [exact Hco | constructor]|].
      split; [intros N; constructor; [apply Hex, N | constructor]|].
      split; [rewrite Hone; exact Hfix|].
      split; [intros d _; exact Hstat|].
      split; [constructor|].
      split; [left; repeat split; [discriminate | intros d; exact Hs]|].
      repeat split; try assumption; apply Hag. }
    destruct (fixes_applied r =? 0)%nat eqn:Hz.
    { apply Nat.eqb_eq in Hz. apply String.eqb_neq in Hs.
      exists [r]; cbn [fst snd]; simpl iterations; simpl final_status;
        simpl total_compilation_attempts.
      split; [reflexivity|]. split; [simpl; congruence|].
      split; [simpl; lia|]. split; [constructor; [exact Hco | constructor]|].
      split; [intros N; constructor; [apply Hex, N | constructor]|].
      split; [rewrite Hone; exact Hfix|].
      split; [intros d _; exact Hstat|].
      split; [constructor|].
      split; [right; left; repeat split;
              [discriminate | exact Hs | exact Hz]|].
      repeat split; try assumption; apply Hag. }
    apply Nat.eqb_neq in Hz. apply String.eqb_neq in Hs.
    assert (Hp : progressing r) by (split; assumption).
    specialize (IH (record_iteration r results) self1 w1).
    cbv zeta in IH.
    destruct (rounds_loop rounds (record_iteration r results) self1 w1)
      as [[res2 self2] w2]; cbn [fst snd] in IH |- *.
    destruct IH as [new (Jit & Jnum & Jtot & Jco & Jex & Jfix & Jlast & Jpre & Jfin
                         & Jmax & Jllm & Jiss & Jag & [c2 (Jsf & Jin & Jc)]
                         & Jav & Jun & Jrs)].
    exists (r :: new).
    split; [rewrite Jit; simpl; rewrite <- app_assoc; reflexivity|].
    split; [simpl; rewrite Jnum, Hi; reflexivity|].
    split; [rewrite Jtot; simpl; lia|].
    split; [constructor; assumption|].
    split; [intros N; constructor; [apply Hex, N | apply Jex, Hag, N]|].
    split; [simpl; eapply fixing_trans; eassumption|].
    split.
    { intros d _. destruct new as [|r' new'].
      - simpl. rewrite Hstat. simpl in Jfix. rewrite (fixing_zero _ _ Jfix); reflexivity.
      - rewrite last_cons_cons by discriminate. apply Jlast; discriminate. }
    split.
    { destruct new as [|r' new']; [constructor|].
      change (removelast (r :: r' :: new')) with (r :: removelast (r' :: new')).
      constructor; assumption. }
    split.
    { destruct Jfin as [(N & L & Fs) | [(N & L & Fs) | (Fp & Ln & Fs)]].
      - left; split; [discriminate|]; split; [|exact Fs].
        intros d; rewrite last_cons_cons by exact N; apply L.
      - right; left; split; [discriminate|]; split; [|exact Fs].
        intros d; rewrite last_cons_cons by exact N; apply L.
      - right; right; split; [constructor; assumption|]; split; [simpl; lia | exact Fs]. }
    split; [congruence|]. split; [congruence|]. split; [congruence|].
    split; [rewrite Jag; exact Hag|].
    split.
    { destruct Hcred as [c1 (Hsf1 & Hin1 & Hc1)].
      exists (c1 ++ c2)%list; split; [|split].
      - rewrite Jsf, Hsf1, flat_map_app, app_assoc; reflexivity.
      - intros x Hx; apply in_app_or in Hx; destruct Hx as [Hx|Hx].
        + left. destruct (Hin1 x Hx) as [E|[]]; exact E.
        + right; apply Jin, Hx.
      - apply Forall_app; split; assumption. }
    repeat split; assumption.
Qed.

(** *** A run *)

Lemma migration_unfold : forall (self : Self AgentSt LLMManager) source_dir,
  let self0 := _initialize_agent initialize_agent self in
  let out :=
    rounds_loop (seq 1 (max_iterations self0))
      (MkResults [] "unknown" [] [] 0
         (match agent_executor self0 with Some _ => true | None => false end))
      self0 (MkWorld source_dir []) in
  let o := migration self source_dir in
  iterations (results o) = iterations (fst (fst out))
  /\ final_status (results o) = final_status (fst (fst out))
  /\ results_successful_fixes (results o) = successful_fixes (snd (fst out))
  /\ unresolved_issues (results o) = migration_issues (snd (fst out))
  /\ total_compilation_attempts (results o)
     = total_compilation_attempts (fst (fst out))
  /\ agent_available (results o) = agent_available (fst (fst out))
  /\ executor o = snd (fst out)
  /\ working_dir o = fs (snd out)
  /\ final_migrated_code o = fs (snd out)
  /\ trace o = log (snd out).
Proof.
  intros self source_dir; unfold execute_migration.
  destruct (rounds_loop
              (seq 1 (max_iterations (_initialize_agent initialize_agent self)))
              (MkResults [] "unknown" [] [] 0
                 match agent_executor (_initialize_agent initialize_agent self) with
                 | Some _ => true
                 | None => false
                 end)
              (_initialize_agent initialize_agent self) (MkWorld source_dir []))
    as [[res self'] w']; simpl.
  repeat split.
Qed.

Lemma initialize_keeps : forall self : Self AgentSt LLMManager,
  let self0 := _initialize_agent initialize_agent self in
  llm_manager self0 = llm_manager self
  /\ migration_issues self0 = migration_issues self
  /\ successful_fixes self0 = successful_fixes self
  /\ (agent_executor self <> None -> agent_executor self0 = agent_executor self)
  /\ (agent_executor self = None -> llm_manager self = None ->
      agent_executor self0 = None).
Proof.
  intros self; unfold _initialize_agent.
  destruct (agent_executor self) as [a|] eqn:A.
  - repeat split; try reflexivity; try congruence.
  - destruct (llm_manager self) as [m|] eqn:L; simpl; repeat split;
      try reflexivity; try congruence.
Qed.

Lemma firstn_seq : forall k n a, k <= n -> firstn k (seq a n) = seq a k.
Proof.
  induction k as [|k IH]; intros n a H; [reflexivity|].
  destruct n as [|n]; [lia|]; simpl. rewrite IH by lia; reflexivity.
Qed.

Lemma coherent_attempts : forall rs, Forall coherent rs ->
  List.length rs <= list_sum (map compilation_attempts rs)
  /\ list_sum (map compilation_attempts rs) <= 2 * List.length rs.
Proof.
  induction 1 as [|r rs [A _] _ IH]; simpl; [lia|].
  rewrite A; destruct (fixes_applied r =? 0)%nat; lia.
Qed.

(** What a run leaves, in terms of its recorded rounds. *)
Lemma migration_spec : forall (self : Self AgentSt LLMManager) source_dir,
  let o := migration self source_dir in
  let rs := iterations (results o) in
  map iteration rs = seq 1 (List.length rs)
  /\ List.length rs <= max_iterations self
  /\ total_compilation_attempts (results o) = list_sum (map compilation_attempts rs)
  /\ Forall coherent rs
  /\ (agent_available (results o) = false ->
      Forall (fun r => list_sum (map files_of (tools_used r)) = fixes_applied r) rs)
  /\ fixing (MkWorld source_dir []) (list_sum (map fixes_applied rs))
       (MkWorld (final_migrated_code o) (trace o))
  /\ (forall d, rs <> [] ->
        compilation_status (last rs d) = status (attempt (final_migrated_code o)))
  /\ Forall progressing (removelast rs)
  /\ ((rs <> [] /\ (forall d, compilation_status (last rs d) = "success")
       /\ final_status (results o) = "success")
      \/ (rs <> []
          /\ (forall d, compilation_status (last rs d) <> "success"
                        /\ fixes_applied (last rs d) = 0)
          /\ final_status (results o) = "unknown")
      \/ (Forall progressing rs /\ List.length rs = max_iterations self
          /\ final_status (results o) = "max_iterations_reached"))
  /\ max_iterations (executor o) = max_iterations self
  /\ llm_manager (executor o) = llm_manager self
  /\ migration_issues (executor o) = migration_issues self
  /\ unresolved_issues (results o) = migration_issues self
  /\ (agent_available (results o) = false <-> agent_executor (executor o) = None)
  /\ results_successful_fixes (results o) = successful_fixes (executor o)
  /\ (exists credited,
        successful_fixes (executor o)
        = (successful_fixes self ++ flat_map tools_used credited)%list
        /\ incl credited rs
        /\ Forall (fun r => fixes_applied r <> 0) credited).
Proof.
  intros self source_dir.
  pose proof (migration_unfold self source_dir) as U.
  pose proof (initialize_keeps self) as K.
  pose proof (initialize_keeps_budget _ _ initialize_agent self) as B.
  cbv zeta in U, K |- *.
  set (self0 := _initialize_agent initialize_agent self) in *.
  set (res0 := MkResults [] "unknown" [] [] 0
                 (match agent_executor self0 with Some _ => true | None => false end)) in *.
  pose proof (rounds_loop_spec (seq 1 (max_iterations self0)) res0 self0
                (MkWorld source_dir [])) as L.
  cbv zeta in L.
  destruct (rounds_loop (seq 1 (max_iterations self0)) res0 self0
              (MkWorld source_dir [])) as [[res self'] w'].
  cbn [fst snd] in U, L.
  destruct U as (Uit & Ufin & Usf & Uun & Utot & Uav & Uex & Uwd & Ufd & Utr).
  destruct K as (Kllm & Kiss & Ksf & _ & _).
  destruct L as [new (Jit & Jnum & Jtot & Jco & Jex & Jfix & Jlast & Jpre & Jfin
                      & Jmax & Jllm & Jiss & Jag & Jcred & Jav & Jun & Jrs)].
  simpl in Jit. rewrite Uit, Ufin, Usf, Uun, Utot, Uav, Uex, Ufd, Utr, Jit.
  assert (Hlen : List.length new <= max_iterations self0).
  { assert (E : List.length (map iteration new)
                = List.length (firstn (List.length new) (seq 1 (max_iterations self0))))
      by (rewrite Jnum; reflexivity).
    rewrite length_map, length_firstn, length_seq in E. lia. }
  split; [rewrite Jnum; apply firstn_seq, Hlen|].
  split; [rewrite <- B; exact Hlen|].
  split; [rewrite Jtot; reflexivity|].
  split; [exact Jco|].
  split.
  { rewrite Jav; unfold res0; simpl.
    destruct (agent_executor self0) eqn:A; [discriminate|].
    intros _; apply Jex; reflexivity. }
  split; [destruct w' as [t l]; exact Jfix|].
  split; [exact Jlast|].
  split; [exact Jpre|].
  split.
  { destruct Jfin as [J | [J | (Fp & Ln & Fs)]]; [left; exact J | right; left; exact J|].
    right; right; split; [exact Fp|]; split; [|exact Fs].
    rewrite Ln, length_seq; exact B. }
  split; [congruence|]. split; [congruence|]. split; [congruence|].
  split; [congruence|].
  split.
  { rewrite Jav, Jag; unfold res0; simpl.
    destruct (agent_executor self0); split; congruence. }
  split; [reflexivity|].
  destruct Jcred as [c (C1 & C2 & C3)]; exists c; split; [|split; assumption].
  rewrite C1, Ksf; reflexivity.
Qed.

Lemma nonempty_last : forall (A : Type) (l : list A) d,
  l <> [] -> exists pre, l = (pre ++ [last l d])%list.
Proof.
  intros A l d H; exists (removelast l); apply app_removelast_last; exact H.
Qed.

(** *** Files that cannot be read *)

Lemma read_unreadable : forall t py_file why,
  NoDup (rglob t) -> In (py_file, Unreadable why) t ->
  read t py_file = Unreadable why.
Proof.
  induction t as [|[q d] t IH]; intros py_file why N I; [destruct I|].
  simpl in N; inversion N as [|? ? Hq Ht]; subst.
  simpl. destruct (q =? py_file) eqn:Q.
  - apply String.eqb_eq in Q; subst q.
    destruct I as [I|I]; [congruence|].
    exfalso; apply Hq. change py_file with (fst (py_file, Unreadable why)).
    apply in_map, I.
  - destruct I as [I|I]; [|apply IH; assumption].
    apply String.eqb_neq in Q; congruence.
Qed.

Lemma write_keeps_unreadable : forall t q old code py_file why,
  NoDup (rglob t) -> read t q = Text old -> In (py_file, Unreadable why) t ->
  In (py_file, Unreadable why) (write q code t).
Proof.
  intros t q old code py_file why N R I; unfold write.
  assert (Q : (py_file =? q) = false).
  { apply String.eqb_neq; intros ->.
    rewrite (read_unreadable _ _ _ N I) in R; discriminate. }
  apply in_map_iff; exists (py_file, Unreadable why); simpl; rewrite Q; auto.
Qed.

Lemma rewrites_keeps_unreadable : forall evs t py_file why,
  rewrites t evs -> NoDup (rglob t) -> In (py_file, Unreadable why) t ->
  In (py_file, Unreadable why) (replay evs t).
Proof.
  induction evs as [|e evs IH]; intros t py_file why R N I; simpl; [exact I|].
  destruct e as [tool code|q code]; simpl in R.
  - apply IH; assumption.
  - destruct R as ([old Ro] & _ & R).
    apply IH; [exact R | rewrite rglob_write; exact N|].
    eapply write_keeps_unreadable; eassumption.
Qed.

Lemma rewrites_nonempty : forall evs t,
  rewrites t evs -> Forall (fun code => code <> "") (written evs).
Proof.
  induction evs as [|e evs IH]; intros t R; simpl; [constructor|].
  destruct e as [tool code|q code]; simpl in R.
  - eapply IH; exact R.
  - destruct R as (_ & N & R); constructor; [exact N | eapply IH; exact R].
Qed.

Lemma last_in : forall (A : Type) (l : list A) d, l <> [] -> In (last l d) l.
Proof.
  intros A l d H. destruct (nonempty_last _ l d H) as [pre E].
  rewrite E at 2. apply in_or_app; right; left; reflexivity.
Qed.

(** A run that reports success leaves a tree that passes the check. *)
Lemma success_passes : forall (self : Self AgentSt LLMManager) source_dir,
  final_status (results (migration self source_dir)) = "success" ->
  iterations (results (migration self source_dir)) <> []
  /\ final_migrated_code (migration self source_dir) <> []
  /\ all_pass py_compile (final_migrated_code (migration self source_dir)).
Proof.
  intros self source_dir Hs.
  destruct (migration_spec self source_dir)
    as (_ & _ & _ & _ & _ & _ & Hlast & _ & Hfin & _).
  destruct Hfin as [(N & L & _) | [(_ & _ & F) | (_ & _ & F)]]; try congruence.
  split; [exact N|]. apply attempt_success_iff.
  rewrite <- (Hlast (MkIteration 0 "" 0 [] 0 [] []) N). apply L.
Qed.

Lemma run_on_valid_tree : forall (self : Self AgentSt LLMManager) source_dir,
  source_dir <> [] -> 1 <= max_iterations self -> all_pass py_compile source_dir ->
  final_status (results (migration self source_dir)) = "success"
  /\ iterations (results (migration self source_dir))
     = [MkIteration 1 "success" 1 [] 0 [] []]
  /\ trace (migration self source_dir) = []
  /\ final_migrated_code (migration self source_dir) = source_dir.
Proof.
  intros self source_dir Hne Hmax Hall; unfold execute_migration.
  rewrite initialize_keeps_budget.
  destruct (max_iterations self) as [|n] eqn:M; [lia|].
  simpl seq; simpl iterate.
  rewrite round_on_valid_tree by assumption; simpl.
  repeat split.
Qed.

(** X3.  The record of a round agrees with the tree: its status is the
    verdict of the check on the tree the round leaves, its errors are
    those of the tree it found, its count of fixes is the number of
    files it wrote -- each a readable file, replaced by a text that is
    not empty --, a round without fix leaves the tree as it was, and the
    check ran once, or twice when a fix was applied. *)
Theorem X3_round_record_matches_the_tree :
  forall i (self : Self AgentSt LLMManager) w,
  let out := round i self w in
  let r := fst (fst out) in
  let w' := snd out in
  iteration r = i
  /\ compilation_status r = status (attempt (fs w'))
  /\ errors_found r = errors (attempt (fs w))
  /\ fixing w (fixes_applied r) w'
  /\ (fixes_applied r = 0 -> fs w' = fs w)
  /\ compilation_attempts r = (if (fixes_applied r =? 0)%nat then 1 else 2).
Proof.
  intros i self w.
  destruct (round_spec i self w) as (Hi & Hfix & Hstat & Herr & Hatt & _).
  repeat split; try assumption.
  intros Z; rewrite Z in Hfix; apply (fixing_zero _ _ Hfix).
Qed.

(** X4.  A round credits its tools exactly when it applied a fix and the
    check finds fewer errors on the tree it leaves than on the tree it
    found: then its [tools_used] are appended to [successful_fixes], and
    otherwise that list is unchanged; the other settings of the executor
    are never changed by a round. *)
Theorem X4_round_credits_tools_on_fewer_errors :
  forall i (self : Self AgentSt LLMManager) w,
  let out := round i self w in
  let r := fst (fst out) in
  let self' := snd (fst out) in
  let w' := snd out in
  successful_fixes self'
  = (successful_fixes self
     ++ (if (0 <? fixes_applied r)%nat
            && (List.length (errors (attempt (fs w')))
                <? List.length (errors (attempt (fs w))))%nat
         then tools_used r else []))%list
  /\ max_iterations self' = max_iterations self
  /\ migration_issues self' = migration_issues self
  /\ (agent_executor self' = None <-> agent_executor self = None).
Proof.
  intros i self w.
  destruct (round_spec i self w)
    as (_ & _ & _ & Herr & _ & _ & _ & Hmax & _ & Hiss & Hag & Hsf).
  cbv zeta. rewrite <- Herr. repeat split; try assumption; apply Hag.
Qed.

(** X5.  With a budget of at least one round, a run reports [success]
    exactly when the tree it leaves is not empty and every file of it
    passes the check. *)
Theorem X5_success_iff_the_final_tree_passes :
  forall (self : Self AgentSt LLMManager) source_dir,
  1 <= max_iterations self ->
  final_status (results (migration self source_dir)) = "success"
  <-> final_migrated_code (migration self source_dir) <> []
      /\ all_pass py_compile (final_migrated_code (migration self source_dir)).
Proof.
  intros self source_dir Hmax; split.
  - intros Hs; apply (success_passes self source_dir Hs).
  - intros Hp; apply attempt_success_iff in Hp.
    destruct (migration_spec self source_dir)
      as (_ & _ & _ & _ & _ & _ & Hlast & _ & Hfin & _).
    set (d := MkIteration 0 "" 0 [] 0 [] []).
    destruct Hfin as [(_ & _ & F) | [(N & L & _) | (P & Ln & _)]]; [exact F| |].
    + exfalso. apply (proj1 (L d)). rewrite (Hlast d N); exact Hp.
    + exfalso.
      assert (N : iterations (results (migration self source_dir)) <> [])
        by (intros E; rewrite E in Ln; simpl in Ln; lia).
      pose proof (last_in _ _ d N) as I.
      rewrite Forall_forall in P. apply (proj1 (P _ I)).
      rewrite (Hlast d N); exact Hp.
Qed.

(** X6.  The rounds of a run are numbered from one without gap, there
    are at most [max_iterations] of them, the total of compilation
    attempts is the sum over the rounds and lies between one and two per
    round, and every round but the last neither succeeded nor came
    without a fix. *)
Theorem X6_rounds_are_numbered_and_bounded :
  forall (self : Self AgentSt LLMManager) source_dir,
  let o := migration self source_dir in
  let rs := iterations (results o) in
  map iteration rs = seq 1 (List.length rs)
  /\ List.length rs <= max_iterations self
  /\ total_compilation_attempts (results o) = list_sum (map compilation_attempts rs)
  /\ List.length rs <= total_compilation_attempts (results o)
  /\ total_compilation_attempts (results o) <= 2 * List.length rs
  /\ Forall progressing (removelast rs).
Proof.
  intros self source_dir.
  destruct (migration_spec self source_dir)
    as (Hnum & Hlen & Htot & Hco & _ & _ & _ & Hpre & _).
  cbv zeta. rewrite Htot.
  destruct (coherent_attempts _ Hco) as [A1 A2].
  repeat split; assumption.
Qed.

(** X7.  The final status is read off the last round: it is [success]
    exactly when the last round recorded succeeded, [unknown] exactly
    when the last round did not succeed and applied no fix, and
    [max_iterations_reached] exactly when [max_iterations] rounds ran and
    each of them applied a fix without succeeding; there is no other
    final status. *)
Theorem X7_final_status_is_read_off_the_last_round :
  forall (self : Self AgentSt LLMManager) source_dir,
  let o := migration self source_dir in
  let rs := iterations (results o) in
  (final_status (results o) = "success"
   <-> exists pre r, rs = (pre ++ [r])%list /\ compilation_status r = "success")
  /\ (final_status (results o) = "unknown"
      <-> exists pre r, rs = (pre ++ [r])%list
                        /\ compilation_status r <> "success" /\ fixes_applied r = 0)
  /\ (final_status (results o) = "max_iterations_reached"
      <-> List.length rs = max_iterations self /\ Forall progressing rs)
  /\ (final_status (results o) = "success" \/ final_status (results o) = "unknown"
      \/ final_status (results o) = "max_iterations_reached").
Proof.
  intros self source_dir.
  destruct (migration_spec self source_dir)
    as (_ & _ & _ & _ & _ & _ & _ & _ & Hfin & _).
  cbv zeta.
  set (rs := iterations (results (migration self source_dir))) in *.
  set (d := MkIteration 0 "" 0 [] 0 [] []).
  assert (Hprog : forall pre r, rs = (pre ++ [r])%list -> Forall progressing rs -> progressing r).
  { intros pre r E P. rewrite Forall_forall in P. apply P.
    rewrite E; apply in_or_app; right; left; reflexivity. }
  assert (Hlast : forall pre r, rs = (pre ++ [r])%list -> last rs d = r)
    by (intros pre r E; rewrite E; apply last_last).
  destruct Hfin as [(N & L & F) | [(N & L & F) | (P & Ln & F)]]; rewrite F.
  - destruct (nonempty_last _ rs d N) as [pre E].
    split; [|split; [|split]].
    + split; [intros _; exists pre, (last rs d); split; [exact E | apply L] | reflexivity].
    + split; [discriminate|]. intros [p [r [E' [Hn _]]]].
      exfalso; apply Hn. rewrite <- (Hlast _ _ E'); apply L.
    + split; [discriminate|]. intros [_ P].
      exfalso. apply (proj1 (Hprog _ _ E P)), L.
    + left; reflexivity.
  - destruct (nonempty_last _ rs d N) as [pre E].
    split; [|split; [|split]].
    + split; [discriminate|]. intros [p [r [E' Hs]]].
      exfalso. apply (proj1 (L d)). rewrite (Hlast _ _ E'); exact Hs.
    + split; [|reflexivity].
      intros _; exists pre, (last rs d); split; [exact E | apply L].
    + split; [discriminate|]. intros [_ P].
      exfalso. apply (proj2 (Hprog _ _ E P)), L.
    + right; left; reflexivity.
  - split; [|split; [|split]].
    + split; [discriminate|]. intros [p [r [E Hs]]].
      exfalso. apply (proj1 (Hprog _ _ E P)), Hs.
    + split; [discriminate|]. intros [p [r [E [_ Hz]]]].
      exfalso. apply (proj2 (Hprog _ _ E P)), Hz.
    + split; [intros _; split; assumption | reflexivity].
    + right; right; reflexivity.
Qed.

(** X8.  Every write of a run replaces a file that reads as text at that
    moment, by a text that is not empty; the number of writes is the sum
    of [fixes_applied] over the rounds; and the run neither adds,
    removes nor renames a file. *)
Theorem X8_writes_replace_readable_files :
  forall (self : Self AgentSt LLMManager) source_dir,
  let o := migration self source_dir in
  rewrites source_dir (trace o)
  /\ Forall (fun code => code <> "") (written (trace o))
  /\ List.length (written (trace o))
     = list_sum (map fixes_applied (iterations (results o)))
  /\ rglob (final_migrated_code o) = rglob source_dir.
Proof.
  intros self source_dir.
  destruct (migration_spec self source_dir) as (_ & _ & _ & _ & _ & Hfix & _).
  cbv zeta.
  pose proof (fixing_rglob _ _ _ Hfix) as G; simpl in G.
  destruct Hfix as [evs [[Hl _] [R Ln]]]; simpl in Hl, R; subst evs.
  repeat split; try assumption.
  eapply rewrites_nonempty; exact R.
Qed.

(** X9.  A file that cannot be read stays as it is, and a run on a tree
    with such a file never reports [success]. *)
Theorem X9_unreadable_file_blocks_success :
  forall (self : Self AgentSt LLMManager) source_dir py_file why,
  NoDup (rglob source_dir) -> In (py_file, Unreadable why) source_dir ->
  In (py_file, Unreadable why) (final_migrated_code (migration self source_dir))
  /\ final_status (results (migration self source_dir)) <> "success".
Proof.
  intros self source_dir py_file why N I.
  assert (K : In (py_file, Unreadable why)
                (final_migrated_code (migration self source_dir))).
  { destruct (migration_spec self source_dir) as (_ & _ & _ & _ & _ & Hfix & _).
    destruct Hfix as [evs [[_ Hf] [R _]]]; simpl in Hf, R.
    rewrite Hf. apply rewrites_keeps_unreadable; assumption. }
  split; [exact K|].
  intros Hs. destruct (success_passes self source_dir Hs) as (_ & _ & P).
  destruct (P _ _ K) as [code [E _]]; discriminate.
Qed.

(** X10.  A run changes neither the round budget, the manager nor the
    list of migration issues of the executor; the unresolved issues it
    reports are the list the executor had before the run, whatever
    happened to the files; and it reports an agent as available exactly
    when the executor has one after the run. *)
Theorem X10_run_keeps_the_settings :
  forall (self : Self AgentSt LLMManager) source_dir,
  let o := migration self source_dir in
  max_iterations (executor o) = max_iterations self
  /\ llm_manager (executor o) = llm_manager self
  /\ migration_issues (executor o) = migration_issues self
  /\ unresolved_issues (results o) = migration_issues self
  /\ (agent_available (results o) = false <-> agent_executor (executor o) = None).
Proof.
  intros self source_dir.
  destruct (migration_spec self source_dir)
    as (_ & _ & _ & _ & _ & _ & _ & _ & _ & Hmax & Hllm & Hiss & Hun & Hav & _).
  repeat split; try assumption; apply Hav.
Qed.

(** X11.  The successful fixes a run reports are those of the executor
    after the run: the ones it had before, followed by the [tools_used]
    of some of the recorded rounds, each of which applied a fix. *)
Theorem X11_successful_fixes_come_from_rounds :
  forall (self : Self AgentSt LLMManager) source_dir,
  let o := migration self source_dir in
  results_successful_fixes (results o) = successful_fixes (executor o)
  /\ exists credited,
       successful_fixes (executor o)
       = (successful_fixes self ++ flat_map tools_used credited)%list
       /\ incl credited (iterations (results o))
       /\ Forall (fun r => fixes_applied r <> 0) credited.
Proof.
  intros self source_dir.
  destruct (migration_spec self source_dir)
    as (_ & _ & _ & _ & _ & _ & _ & _ & _ & _ & _ & _ & _ & _ & Hrs & Hcred).
  split; assumption.
Qed.

(** X12.  In every round the entries of [tools_used] stand for no more
    files than the round fixed, and a round fixes something only when
    its check found errors; when no agent is available the entries stand
    for exactly the files fixed. *)
Theorem X12_tools_used_accounts_for_the_fixes :
  forall (self : Self AgentSt LLMManager) source_dir,
  let o := migration self source_dir in
  Forall (fun r => list_sum (map files_of (tools_used r)) <= fixes_applied r
                   /\ (fixes_applied r <> 0 -> errors_found r <> []))
    (iterations (results o))
  /\ (agent_available (results o) = false ->
      Forall (fun r => list_sum (map files_of (tools_used r)) = fixes_applied r)
        (iterations (results o))).
Proof.
  intros self source_dir.
  destruct (migration_spec self source_dir) as (_ & _ & _ & Hco & Hex & _).
  split; [|exact Hex].
  eapply Forall_impl; [|exact Hco].
  intros r (_ & A & B); split; assumption.
Qed.

(** X13.  Running the executor again on the tree a successful run left
    ends in the first round with [success]: one round with one check, no
    tool run, and no file written. *)
Theorem X13_rerun_after_success_changes_nothing :
  forall (self : Self AgentSt LLMManager) source_dir,
  final_status (results (migration self source_dir)) = "success" ->
  let o := migration self source_dir in
  let again := migration (executor o) (final_migrated_code o) in
  final_status (results again) = "success"
  /\ iterations (results again) = [MkIteration 1 "success" 1 [] 0 [] []]
  /\ trace again = []
  /\ final_migrated_code again = final_migrated_code o.
Proof.
  intros self source_dir Hs.
  destruct (success_passes self source_dir Hs) as (N & Ne & P).
  destruct (migration_spec self source_dir)
    as (_ & Hlen & _ & _ & _ & _ & _ & _ & _ & Hmax & _).
  apply run_on_valid_tree; try assumption.
  rewrite Hmax.
  destruct (iterations (results (migration self source_dir))); [congruence|].
  simpl in Hlen; lia.
Qed.

(** *** The chain, seen from its caller *)

Lemma chain_text_valid : forall (guarded : bool) original_code,
  let c1 := if guarded then carried Python2To3Tool original_code else original_code in
  let c2 := carried PyUpgradeTool c1 in
  let c3 := carried ModernizeTool c2 in
  (guarded && accepts Python2To3Tool original_code)
  || accepts PyUpgradeTool c1 || accepts ModernizeTool c2 = true ->
  valid c3 = true /\ truthy c3 = true.
Proof.
  intros guarded original_code c1 c2 c3 C.
  unfold c3. destruct (accepts ModernizeTool c2) eqn:A3;
    [split; [apply carried_valid | apply carried_truthy]; exact A3|].
  rewrite (carried_same _ _ _ _ A3).
  unfold c2. destruct (accepts PyUpgradeTool c1) eqn:A2;
    [split; [apply carried_valid | apply carried_truthy]; exact A2|].
  rewrite (carried_same _ _ _ _ A2).
  rewrite orb_false_r, orb_false_r in C.
  apply andb_true_iff in C; destruct C as [G A1].
  unfold c1; rewrite G.
  split; [apply carried_valid | apply carried_truthy]; exact A1.
Qed.

(** X23.  The fallback chain tells its caller what it did: it returns
    false and leaves every file as it was, or it returns true after one
    write, to the file it was given, of a text that is not empty and
    passes the validity check. *)
Theorem X23_chain_writes_once_or_not_at_all : forall py_file original_code w,
  let out := chain py_file original_code w in
  (fst out = false /\ fs (snd out) = fs w
   /\ written (log (snd out)) = written (log w))
  \/ (fst out = true
      /\ exists code,
           fs (snd out) = write py_file code (fs w)
           /\ written (log (snd out)) = (written (log w) ++ [code])%list
           /\ valid code = true /\ code <> "").
Proof.
  intros py_file original_code w. cbv zeta. rewrite chain_eq. cbv zeta.
  pose proof (chain_text_valid (contains_any python2_markers original_code)
                original_code) as V. cbv zeta in V.
  generalize dependent (contains_any python2_markers original_code); intros g V.
  destruct g; cbn [andb] in V |- *.
  - destruct (accepts Python2To3Tool original_code
              || accepts PyUpgradeTool (carried Python2To3Tool original_code)
              || accepts ModernizeTool
                   (carried PyUpgradeTool (carried Python2To3Tool original_code))).
    + right; split; [reflexivity|].
      destruct (V eq_refl) as [Vc Tc]. eexists; split; [|split; [|split]].
      * reflexivity.
      * simpl; rewrite ?written_app; simpl; rewrite ?app_nil_r; reflexivity.
      * exact Vc.
      * apply truthy_nonempty, Tc.
    + left; simpl; rewrite ?written_app; simpl; rewrite ?app_nil_r; repeat split.
  - destruct (false || accepts PyUpgradeTool original_code
              || accepts ModernizeTool (carried PyUpgradeTool original_code)).
    + right; split; [reflexivity|].
      destruct (V eq_refl) as [Vc Tc]. eexists; split; [|split; [|split]].
      * reflexivity.
      * simpl; rewrite ?written_app; simpl; rewrite ?app_nil_r; reflexivity.
      * exact Vc.
      * apply truthy_nonempty, Tc.
    + left; simpl; rewrite ?written_app; simpl; rewrite ?app_nil_r; repeat split.
Qed.

End RoundFacts.


(** ** A run without agent *)

Section NoManager.

Variable py_compile : string -> string -> CompileOutcome.
Variable json_loads : string -> option string.
Variable tool_run : Tool -> string -> string.
Variable str_error : ErrorInfo -> string.
Variable AgentSt : Type.
Variable LLMManager : Type.

Lemma round_without_agent :
  forall (invoke1 invoke2 : AgentSt -> string -> AgentSt * AgentReply)
         i (self : Self AgentSt LLMManager) w,
  agent_executor self = None ->
  _execute_iteration_with_agent py_compile json_loads tool_run str_error invoke1 i self w
  = _execute_iteration_with_agent py_compile json_loads tool_run str_error invoke2 i self w.
Proof.
  intros invoke1 invoke2 i self w N.
  unfold _execute_iteration_with_agent, apply_fixes; rewrite N; reflexivity.
Qed.

Lemma rounds_without_agent :
  forall (invoke1 invoke2 : AgentSt -> string -> AgentSt * AgentReply)
         rounds results (self : Self AgentSt LLMManager) w,
  agent_executor self = None ->
  iterate py_compile json_loads tool_run str_error invoke1 rounds results self w
  = iterate py_compile json_loads tool_run str_error invoke2 rounds results self w.
Proof.
  intros invoke1 invoke2; induction rounds as [|i rounds IH]; intros results self w N;
    [reflexivity|].
  cbn [iterate]. rewrite (round_without_agent invoke1 invoke2 i self w N).
  pose proof (round_spec py_compile json_loads tool_run str_error AgentSt invoke2
                LLMManager i self w) as R.
  destruct (_execute_iteration_with_agent py_compile json_loads tool_run str_error
              invoke2 i self w) as [[r self1] w1]; cbn [fst snd] in R.
  destruct R as (_ & _ & _ & _ & _ & _ & _ & _ & _ & _ & Hag & _).
  rewrite IH by (apply Hag, N); reflexivity.
Qed.

(** X24.  An executor that has no agent and cannot make one -- it has
    no manager, or the construction of the agent fails -- never calls an
    agent: whatever [invoke] would do, the run is the same in every
    respect. *)
Theorem X24_without_agent_invoke_plays_no_part :
  forall (invoke1 invoke2 : AgentSt -> string -> AgentSt * AgentReply)
         (initialize1 initialize2 : LLMManager -> option AgentSt)
         (self : Self AgentSt LLMManager) source_dir,
  agent_executor (_initialize_agent initialize1 self) = None ->
  agent_executor (_initialize_agent initialize2 self) = None ->
  execute_migration py_compile json_loads tool_run str_error invoke1 initialize1
    self source_dir
  = execute_migration py_compile json_loads tool_run str_error invoke2 initialize2
      self source_dir.
Proof.
  intros invoke1 invoke2 initialize1 initialize2 self source_dir N1 N2.
  assert (E : _initialize_agent initialize1 self = _initialize_agent initialize2 self).
  { destruct self as [mx [m|] [a|] iss sf]; unfold _initialize_agent in *;
      simpl in *; try discriminate; try reflexivity.
    rewrite N1, N2; reflexivity. }
  unfold execute_migration. rewrite <- E.
  rewrite (rounds_without_agent invoke1 invoke2 _ _ _ _ N1); reflexivity.
Qed.

End NoManager.

(** ** The tool runs of the manual pass *)

Lemma read_write_other : forall t q code py_file,
  q <> py_file -> read (write q code t) py_file = read t py_file.
Proof.
  induction t as [|[a d] t IH]; intros q code py_file N; [reflexivity|].
  simpl. destruct (a =? q) eqn:Q; simpl.
  - apply String.eqb_eq in Q; subst a.
    destruct (q =? py_file) eqn:P; [apply String.eqb_eq in P; contradiction|].
    apply IH, N.
  - destruct (a =? py_file); [reflexivity | apply IH, N].
Qed.

Lemma read_write_same : forall t q code old,
  read t q = Text old -> read (write q code t) q = Text code.
Proof.
  induction t as [|[a d] t IH]; intros q code old R; [discriminate|].
  simpl in R |- *. destruct (a =? q) eqn:Q; simpl; rewrite Q.
  - reflexivity.
  - eapply IH; exact R.
Qed.

Lemma write_keeps_readable : forall t q code old py_file,
  read t q = Text old ->
  is_text (read (write q code t) py_file) = is_text (read t py_file).
Proof.
  intros t q code old py_file R.
  destruct (String.eqb_spec q py_file) as [<-|N].
  - rewrite (read_write_same _ _ _ _ R), R; reflexivity.
  - rewrite read_write_other by exact N; reflexivity.
Qed.

Lemma rewrites_keeps_readable : forall evs t py_file,
  rewrites t evs -> is_text (read (replay evs t) py_file) = is_text (read t py_file).
Proof.
  induction evs as [|e evs IH]; intros t py_file R; [reflexivity|].
  destruct e as [tool code|q code]; simpl in R |- *.
  - apply IH, R.
  - destruct R as ([old Ro] & _ & R).
    rewrite (IH _ _ R). eapply write_keeps_readable; exact Ro.
Qed.

Lemma rewrites_readable : forall evs t,
  rewrites t evs -> readable (replay evs t) = readable t.
Proof.
  intros evs t R; unfold readable. rewrite rglob_replay.
  apply filter_ext; intros p; apply rewrites_keeps_readable, R.
Qed.

Section ManualRuns.

Variable tool_run : Tool -> string -> string.
Variable str_error : ErrorInfo -> string.

Lemma manual_file_runs : forall tool st py_file,
  exists evs,
    after (snd st) evs (snd (manual_file tool_run tool st py_file))
    /\ rewrites (fs (snd st)) evs
    /\ map fst (tool_runs evs)
       = if is_text (read (fs (snd st)) py_file) then [tool] else [].
Proof.
  intros tool [k w] py_file; unfold manual_file; simpl.
  destruct (read (fs w) py_file) as [original_code|why] eqn:R; simpl.
  - destruct (_extract_code_from_result (tool_run tool original_code))
      as [modified_code|];
      [|exists [ToolRun tool original_code]; repeat split].
    destruct (truthy modified_code) eqn:T; simpl;
      [|exists [ToolRun tool original_code]; repeat split].
    destruct (negb (modified_code =? original_code)); simpl;
      [|exists [ToolRun tool original_code]; repeat split].
    exists [ToolRun tool original_code; FileWrite py_file modified_code].
    split; [split; simpl; [rewrite <- app_assoc; reflexivity | reflexivity]|].
    split; [|reflexivity].
    simpl; split; [exists original_code; exact R|].
    split; [apply truthy_nonempty, T | exact I].
  - exists []; split; [apply after_refl | split; [exact I | reflexivity]].
Qed.

Lemma manual_files_run : forall tool l st,
  exists evs,
    after (snd st) evs (snd (fold_left (manual_file tool_run tool) l st))
    /\ rewrites (fs (snd st)) evs
    /\ map fst (tool_runs evs)
       = repeat tool
           (List.length (filter (fun p => is_text (read (fs (snd st)) p)) l)).
Proof.
  intros tool; induction l as [|p l IH]; intros st.
  - exists []; split; [apply after_refl | split; [exact I | reflexivity]].
  - cbn [fold_left].
    destruct (manual_file_runs tool st p) as [e1 (A1 & R1 & T1)].
    destruct (IH (manual_file tool_run tool st p)) as [e2 (A2 & R2 & T2)].
    exists (e1 ++ e2)%list.
    split; [eapply after_trans; eassumption|].
    assert (F1 : fs (snd (manual_file tool_run tool st p)) = replay e1 (fs (snd st)))
      by apply A1.
    split; [apply rewrites_app; split; [exact R1 | rewrite <- F1; exact R2]|].
    rewrite tool_runs_app, map_app, T1, T2.
    replace (filter (fun p0 => is_text (read (fs (snd (manual_file tool_run tool st p))) p0)) l)
      with (filter (fun p0 => is_text (read (fs (snd st)) p0)) l)
      by (apply filter_ext; intros q; rewrite F1;
          symmetry; apply rewrites_keeps_readable, R1).
    cbn [filter].
    destruct (is_text (read (fs (snd st)) p)); reflexivity.
Qed.

Lemma manual_tool_runs : forall st tool,
  exists evs,
    after (snd st) evs (snd (manual_tool tool_run st tool))
    /\ rewrites (fs (snd st)) evs
    /\ map fst (tool_runs evs)
       = repeat tool (List.length (readable (fs (snd st)))).
Proof.
  intros [[k r] w] tool; unfold manual_tool.
  destruct (manual_files_run tool (rglob (fs w)) (0, w)) as [evs (A & R & T)].
  destruct (fold_left (manual_file tool_run tool) (rglob (fs w)) (0, w))
    as [files_modified w']; simpl in A, R, T |- *.
  exists evs; destruct (0 <? files_modified)%nat; simpl;
    (split; [exact A | split; [exact R | exact T]]).
Qed.

Lemma manual_tools_run : forall l st,
  exists evs,
    after (snd st) evs (snd (fold_left (manual_tool tool_run) l st))
    /\ rewrites (fs (snd st)) evs
    /\ map fst (tool_runs evs)
       = flat_map (fun tool => repeat tool (List.length (readable (fs (snd st))))) l.
Proof.
  induction l as [|tool l IH]; intros st.
  - exists []; split; [apply after_refl | split; [exact I | reflexivity]].
  - cbn [fold_left flat_map].
    destruct (manual_tool_runs st tool) as [e1 (A1 & R1 & T1)].
    destruct (IH (manual_tool tool_run st tool)) as [e2 (A2 & R2 & T2)].
    assert (F1 : fs (snd (manual_tool tool_run st tool)) = replay e1 (fs (snd st)))
      by apply A1.
    exists (e1 ++ e2)%list.
    split; [eapply after_trans; eassumption|].
    split; [apply rewrites_app; split; [exact R1 | rewrite <- F1; exact R2]|].
    rewrite tool_runs_app, map_app, T1, T2, F1, (rewrites_readable _ _ R1).
    reflexivity.
Qed.


End ManualRuns.

(** ** Fenced blocks *)

Lemma char_eq_refl : forall ic a, char_eq ic a a = true.
Proof. intros [|] a; unfold char_eq; apply Ascii.eqb_refl. Qed.

Lemma eat_app : forall ic l p s cp,
  exists p', eat ic l (MState p (l ++ s) cp) = Some (MState p' s cp).
Proof.
  induction l as [|a l IH]; intros p s cp; simpl.
  - exists p; reflexivity.
  - rewrite char_eq_refl. apply IH.
Qed.

Lemma length_append : forall a b,
  String.length (a ++ b) = String.length a + String.length b.
Proof.
  induction a as [|c a IH]; intros b; simpl; [reflexivity | rewrite IH; reflexivity].
Qed.

Lemma length_drop_app : forall a b,
  String.length (a ++ b) - String.length b = String.length a.
Proof. intros a b; rewrite length_append; lia. Qed.

Lemma take_app : forall a b, take (String.length a) (a ++ b) = a.
Proof.
  induction a as [|c a IH]; intros b; simpl.
  - destruct b; reflexivity.
  - rewrite IH; reflexivity.
Qed.

Lemma mem_app : forall c a b, mem c (a ++ b) = mem c a || mem c b.
Proof.
  induction a as [|x a IH]; intros b; simpl; [reflexivity|].
  rewrite IH, orb_assoc; reflexivity.
Qed.

Lemma run_any : forall (A : Type) ic (k : mstate -> option A) p c s cp,
  run ic AnyChar k (MState p (String c s) cp) = k (MState (Some c) s cp).
Proof. reflexivity. Qed.

(** The lazy star over any character stops at the first position where
    the rest of the pattern matches. *)
Lemma lazy_star_stops : forall (A : Type) ic (k : mstate -> option A) tail cp x,
  (forall p, k (MState p tail cp) = Some x) ->
  forall code,
  (forall pre c post p, code = pre ++ String c post ->
     k (MState p (String c post ++ tail) cp) = None) ->
  forall n p, String.length code <= n ->
  star_loop false (run ic AnyChar) k n (MState p (code ++ tail) cp) = Some x.
Proof.
  intros A ic k tail cp x Hk.
  induction code as [|c code IH]; intros Hno n p Hn.
  - cbn [append]. destruct n as [|n]; cbn [star_loop]; rewrite Hk; reflexivity.
  - destruct n as [|n]; [simpl in Hn; lia|].
    cbn [star_loop].
    rewrite (Hno "" c code p eq_refl).
    cbn [orelse].
    change (String c code ++ tail) with (String c (code ++ tail)).
    rewrite run_any. cbn [rest].
    replace (String.length (code ++ tail) <? String.length (String c (code ++ tail)))%nat
      with true by (symmetry; apply Nat.ltb_lt; simpl; lia).
    apply IH; [|simpl in Hn; lia].
    intros pre c' post p' E. apply (Hno (String c pre) c' post p').
    rewrite E; reflexivity.
Qed.

(** The closing fence does not match inside a text without backquote. *)
Lemma closing_fails_inside : forall ic c post f p cp,
  mem "`"%char (String c post) = false ->
  eat ic (nl ++ "```") (MState p (String c post ++ nl ++ "```" ++ f) cp) = None.
Proof.
  intros ic c post f p cp M.
  cbn [nl chr append eat rest].
  destruct (char_eq ic (ascii_of_nat 10) c); [|reflexivity].
  cbn [eat rest cap].
  simpl in M. apply orb_false_iff in M; destruct M as [_ M].
  destruct post as [|c2 post]; cbn [append].
  - destruct ic; reflexivity.
  - simpl in M. apply orb_false_iff in M; destruct M as [M _].
    destruct (char_eq ic "`"%char c2) eqn:E; [|reflexivity].
    apply backquote_caseless in E. subst c2. rewrite Ascii.eqb_refl in M; discriminate.
Qed.

(** The opening fence does not match at a character other than the
    backquote. *)
Lemma opening_fails : forall ic op c s p cp (A : Type) (k : mstate -> option A),
  Ascii.eqb "`"%char c = false ->
  run ic (Lit (String "`"%char op)) k (MState p (String c s) cp) = None.
Proof.
  intros ic op c s p cp A k E; cbn [run eat rest].
  destruct (char_eq ic "`"%char c) eqn:C; [|reflexivity].
  apply backquote_caseless in C; subst c.
  rewrite Ascii.eqb_refl in E; discriminate.
Qed.

Lemma run_cat : forall (A : Type) ic r1 r2 (k : mstate -> option A) st,
  run ic (Cat r1 r2) k st = run ic r1 (run ic r2 k) st.
Proof. reflexivity. Qed.

Lemma run_lit : forall (A : Type) ic l (k : mstate -> option A) st,
  run ic (Lit l) k st = match eat ic l st with Some st' => k st' | None => None end.
Proof. reflexivity. Qed.

Lemma run_lazy_group : forall (A : Type) ic (k : mstate -> option A) st,
  run ic (Group (Star false AnyChar)) k st
  = star_loop false (run ic AnyChar)
      (fun st1 =>
         k (MState (prev st1) (rest st1)
              (Some (take (String.length (rest st) - String.length (rest st1))
                       (rest st)))))
      (S (String.length (rest st))) st.
Proof. reflexivity. Qed.

(** The tagged fence, matched where it starts. *)
Lemma fence_python_here : forall ic code f p,
  mem "`"%char code = false ->
  run ic fence_python (fun st => Some (cap st))
    (MState p ("```python" ++ nl ++ code ++ nl ++ "```" ++ f) None)
  = Some (Some code).
Proof.
  intros ic code f p M.
  unfold fence_python, fenced. cbn [cat].
  change ("```python" ++ nl ++ code ++ nl ++ "```" ++ f)
    with (("```python" ++ nl) ++ (code ++ nl ++ "```" ++ f)).
  destruct (eat_app ic ("```python" ++ nl) p (code ++ nl ++ "```" ++ f) None)
    as [p1 E1].
  rewrite run_cat, run_lit, E1, run_cat, run_lazy_group. cbn [rest].
  apply lazy_star_stops; [| |rewrite length_append; lia].
  - intros p2. cbn [rest prev].
    rewrite length_drop_app, take_app.
    change (nl ++ "```" ++ f) with ((nl ++ "```") ++ f).
    destruct (eat_app ic (nl ++ "```") p2 f (Some code)) as [p3 E3].
    rewrite run_lit, E3; reflexivity.
  - intros pre c post p2 E. cbn [rest prev].
    rewrite run_lit, closing_fails_inside; [reflexivity|].
    subst code. rewrite mem_app in M. apply orb_false_iff in M; apply M.
Qed.

Lemma search_from_unfold : forall ic r p s,
  search_from ic r p s
  = match run ic r (fun st => Some (cap st)) (MState p s None) with
    | Some c => Some c
    | None =>
        match s with
        | EmptyString => None
        | String c s' => search_from ic r (Some c) s'
        end
    end.
Proof. intros ic r p [|c s]; reflexivity. Qed.

Lemma search_from_fence_python : forall ic h code f p,
  mem "`"%char h = false -> mem "`"%char code = false ->
  search_from ic fence_python p (h ++ "```python" ++ nl ++ code ++ nl ++ "```" ++ f)
  = Some (Some code).
Proof.
  intros ic h; induction h as [|c h IH]; intros code f p Mh Mc.
  - change (search_from ic fence_python p
              ("```python" ++ nl ++ code ++ nl ++ "```" ++ f) = Some (Some code)).
    rewrite search_from_unfold, fence_python_here by exact Mc.
    reflexivity.
  - simpl in Mh. apply orb_false_iff in Mh; destruct Mh as [Mc1 Mh].
    change (search_from ic fence_python p
              (String c (h ++ "```python" ++ nl ++ code ++ nl ++ "```" ++ f))
            = Some (Some code)).
    rewrite search_from_unfold.
    unfold fence_python at 1, fenced. cbn [cat].
    rewrite run_cat.
    change ("```python" ++ nl) with (String "`"%char ("``python" ++ nl)).
    rewrite opening_fails by exact Mc1.
    apply IH; assumption.
Qed.

Lemma search_fence_python : forall ic h code f,
  mem "`"%char h = false -> mem "`"%char code = false ->
  search ic fence_python (h ++ "```python" ++ nl ++ code ++ nl ++ "```" ++ f)
  = Some code.
Proof.
  intros ic h code f Mh Mc; unfold search.
  rewrite search_from_fence_python by assumption; reflexivity.
Qed.

Lemma extract_fenced : forall h code f,
  mem "`"%char h = false -> mem "`"%char code = false ->
  _extract_code_from_result (h ++ "```python" ++ nl ++ code ++ nl ++ "```" ++ f)
  = Some code.
Proof.
  intros h code f Mh Mc; unfold _extract_code_from_result.
  rewrite search_fence_python by assumption; reflexivity.
Qed.

(** X14.  From a text that holds a block opened by three backquotes and
    the word python and closed by a newline and three backquotes,
    [_extract_code_from_result] returns what stands between them, as it
    is and unchecked, when neither the text before the block nor the
    block holds a backquote; what follows the block plays no part, so
    the first block wins. *)
Theorem X14_first_python_fence_is_extracted : forall h code f,
  mem "`"%char h = false -> mem "`"%char code = false ->
  _extract_code_from_result (h ++ "```python" ++ nl ++ code ++ nl ++ "```" ++ f)
  = Some code.
Proof.
  intros h code f Mh Mc; unfold _extract_code_from_result.
  rewrite (search_fence_python false h code f Mh Mc); reflexivity.
Qed.

(** ** Text without a fence *)

Lemma startswith_app : forall a b, startswith a (a ++ b) = true.
Proof.
  induction a as [|c a IH]; intros b; simpl; [reflexivity|].
  rewrite Ascii.eqb_refl; apply IH.
Qed.

Lemma startswith_refl_contains : forall p s, startswith p s = true -> contains p s = true.
Proof. intros p s H; rewrite contains_unfold, H; reflexivity. Qed.

Lemma lstrip_suffix : forall s, is_suffix (lstrip s) s.
Proof.
  induction s as [|c s IH]; simpl; [apply is_suffix_refl|].
  destruct (is_space c); [|apply is_suffix_refl].
  eapply is_suffix_trans; [exact IH | apply is_suffix_tail].
Qed.

Lemma rstrip_prefix : forall s, startswith (rstrip s) s = true.
Proof.
  induction s as [|c s IH]; simpl; [reflexivity|].
  destruct (rstrip s) as [|c' r] eqn:R.
  - destruct (is_space c); simpl; [reflexivity|].
    rewrite Ascii.eqb_refl; reflexivity.
  - simpl. rewrite Ascii.eqb_refl. exact IH.
Qed.

Lemma contains_strip : forall lit s, contains lit (strip s) = true -> contains lit s = true.
Proof.
  intros lit s H; unfold strip in H.
  apply (contains_suffix lit (lstrip s) s (lstrip_suffix s)).
  apply (startswith_contains lit (rstrip (lstrip s)) (lstrip s)); [|exact H].
  apply rstrip_prefix.
Qed.

Lemma contains_cons : forall lit c s, contains lit s = true -> contains lit (String c s) = true.
Proof.
  intros lit c s H. apply (contains_suffix lit s (String c s)); [|exact H].
  apply is_suffix_tail.
Qed.

Lemma contains_line : forall lit s line,
  In line (split_lines s) -> contains lit line = true -> contains lit s = true.
Proof.
  intros lit; induction s as [|c s IH]; intros line I H.
  - simpl in I. destruct I as [<-|[]]; exact H.
  - simpl in I. destruct (Ascii.eqb c (ascii_of_nat 10)) eqn:E.
    + destruct I as [<-|I].
      * destruct lit as [|a lit]; [reflexivity|].
        rewrite contains_unfold in H; simpl in H; discriminate.
      * apply contains_cons, (IH line I H).
    + destruct (split_lines s) as [|l ls] eqn:S.
      * destruct I as [<-|[]].
        destruct lit as [|a lit]; [reflexivity|].
        rewrite contains_unfold in H |- *.
        destruct (startswith (String a lit) (String c "")) eqn:P.
        -- simpl in P |- *. destruct (Ascii.eqb a c); [|discriminate].
           destruct lit; [reflexivity | discriminate].
        -- rewrite contains_unfold in H; simpl in H; discriminate.
      * destruct I as [<-|I].
        -- rewrite contains_unfold in H.
           destruct (startswith lit (String c l)) eqn:P.
           ++ (* the occurrence starts at [c]: [l] is a prefix of [s] *)
              assert (Pl : startswith l s = true).
              { clear -S. revert l ls S.
                induction s as [|c s IH]; intros l ls S0; simpl in S0.
                - injection S0 as <- <-; reflexivity.
                - destruct (Ascii.eqb c (ascii_of_nat 10)).
                  + injection S0 as <- <-; reflexivity.
                  + destruct (split_lines s) as [|l' ls'] eqn:S1.
                    * injection S0 as <- <-; simpl; rewrite Ascii.eqb_refl; reflexivity.
                    * injection S0 as <- <-; simpl; rewrite Ascii.eqb_refl.
                      eapply IH; reflexivity. }
              apply startswith_refl_contains.
              destruct lit as [|a lit]; [reflexivity|].
              simpl in P |- *. destruct (Ascii.eqb a c); [|discriminate].
              eapply startswith_trans; eassumption.
           ++ apply contains_cons, (IH l); [left; reflexivity | exact H].
        -- apply contains_cons, (IH line); [right; exact I | exact H].
Qed.

Lemma scan_without_fence : forall lines,
  Forall (fun line => startswith "```python" (strip line) = false) lines ->
  scan_code_section false lines = [].
Proof.
  induction 1 as [|line lines H _ IH]; [reflexivity|].
  cbn [scan_code_section]. rewrite H, andb_false_r; exact IH.
Qed.

(** X15.  A text without the opening of a python block gives no code:
    [_extract_code_from_result] returns [None], the pattern and the line
    scan both finding nothing. *)
Theorem X15_no_python_fence_no_code : forall result,
  contains "```python" result = false -> _extract_code_from_result result = None.
Proof.
  intros result H; unfold _extract_code_from_result.
  rewrite (search_demands_text "```python" fence_python result eq_refl H).
  rewrite scan_without_fence; [reflexivity|].
  apply Forall_forall; intros line I.
  destruct (startswith "```python" (strip line)) eqn:P; [|reflexivity].
  apply startswith_refl_contains, contains_strip in P.
  rewrite (contains_line _ _ _ I P) in H; discriminate.
Qed.

Section AgentAnswer.

Variable py_compile : string -> string -> CompileOutcome.
Variable json_loads : string -> option string.

Lemma no_action_input : forall agent_output,
  contains action_key agent_output = false ->
  from_action_input py_compile json_loads agent_output = None.
Proof.
  intros agent_output H; unfold from_action_input.
  apply first_some_none; intros p I.
  rewrite (search_demands_text action_key p agent_output); [reflexivity | | exact H].
  destruct I as [<-|[<-|[<-|[]]]]; reflexivity.
Qed.


End AgentAnswer.

(** ** Stripping twice *)

Lemma rstrip_rstrip : forall s, rstrip (rstrip s) = rstrip s.
Proof.
  induction s as [|c s IH]; [reflexivity|].
  cbn [rstrip]. destruct (rstrip s) as [|c2 r] eqn:R.
  - destruct (is_space c) eqn:S; [reflexivity|].
    cbn [rstrip]. rewrite S; reflexivity.
  - cbn [rstrip]. cbn [rstrip] in IH.
    destruct (rstrip r) as [|c3 r3] eqn:R3.
    + destruct (is_space c2); [discriminate|]. rewrite IH; reflexivity.
    + rewrite IH; reflexivity.
Qed.

Lemma lstrip_head : forall s,
  lstrip s = "" \/ exists c r, lstrip s = String c r /\ is_space c = false.
Proof.
  induction s as [|c s IH]; [left; reflexivity|].
  simpl. destruct (is_space c) eqn:S; [exact IH|].
  right; exists c, s; split; [reflexivity | exact S].
Qed.

Lemma rstrip_keeps_head : forall c r, is_space c = false ->
  exists r', rstrip (String c r) = String c r'.
Proof.
  intros c r S; cbn [rstrip]. destruct (rstrip r) as [|c2 r2].
  - rewrite S; eexists; reflexivity.
  - eexists; reflexivity.
Qed.

Lemma strip_strip : forall s, strip (strip s) = strip s.
Proof.
  intros s; unfold strip.
  destruct (lstrip_head s) as [E | [c [r [E S]]]]; rewrite E.
  - reflexivity.
  - destruct (rstrip_keeps_head c r S) as [r' E'].
    rewrite E'. cbn [lstrip]. rewrite S, <- E'. apply rstrip_rstrip.
Qed.



Section ToolReplies.

Import Tools.

Variable which : string -> bool.
Variable subprocess_run : list string -> Result Completed.
Variable write_temp : string -> Result string.
Variable read_temp : string -> Result string.
Variable remove_temp : string -> Result unit.
Variable ast_parse : string -> Result unit.
Variable modernize_patterns : string -> string * list string.
Variable target_version : string.
Variable detect_python2 : string -> list string.
Variable lib2to3_tool : Result unit.
Variable refactor_string : string -> Result (option string).
Variable _pattern_based_migration : string -> string * list string.
Variable _detect_compatibility_issues : string -> list string.
Variable _pattern_based_modernization : string -> string * list string.

Local Abbreviation the_run :=
  (run which subprocess_run write_temp read_temp remove_temp ast_parse
     modernize_patterns target_version detect_python2 lib2to3_tool refactor_string
     _pattern_based_migration _detect_compatibility_issues
     _pattern_based_modernization).
Local Abbreviation unchanged_by :=
  (nothing_to_change which subprocess_run ast_parse modernize_patterns detect_python2
     _pattern_based_modernization).

(** *** The helpers that call a backend *)

Ltac failed e :=
  unfold is_kind; simpl; destruct (kind e); simpl;
  do 3 eexists; (split; [reflexivity|]); split; auto.

Lemma eqb_false_neq : forall a b : string, negb (a =? b) = false -> a = b.
Proof.
  intros a b H; apply negb_false_iff in H; apply String.eqb_eq in H; exact H.
Qed.

Lemma pyupgrade_helper_safe : forall code,
  exists updated changed msg,
    _run_pyupgrade_on_code which subprocess_run write_temp read_temp remove_temp
      target_version code = Return (updated, changed, msg)
    /\ (msg <> "" -> updated = code /\ changed = false)
    /\ (changed = false -> updated = code).
Proof.
  intros code; unfold _run_pyupgrade_on_code.
  destruct (write_temp code) as [path|e]; simpl.
  - unfold try_finally. destruct (remove_temp path) as [[]|e]; simpl.
    + destruct (subprocess_run (_get_pyupgrade_args which target_version ++ [path])%list)
        as [result|e]; simpl.
      * destruct (read_temp path) as [updated|e]; simpl.
        -- destruct (returncode result =? 0)%Z; simpl.
           ++ do 3 eexists; split; [reflexivity|]; split;
                [intros N; congruence | apply eqb_false_neq].
           ++ destruct (returncode result =? 1)%Z; simpl.
              ** do 3 eexists; split; [reflexivity|]; split;
                   [intros N; congruence | discriminate].
              ** do 3 eexists; split; [reflexivity|]; split; auto.
        -- failed e.
      * failed e.
    + failed e.
  - failed e.
Qed.

Lemma modernize_helper_safe : forall code,
  exists updated changed msg,
    _run_modernize_on_code which subprocess_run write_temp read_temp remove_temp code
    = Return (updated, changed, msg)
    /\ (msg <> "" -> updated = code /\ changed = false)
    /\ (changed = negb (updated =? code)).
Proof.
  intros code; unfold _run_modernize_on_code.
  assert (Same : false = negb (code =? code)) by (rewrite String.eqb_refl; reflexivity).
  destruct (write_temp code) as [path|e]; simpl.
  - unfold try_finally. destruct (remove_temp path) as [[]|e]; simpl.
    + destruct (subprocess_run
                  (if which "python-modernize"
                   then ["python-modernize"; "--print"; "--no-diffs"; path]
                   else ["python"; "-m"; "libmodernize"; "--print"; "--no-diffs"; path]))
        as [result|e]; simpl.
      * destruct (returncode result =? 0)%Z; simpl.
        -- destruct (truthy (strip (stdout result))); simpl.
           ++ do 3 eexists; split; [reflexivity|]; split;
                [intros N; congruence | reflexivity].
           ++ destruct (read_temp path) as [updated|e]; simpl.
              ** do 3 eexists; split; [reflexivity|]; split;
                   [intros N; congruence | reflexivity].
              ** failed e.
        -- do 3 eexists; split; [reflexivity|]; split; auto.
      * failed e.
    + failed e.
  - failed e.
Qed.

Lemma lib2to3_helper_safe : forall code,
  exists migrated changed msg,
    _use_lib2to3 lib2to3_tool refactor_string code = Return (migrated, changed, msg)
    /\ (msg <> "" -> migrated = code /\ changed = false)
    /\ (changed = negb (migrated =? code)).
Proof.
  intros code; unfold _use_lib2to3.
  assert (Same : false = negb (code =? code)) by (rewrite String.eqb_refl; reflexivity).
  destruct lib2to3_tool as [[]|e]; simpl.
  - destruct (refactor_string code) as [[migrated|]|e]; simpl;
      do 3 eexists; (split; [reflexivity|]); split; auto; intros N; congruence.
  - failed e.
Qed.

(** X17.  The helpers that call a backend never raise:
    [_run_pyupgrade_on_code], [_run_modernize_on_code] and [_use_lib2to3]
    return a triple whatever the temporary files, the process and the
    library do; a triple with an error message carries the input text
    and no change; for [python-modernize] and [lib2to3] the change flag
    says exactly whether the text differs from the input, for
    [pyupgrade] a flag that is off means the text is the input. *)
Theorem X17_backend_helpers_fail_safe : forall code,
  (exists updated changed msg,
     _run_pyupgrade_on_code which subprocess_run write_temp read_temp remove_temp
       target_version code = Return (updated, changed, msg)
     /\ (msg <> "" -> updated = code /\ changed = false)
     /\ (changed = false -> updated = code))
  /\ (exists updated changed msg,
        _run_modernize_on_code which subprocess_run write_temp read_temp remove_temp
          code = Return (updated, changed, msg)
        /\ (msg <> "" -> updated = code /\ changed = false)
        /\ changed = negb (updated =? code))
  /\ (exists migrated changed msg,
        _use_lib2to3 lib2to3_tool refactor_string code
        = Return (migrated, changed, msg)
        /\ (msg <> "" -> migrated = code /\ changed = false)
        /\ changed = negb (migrated =? code)).
Proof.
  intros code; split; [apply pyupgrade_helper_safe|].
  split; [apply modernize_helper_safe | apply lib2to3_helper_safe].
Qed.

(** *** A probe that fails *)


(** *** Replies that change nothing *)

Lemma unchanged_reply : forall t code,
  truthy (strip code) = true -> mem "`"%char (strip code) = false ->
  unchanged_by t (strip code) ->
  exists reply,
    the_run t code = Return reply
    /\ _extract_code_from_result reply = Some (strip code).
Proof.
  intros t code T M U.
  destruct t; simpl in U.
  - destruct U as (P & A & C).
    unfold run, pyupgrade_run, pyupgrade_run_body.
    rewrite (strip_truthy _ T), T, P; simpl. rewrite A; simpl.
    unfold _pattern_based_fallback.
    destruct (modernize_patterns (strip code)) as [u ch]; simpl in C; subst ch.
    eexists; split; [reflexivity|].
    exact (extract_fenced
             ("Fallback Analysis Complete - No changes needed" ++ nl ++ nl
              ++ "The code appears to be using modern Python patterns." ++ nl ++ nl
              ++ "Original code:" ++ nl)
             (strip code) "" eq_refl M).
  - unfold run, python2to3_run, python2to3_run_body.
    rewrite (strip_truthy _ T), T; simpl. rewrite U; simpl.
    eexists; split; [reflexivity|].
    exact (extract_fenced
             (join_lines ["Python 2 to 3 Migration Analysis"; "";
                          "The provided code appears to already be Python 3 compatible.";
                          "No Python 2 specific patterns detected."; "";
                          "Original code:"; ""])
             (strip code)
             (nl ++ nl ++ "No migration needed - code is already Python 3 compatible!")
             eq_refl M).
  - destruct U as (A & C).
    unfold run, modernize_run, modernize_run_body.
    rewrite (strip_truthy _ T), T; simpl. rewrite A; simpl.
    unfold modernize_fallback_reply.
    destruct (_pattern_based_modernization (strip code)) as [u ch]; simpl in C; subst ch.
    eexists; split; [reflexivity|].
    exact (extract_fenced
             (join_lines ["Python 2/3 Compatibility Analysis Complete"; "";
                          "Original code:"; ""])
             (strip code)
             (nl ++ nl
              ++ "Code appears to already be compatible or no automatic fixes available."
              ++ nl
              ++ "For comprehensive modernization, install python-modernize: pip install modernize")
             eq_refl M).
Qed.


Lemma blank_reply : forall t code,
  strip code = "" ->
  exists reply, the_run t code = Return reply /\ _extract_code_from_result reply = None.
Proof.
  intros t code S.
  destruct code as [|c code].
  - exists invalid_input; split; [destruct t; reflexivity | reflexivity].
  - exists empty_code; split; [|reflexivity].
    destruct t; unfold run, pyupgrade_run, python2to3_run, modernize_run,
      pyupgrade_run_body, python2to3_run_body, modernize_run_body;
      rewrite S; reflexivity.
Qed.

Section OnTheExecutor.

Variable py_compile : string -> string -> CompileOutcome.

(** [tool.run] as the executor sees it. *)
Variable tool_run : Tool -> string -> string.

Local Abbreviation valid := (_validate_python_code py_compile).
Local Abbreviation chain := (_apply_fallback_tools py_compile tool_run).
Local Abbreviation carried := (accumulated py_compile tool_run).
Local Abbreviation accepts := (accepted py_compile tool_run).


Lemma not_accepted : forall t code,
  _extract_code_from_result (tool_run t code) = None ->
  accepts t code = false /\ carried t code = code.
Proof.
  intros t code E; unfold accepted, accumulated; rewrite E; split; reflexivity.
Qed.

Lemma chain_unchanged : forall py_file code w,
  (forall t, accepts t code = false) ->
  fst (chain py_file code w) = false
  /\ fs (snd (chain py_file code w)) = fs w
  /\ written (log (snd (chain py_file code w))) = written (log w).
Proof.
  intros py_file code w H. rewrite chain_eq. cbv zeta.
  generalize (contains_any python2_markers code); intros g.
  assert (C : forall t, carried t code = code)
    by (intros t; apply carried_same, H).
  destruct g; rewrite ?C, ?H, ?C, ?H; simpl;
    rewrite ?written_app; simpl; rewrite ?app_nil_r; repeat split.
Qed.

(** X21.  A file that is empty or holds only white space is left alone:
    each tool answers with an error message that carries no block, so
    the manual pass writes nothing and counts nothing, and the chain
    returns false without a write. *)
Theorem X21_blank_file_is_left_alone : forall code,
  strip code = "" ->
  (forall t, the_run t code = Return (tool_run t code)) ->
  (forall tool st py_file,
     read (fs (snd st)) py_file = Text code ->
     manual_file tool_run tool st py_file
     = (fst st, logged (ToolRun tool code) (snd st)))
  /\ (forall py_file w,
        fst (chain py_file code w) = false
        /\ fs (snd (chain py_file code w)) = fs w
        /\ written (log (snd (chain py_file code w))) = written (log w)).
Proof.
  intros code S L.
  assert (X : forall t, _extract_code_from_result (tool_run t code) = None).
  { intros t. destruct (blank_reply t code S) as [reply [E X]].
    rewrite L in E; injection E as ->; exact X. }
  split.
  - intros tool st py_file R. unfold manual_file, run_tool; rewrite R, X; reflexivity.
  - intros py_file w. apply chain_unchanged.
    intros t; apply (not_accepted t code (X t)).
Qed.


End OnTheExecutor.

End ToolReplies.

(** ** The further properties on the concrete environment *)

Section FurtherExamples.

Import Sample Cases.

Lemma X5_witness :
  1 <= max_iterations (executor 1 None)
  /\ (final_status (results (migrate 1 None [("a.py", Text print_call)])) = "success"
      <-> final_migrated_code (migrate 1 None [("a.py", Text print_call)]) <> []
          /\ all_pass compile
               (final_migrated_code (migrate 1 None [("a.py", Text print_call)]))).
Proof.
  split; [simpl; lia|].
  apply (X5_success_iff_the_final_tree_passes compile json_loads tool_run str_error
           unit failing_agent unit (fun _ => Some tt) (executor 1 None)
           [("a.py", Text print_call)]).
  simpl; lia.
Defined.

Lemma X9_witness :
  NoDup (rglob [("a.py", undecodable)])
  /\ In ("a.py", undecodable) [("a.py", undecodable)]
  /\ final_status (results (migrate 3 None [("a.py", undecodable)])) <> "success".
Proof.
  assert (N : NoDup (rglob [("a.py", undecodable)]))
    by (constructor; [intros [] | constructor]).
  assert (I : In ("a.py", undecodable) [("a.py", undecodable)])
    by (left; reflexivity).
  split; [exact N|]. split; [exact I|].
  apply (X9_unreadable_file_blocks_success compile json_loads tool_run str_error
           unit failing_agent unit (fun _ => Some tt) (executor 3 None)
           [("a.py", undecodable)] "a.py" _ N I).
Defined.

Lemma X13_witness :
  final_status (results (migrate 2 None [("a.py", Text "x = 1")])) = "success"
  /\ trace (migrate 2 None
              (final_migrated_code (migrate 2 None [("a.py", Text "x = 1")]))) = [].
Proof.
  assert (S : final_status (results (migrate 2 None [("a.py", Text "x = 1")]))
              = "success") by reflexivity.
  split; [exact S|].
  apply (X13_rerun_after_success_changes_nothing compile json_loads tool_run str_error
           unit failing_agent unit (fun _ => Some tt) (executor 2 None)
           [("a.py", Text "x = 1")] S).
Defined.

Lemma X14_witness :
  _extract_code_from_result
    (("Original code:" ++ nl) ++ "```python" ++ nl ++ "x = 1" ++ nl ++ "```" ++ "")
  = Some "x = 1".
Proof.
  apply (X14_first_python_fence_is_extracted ("Original code:" ++ nl) "x = 1" "");
    reflexivity.
Defined.

Lemma X15_witness : _extract_code_from_result Tools.empty_code = None.
Proof.
  apply (X15_no_python_fence_no_code Tools.empty_code); reflexivity.
Defined.





Lemma X21_witness :
  manual_file tool_run PyUpgradeTool (0, MkWorld [("a.py", Text nl)] []) "a.py"
  = (0, logged (ToolRun PyUpgradeTool nl) (MkWorld [("a.py", Text nl)] [])).
Proof.
  apply (proj1 (X21_blank_file_is_left_alone (fun _ => false)
                  (fun _ => Tools.Raise not_found) (fun _ => Tools.Raise not_found)
                  (fun _ => Tools.Raise not_found) (fun _ => Tools.Raise not_found)
                  ast_parse unchanged "3.11" detect_python2
                  (Tools.Raise (Tools.MkExn Tools.ImportError "No module named 'lib2to3'"))
                  (fun _ => Tools.Raise not_found) pattern_based_migration
                  detect_compatibility_issues pattern_based_modernization
                  compile tool_run nl eq_refl (fun t => match t with
                                                        | PyUpgradeTool => eq_refl
                                                        | Python2To3Tool => eq_refl
                                                        | ModernizeTool => eq_refl
                                                        end))).
  reflexivity.
Defined.


Lemma X24_witness :
  execute_migration compile json_loads tool_run str_error failing_agent
    (fun _ : unit => None) (executor 1 (Some tt)) [("a.py", Text print_stmt)]
  = execute_migration compile json_loads tool_run str_error silent_agent
      (fun _ : unit => None) (executor 1 (Some tt)) [("a.py", Text print_stmt)].
Proof.
  apply (X24_without_agent_invoke_plays_no_part compile json_loads tool_run
           str_error unit unit failing_agent silent_agent
           (fun _ => None) (fun _ => None) (executor 1 (Some tt))
           [("a.py", Text print_stmt)]); reflexivity.
Defined.

End FurtherExamples.
